(** * getqt: artifact classification, package registry, merge and
      dependency resolution of [getqt.py], embedded in Rocq.

    The script is a Windows tool (it drives [dumpbin.exe]), so [os.path] is
    [ntpath]: the separators are the backslash and the slash.  Python [str]
    values are modelled as [string]; code points above 127 are outside the
    model (the names of the Qt distribution are ASCII), so [str.lower] maps
    [A-Z] to [a-z] and [str.strip] removes the ASCII white space.  On ASCII
    text that is what CPython does; on other text [str.lower] is not a map
    of single characters (a capital sigma is lowered by its position in
    the word), so a statement that relates the lower-casings of different
    strings is made for ASCII text, [Py.isascii].

    Python sets of strings are [gset string], the package dictionary is a
    [gmap string QtPackage], exceptions are an error monad. *)

From Stdlib Require Import ZArith Ascii.
From stdpp Require Import base option list strings gmap fin_maps sets.

#[local] Set Warnings "-clear-no-such-hyp".

(** ** Python strings *)

Module Py.
Local Open Scope Z_scope.

Definition chars : string → list ascii := String.list_ascii_of_string.
Definition text : list ascii → string := String.string_of_list_ascii.

Definition ch_backslash : ascii := ascii_of_nat 92.
Definition ch_slash : ascii := ascii_of_nat 47.
Definition ch_dot : ascii := ascii_of_nat 46.
Definition ch_quote : ascii := ascii_of_nat 34.
Definition CR : ascii := ascii_of_nat 13.
Definition LF : ascii := ascii_of_nat 10.

(** [str.lower] on one ASCII character; other characters are left as they
    are. *)
Definition lower_char (c : ascii) : ascii :=
  let n := nat_of_ascii c in
  if ((65 <=? n) && (n <=? 90))%nat then ascii_of_nat (n + 32) else c.

(** [c.isspace()] for ASCII: TAB, LF, VT, FF, CR, FS, GS, RS, US, space. *)
Definition isspace (c : ascii) : bool :=
  let n := nat_of_ascii c in
  (((9 <=? n) && (n <=? 13)) || ((28 <=? n) && (n <=? 32)))%nat.

Definition eqc (a b : ascii) : bool := Ascii.eqb a b.

(** [s.startswith(p)] on character lists. *)
Fixpoint starts (p s : list ascii) : bool :=
  match p, s with
  | [], _ => true
  | _ :: _, [] => false
  | a :: p', b :: s' => eqc a b && starts p' s'
  end.

(** [s.endswith(p)]: the last [len(p)] characters of [s] are [p]. *)
Definition ends (p s : list ascii) : bool :=
  (length p <=? length s)%nat && starts p (drop (length s - length p) s).

(** [p in s]: some position of [s] starts with [p]. *)
Fixpoint occurs (p s : list ascii) : bool :=
  starts p s || match s with [] => false | _ :: s' => occurs p s' end.

(** [s.rfind(c)] for a one-character [c]: the last index, or [-1]. *)
Fixpoint rfind_from (i : Z) (c : ascii) (s : list ascii) (found : Z) : Z :=
  match s with
  | [] => found
  | x :: s' => rfind_from (i + 1) c s' (if eqc x c then i else found)
  end.
Definition rfind_chars (c : ascii) (s : list ascii) : Z := rfind_from 0 c s (-1).

(** Python's index normalisation for slices of a sequence of length [n]:
    a negative bound counts from the end, then the bound is clamped. *)
Definition slice_bound (n : nat) (i : Z) : nat :=
  Z.to_nat (Z.min (Z.max (if i <? 0 then i + Z.of_nat n else i) 0) (Z.of_nat n)).

(** [l[lo:hi]] *)
Definition slice_list {A} (l : list A) (lo hi : Z) : list A :=
  let a := slice_bound (length l) lo in
  let b := slice_bound (length l) hi in
  take (b - a) (drop a l).

(** [l[lo:]] *)
Definition slice_from_list {A} (l : list A) (lo : Z) : list A :=
  drop (slice_bound (length l) lo) l.

(** [s.split(sep)] for a non-empty [sep]: [skip] counts the characters of
    a separator just matched that are still to be passed over, [cur] is
    the piece being read, reversed. *)
Fixpoint split_go (sep : list ascii) (skip : nat) (cur : list ascii)
    (s : list ascii) : list (list ascii) :=
  match s with
  | [] => [rev cur]
  | c :: s' =>
      match skip with
      | S k => split_go sep k cur s'
      | O =>
          if starts sep s
          then rev cur :: split_go sep (length sep - 1) [] s'
          else split_go sep 0 (c :: cur) s'
      end
  end.

Fixpoint lstrip_chars (s : list ascii) : list ascii :=
  match s with
  | c :: s' => if isspace c then lstrip_chars s' else s
  | [] => []
  end.

Definition strip_chars (s : list ascii) : list ascii :=
  rev (lstrip_chars (rev (lstrip_chars s))).

(** The operations on [string]. *)
Definition lower (s : string) : string := text (lower_char <$> chars s).

(** [s.isascii()]: every character is below 128. *)
Definition isascii (s : string) : bool :=
  forallb (λ c, (nat_of_ascii c <? 128)%nat) (chars s).
Definition startswith (s p : string) : bool := starts (chars p) (chars s).
Definition endswith (s p : string) : bool := ends (chars p) (chars s).
Definition contains (p s : string) : bool := occurs (chars p) (chars s).
Definition rfind (s : string) (c : ascii) : Z := rfind_chars c (chars s).
Definition slice (s : string) (lo hi : Z) : string := text (slice_list (chars s) lo hi).
Definition slice_from (s : string) (lo : Z) : string := text (slice_from_list (chars s) lo).
Definition split (s sep : string) : list string := text <$> split_go (chars sep) 0 [] (chars s).
Definition strip (s : string) : string := text (strip_chars (chars s)).

(** [sep.join(parts)] *)
Fixpoint join (sep : string) (parts : list string) : string :=
  match parts with
  | [] => ""
  | part :: parts' =>
      match parts' with
      | [] => part
      | _ :: _ => part +:+ sep +:+ join sep parts'
      end
  end.

(** The items of a [str] taken as a sequence: its one-character strings. *)
Definition items (s : string) : list string := (λ c, String c "") <$> chars s.

Definition CRLF : string := String CR (String LF "").
Definition backslash : string := String ch_backslash "".
Definition quote : string := String ch_quote "".

End Py.

(** ** [os.path] (ntpath) *)

Module ospath.
Import Py.
Local Open Scope Z_scope.

(** [genericpath._splitext] with [sep = '\\'], [altsep = '/'],
    [extsep = '.']: the extension starts at the last dot of the last path
    component, unless that component has only dots before it. *)
Definition splitext (p : string) : string * string :=
  let sepIndex := Z.max (rfind p ch_backslash) (rfind p ch_slash) in
  let dotIndex := rfind p ch_dot in
  if (sepIndex <? dotIndex)
     && existsb (λ c, negb (eqc c ch_dot)) (slice_list (chars p) (sepIndex + 1) dotIndex)
  then (slice p 0 dotIndex, slice_from p dotIndex)
  else (p, "").

(** [os.path.basename] of a path without a drive-relative tail: what
    follows the last separator. *)
Definition basename (p : string) : string :=
  slice_from p (Z.max (rfind p ch_backslash) (rfind p ch_slash) + 1).

(** [os.path.join(dirpath, filename)] for a directory that is not empty
    and does not end in a separator and a plain file name, as [os.walk]
    yields them; after an empty directory or one that ends in a separator
    [ntpath.join] puts no backslash. *)
Definition join (dirpath filename : string) : string :=
  dirpath +:+ backslash +:+ filename.

End ospath.

(** ** Module constants *)

Definition DUMPBIN : string :=
  "C:" +:+ Py.backslash +:+ "Program Files (x86)" +:+ Py.backslash
  +:+ "Microsoft Visual Studio 12.0" +:+ Py.backslash +:+ "VC"
  +:+ Py.backslash +:+ "bin" +:+ Py.backslash +:+ "dumpbin.exe".
Definition QT_LATEST : string := "5.4.1".
Definition DEBUG_SUFFIX : string := "d".
Definition IGNORE_FILES : list string := ["Qt5Designer"; "Qt5QmlDevTools"].
Definition FIXED_DEPS : list string := ["qt5core"].

Definition MERGE_PACKAGES : list (string * list string) :=
  [ ("qt5core", ["qtmain"; "qt5bootstrap"; "qt5platformsupport"]);
    ("qt5multimedia", ["qt5multimediawidgets"]);
    ("qt5opengl", ["qt5openglextensions"]);
    ("qt5xml", ["qt5xmlpatterns"]);
    ("qt5quick", ["qt5quickwidgets"; "qt5quicktest"; "qt5multimediaquick_p"; "qt5quickparticles"]);
    ("qt5webkit", ["qt5webkitwidgets"]) ].

(** ** [file_to_package] *)

Definition file_to_package (filename : string) : string :=
  let base := Py.lower (ospath.splitext filename).1 in
  if Py.endswith base DEBUG_SUFFIX then Py.slice base 0 (-1)%Z else base.

(** ** Exceptions *)

Inductive exn : Type :=
  | Exception (msg : string)
  | AssertionError
  | AttributeError (attr : string)
  | CalledProcessError (cmd : string).

Inductive result (A : Type) : Type :=
  | Ok (a : A)
  | Raise (e : exn).
Arguments Ok {A} a.
Arguments Raise {A} e.

Definition bind {A B} (m : result A) (k : A → result B) : result B :=
  match m with
  | Ok a => k a
  | Raise e => Raise e
  end.

Notation "'do' x <- m ; k" := (bind m (λ x, k))
  (at level 10, x pattern, m at level 100, k at level 200).

(** ** The outside world

    [path_exists] is [os.path.exists]; [check_output cmd] is
    [subprocess.check_output(cmd).decode('utf-8')], [None] when the call or
    the decoding raises; [walk] is the list that [os.walk] yields.

    The world does not say why a call failed, so [run] raises
    [CalledProcessError], the exception of a non-zero exit status, for
    every failure, also where Python raises [FileNotFoundError] or
    [UnicodeDecodeError]: what is modelled is that the call raises, not
    the kind of the exception. *)

Record World : Type := {
  path_exists : string → bool;
  check_output : string → option string;
  walk : string → list (string * list string * list string)
}.

Definition run (w : World) (cmd : string) : result string :=
  match check_output w cmd with
  | Some out => Ok out
  | None => Raise (CalledProcessError cmd)
  end.

(** ** [Component] and [DLLComponent] *)

Module Component.

Inductive kind : Type := TYPE_BINARY | TYPE_SYMBOL | TYPE_LIBRARY.
Inductive flavor : Type := BUILD_DEBUG | BUILD_RELEASE.
Inductive class : Type := ComponentClass | DLLComponentClass.

#[global] Instance kind_eq_dec : EqDecision kind.
Proof. solve_decision. Defined.
#[global] Instance flavor_eq_dec : EqDecision flavor.
Proof. solve_decision. Defined.
#[global] Instance class_eq_dec : EqDecision class.
Proof. solve_decision. Defined.

(** [_arch] and [_deps] are the memo fields; [_deps] exists on a
    [DLLComponent] only. *)
Record t : Type := {
  class_of : class;
  _abspath : string;
  _targetpath : string;
  _arch : option string;
  _deps : option (gset string)
}.

Definition init (path targetpath : string) : t :=
  {| class_of := ComponentClass; _abspath := path; _targetpath := targetpath;
     _arch := None; _deps := None |}.

Definition set_arch (self : t) (a : string) : t :=
  {| class_of := class_of self; _abspath := _abspath self;
     _targetpath := _targetpath self; _arch := Some a; _deps := _deps self |}.

Definition set_deps (self : t) (d : gset string) : t :=
  {| class_of := class_of self; _abspath := _abspath self;
     _targetpath := _targetpath self; _arch := _arch self; _deps := Some d |}.

Definition filename (self : t) : string := ospath.basename (_abspath self).
Definition normalized_name (self : t) : string := file_to_package (filename self).
Definition extension (self : t) : string := (ospath.splitext (_abspath self)).2.

Definition type (self : t) : result kind :=
  if decide (extension self = ".dll") then Ok TYPE_BINARY
  else if decide (extension self = ".pdb") then Ok TYPE_SYMBOL
  else if decide (extension self = ".lib") then Ok TYPE_LIBRARY
  else Raise (Exception "Unkown file type").

Definition build (self : t) : flavor :=
  if decide (extension self = ".pdb") then BUILD_DEBUG
  else
    let filebase := (ospath.splitext (filename self)).1 in
    if Py.endswith filebase DEBUG_SUFFIX then BUILD_DEBUG else BUILD_RELEASE.

(** The loop of [arch] over the lines of the [/HEADERS] listing: the
    first line that names a machine gives the architecture; when no line
    does, the loop ends and the property returns [None]. *)
Fixpoint machine_of (out : list string) : option string :=
  match out with
  | [] => None
  | line :: out' =>
      let line := Py.strip line in
      if (Py.startswith line "8664" || Py.startswith line "14C")
         && Py.contains "machine" line
      then
        let line := Py.split line " " in
        Some (Py.slice (default "" (last line)) 1%Z (-1)%Z)
      else machine_of out'
  end.

Definition headers_command (check_name : string) : string :=
  Py.quote +:+ DUMPBIN +:+ Py.quote +:+ " /HEADERS " +:+ check_name.

(** The file whose header is read: the component itself, or for a symbol
    file the [.dll], else the [.lib], beside it. *)
Definition check_name (w : World) (self : t) : result string :=
  do ty <- type self;
  if decide (ty = TYPE_SYMBOL) then
    let test1 := (ospath.splitext (_abspath self)).1 +:+ ".dll" in
    let test2 := (ospath.splitext (_abspath self)).1 +:+ ".lib" in
    if path_exists w test1 then Ok test1
    else if path_exists w test2 then Ok test2
    else Raise (Exception "Cant find binary for symbol")
  else Ok (_abspath self).

(** The call of the inspector on [check_name] and the loop over its
    output: the value that [arch] returns ([None] is Python's [None], the
    value of a call that ends without [return]) and the component with
    its memo field. *)
Definition inspect_headers (w : World) (self : t) (check_name : string)
    : result (option string * t) :=
  do out <- run w (headers_command check_name);
  match machine_of (Py.split out Py.CRLF) with
  | Some a => Ok (Some a, set_arch self a)
  | None => Ok (None, self)
  end.

(** The property [arch]. *)
Definition arch (w : World) (self : t) : result (option string * t) :=
  match _arch self with
  | Some a => Ok (Some a, self)
  | None =>
      do name <- check_name w self;
      inspect_headers w self name
  end.

End Component.

Module DLLComponent.
Import Component.

Definition init (path targetpath : string) : t :=
  {| class_of := DLLComponentClass; _abspath := path; _targetpath := targetpath;
     _arch := None; _deps := None |}.

Fixpoint dumpbin_lines (deps_follow : bool) (instr : list string) : list string :=
  match instr with
  | [] => []
  | line :: instr' =>
      if decide (Py.strip line = "") then dumpbin_lines deps_follow instr'
      else
        let deps_follow := if Py.contains "Summary" line then false else deps_follow in
        let found := if deps_follow then [Py.lower (Py.strip line)] else [] in
        let deps_follow := if Py.contains "dependencies" line then true else deps_follow in
        found ++ dumpbin_lines deps_follow instr'
  end.

Definition _dumpbin_to_deps (instr : string) : list string :=
  dumpbin_lines false (Py.split instr Py.CRLF).

Definition dependents_command (path : string) : string :=
  Py.quote +:+ DUMPBIN +:+ Py.quote +:+ " /DEPENDENTS " +:+ path.

(** [for dep in ...: if dep.startswith('qt'): self._deps.add(...)] *)
Definition qt_deps (deps : list string) : gset string :=
  foldl (λ acc dep,
           if Py.startswith dep "qt" then acc ∪ {[ file_to_package dep ]} else acc)
        ∅ deps.

(** The property [dependencies]; a plain [Component] has no such
    attribute.  A read that raises gives no component back: Python has set
    the memo field to the empty set before the inspector is called, so a
    second read after a caught exception would return that set; nothing in
    the program catches the exception, and no statement is about the state
    after a raise. *)
Definition dependencies (w : World) (self : t) : result (gset string * t) :=
  match class_of self with
  | ComponentClass => Raise (AttributeError "dependencies")
  | DLLComponentClass =>
      match _deps self with
      | Some d => Ok (d, self)
      | None =>
          do out <- run w (dependents_command (_abspath self));
          let d := qt_deps (_dumpbin_to_deps out) in
          Ok (d, set_deps self d)
      end
  end.

End DLLComponent.

(** ** [PackageConfig] *)

Module PackageConfig.

Record t : Type := {
  arch : option string;
  build : Component.flavor;
  binaries : list Component.t;
  symbols : list Component.t;
  libraries : list Component.t
}.

Definition init (arch : option string) (build : Component.flavor) : t :=
  {| arch := arch; build := build; binaries := []; symbols := []; libraries := [] |}.

Definition all (self : t) : list Component.t :=
  binaries self ++ symbols self ++ libraries self.

Definition add_component (self : t) (component : Component.t) : result t :=
  do ty <- Component.type component;
  match ty with
  | Component.TYPE_BINARY =>
      Ok {| arch := arch self; build := build self;
            binaries := binaries self ++ [component];
            symbols := symbols self; libraries := libraries self |}
  | Component.TYPE_LIBRARY =>
      Ok {| arch := arch self; build := build self;
            binaries := binaries self; symbols := symbols self;
            libraries := libraries self ++ [component] |}
  | Component.TYPE_SYMBOL =>
      Ok {| arch := arch self; build := build self;
            binaries := binaries self;
            symbols := symbols self ++ [component];
            libraries := libraries self |}
  end.

Definition set_binaries (self : t) (bs : list Component.t) : t :=
  {| arch := arch self; build := build self; binaries := bs;
     symbols := symbols self; libraries := libraries self |}.

(** [config.arch == arch and config.build == build] *)
Definition has_key (arch0 : option string) (build0 : Component.flavor) (config : t) : bool :=
  bool_decide (arch config = arch0) && bool_decide (build config = build0).

End PackageConfig.

(** ** [QtPackage]

    [configurations] is a Python set of [PackageConfig] objects, which hash
    by identity: no two elements are ever identified, and the set is
    modelled by the list of its elements in iteration order, a new element
    going to the end.  A reference to a bucket of the package is its
    position in that list. *)

Module QtPackage.

Record t : Type := {
  id : string;
  name : string;
  version : string;
  configurations : list PackageConfig.t;
  dependencies : gset string
}.

Definition init (id name : string) : t :=
  {| id := Py.lower id; name := Py.lower name; version := QT_LATEST;
     configurations := []; dependencies := ∅ |}.

Definition set_configurations (self : t) (cs : list PackageConfig.t) : t :=
  {| id := id self; name := name self; version := version self;
     configurations := cs; dependencies := dependencies self |}.

Definition set_version (self : t) (v : string) : t :=
  {| id := id self; name := name self; version := v;
     configurations := configurations self; dependencies := dependencies self |}.

Definition set_dependencies (self : t) (d : gset string) : t :=
  {| id := id self; name := name self; version := version self;
     configurations := configurations self; dependencies := d |}.

(** The loop of [get_config]: the position of the first bucket with the
    key. *)
Fixpoint find_config (arch : option string) (build : Component.flavor)
    (configs : list PackageConfig.t) : option nat :=
  match configs with
  | [] => None
  | config :: configs' =>
      if PackageConfig.has_key arch build config then Some O
      else S <$> find_config arch build configs'
  end.

(** [get_config]: the bucket (its position) and the package, which has
    gained an empty bucket when none had the key. *)
Definition get_config (self : t) (arch : option string) (build : Component.flavor)
    : nat * t :=
  match find_config arch build (configurations self) with
  | Some i => (i, self)
  | None =>
      (length (configurations self),
       set_configurations self (configurations self ++ [PackageConfig.init arch build]))
  end.

(** An in-place change [f] of the bucket at position [i]. *)
Definition update_config (self : t) (i : nat)
    (f : PackageConfig.t → result PackageConfig.t) : result t :=
  match configurations self !! i with
  | Some config =>
      do config' <- f config;
      Ok (set_configurations self (<[i := config']> (configurations self)))
  | None => Ok self
  end.

Definition from_component (w : World) (component : Component.t) (vs_version : string)
    : result t :=
  let id := Component.normalized_name component +:+ "-" +:+ vs_version in
  let name := Component.normalized_name component in
  let package := init id name in
  do (a, component) <- Component.arch w component;
  let '(i, package) := get_config package a (Component.build component) in
  update_config package i (λ config, PackageConfig.add_component config component).

End QtPackage.

(** ** [compute_dependencies] *)

(** [for binary in config.binaries]: the set [deps] after the loop and the
    binaries with their memo fields. *)
Fixpoint scan_binaries (w : World) (packagename : string) (deps : gset string)
    (binaries : list Component.t) : result (gset string * list Component.t) :=
  match binaries with
  | [] => Ok (deps, [])
  | binary :: binaries' =>
      do (d, binary) <- DLLComponent.dependencies w binary;
      let deps := deps ∪ d in
      let deps := if decide (packagename ∈ deps) then deps ∖ {[ packagename ]} else deps in
      do (deps, binaries') <- scan_binaries w packagename deps binaries';
      Ok (deps, binary :: binaries')
  end.

(** [for config in package.configurations] *)
Fixpoint scan_configurations (w : World) (packagename : string) (deps : gset string)
    (configs : list PackageConfig.t) : result (gset string * list PackageConfig.t) :=
  match configs with
  | [] => Ok (deps, [])
  | config :: configs' =>
      do (deps, bs) <- scan_binaries w packagename deps (PackageConfig.binaries config);
      do (deps, configs') <- scan_configurations w packagename deps configs';
      Ok (deps, PackageConfig.set_binaries config bs :: configs')
  end.

(** The body of the loop over [packages.items()]. *)
Definition package_dependencies (w : World) (packagename : string) (package : QtPackage.t)
    : result QtPackage.t :=
  let deps : gset string := list_to_set FIXED_DEPS in
  do (deps, configs) <-
    scan_configurations w packagename deps (QtPackage.configurations package);
  Ok (QtPackage.set_dependencies (QtPackage.set_configurations package configs) deps).

(** The packages are independent of each other, so the order of the
    dictionary only decides which failing binary is reported first. *)
Definition compute_dependencies (w : World) (packages : gmap string QtPackage.t)
    : result (gmap string QtPackage.t) :=
  map_fold
    (λ packagename package acc,
       do packages' <- acc;
       do package' <- package_dependencies w packagename package;
       Ok (<[packagename := package']> packages'))
    (Ok packages) packages.

(** ** [find_components] *)

Definition ignored (filename : string) : bool :=
  existsb (λ exclude, Py.contains exclude filename) IGNORE_FILES.

Definition components_of_file (targetpath dirpath filename : string) : list Component.t :=
  if ignored filename then []
  else if Py.endswith filename ".dll"
  then [DLLComponent.init (ospath.join dirpath filename) targetpath]
  else if Py.endswith filename ".pdb" || Py.endswith filename ".lib"
  then [Component.init (ospath.join dirpath filename) targetpath]
  else [].

Definition components_of_dir (targetpath : string)
    (entry : string * list string * list string) : list Component.t :=
  let '(dirpath, dirnames, filenames) := entry in
  if Py.endswith dirpath "bin" || Py.endswith dirpath "lib"
  then flat_map (components_of_file targetpath dirpath) filenames
  else [].

Definition find_components (w : World) (inpath targetpath : string) : list Component.t :=
  flat_map (components_of_dir targetpath) (walk w inpath).

(** ** [merge_packages] *)

(** [for component in config.all: target_config.add_component(component)] *)
Fixpoint add_components (target_config : PackageConfig.t) (components : list Component.t)
    : result PackageConfig.t :=
  match components with
  | [] => Ok target_config
  | component :: components' =>
      do target_config <- PackageConfig.add_component target_config component;
      add_components target_config components'
  end.

(** The body of [for config in package.configurations]. *)
Definition transplant_config (target : QtPackage.t) (config : PackageConfig.t)
    : result QtPackage.t :=
  let '(i, target) :=
    QtPackage.get_config target (PackageConfig.arch config) (PackageConfig.build config) in
  QtPackage.update_config target i
    (λ target_config, add_components target_config (PackageConfig.all config)).

(** The member is another object than the target: its buckets are not
    touched while they are read. *)
Fixpoint transplant (target : QtPackage.t) (configs : list PackageConfig.t)
    : result QtPackage.t :=
  match configs with
  | [] => Ok target
  | config :: configs' =>
      do target <- transplant_config target config;
      transplant target configs'
  end.

(** The member is the target itself: the loop visits the target's own
    buckets, position by position, and reads each one as it is when
    visited (every key is found, so no bucket is added meanwhile). *)
Fixpoint transplant_self (target : QtPackage.t) (positions : list nat)
    : result QtPackage.t :=
  match positions with
  | [] => Ok target
  | j :: positions' =>
      match QtPackage.configurations target !! j with
      | Some config =>
          do target <- transplant_config target config;
          transplant_self target positions'
      | None => Ok target
      end
  end.

(** [for packagename in members].  [target] is the object fetched before
    the loop; while [targetname] is a key of the dictionary its entry is
    that same object, so every change of [target] shows there. *)
Fixpoint merge_members (packagelist : gmap string QtPackage.t) (targetname : string)
    (target : QtPackage.t) (members : list string) : result (gmap string QtPackage.t) :=
  match members with
  | [] => Ok packagelist
  | packagename :: members' =>
      match packagelist !! packagename with
      | None => Raise AssertionError
      | Some package =>
          do target <-
            (if decide (packagename = targetname)
             then transplant_self target (seq 0 (length (QtPackage.configurations target)))
             else transplant target (QtPackage.configurations package));
          let packagelist :=
            if decide (is_Some (packagelist !! targetname))
            then <[targetname := target]> packagelist else packagelist in
          merge_members (delete packagename packagelist) targetname target members'
      end
  end.

Definition merge_packages (packagelist : gmap string QtPackage.t) (targetname : string)
    (members : list string) : result (gmap string QtPackage.t) :=
  match packagelist !! targetname with
  | None => Raise AssertionError
  | Some target => merge_members packagelist targetname target members
  end.

(** ** The ingestion loop of [main] *)

(** The body of [for component in find_components(qtpath, tempdir)].
    [str(component)] reads [type], [build] and [arch]. *)
Definition ingest (w : World) (qt_version : string) (packages : gmap string QtPackage.t)
    (component : Component.t) : result (gmap string QtPackage.t) :=
  do _ <- Component.type component;
  do (_, component) <- Component.arch w component;
  match packages !! Component.normalized_name component with
  | Some package =>
      do (a, component) <- Component.arch w component;
      let '(i, package) := QtPackage.get_config package a (Component.build component) in
      do package <-
        QtPackage.update_config package i
          (λ config, PackageConfig.add_component config component);
      Ok (<[Component.normalized_name component := package]> packages)
  | None =>
      do package <- QtPackage.from_component w component "msvc2013";
      let package :=
        QtPackage.set_version package
          (if decide (qt_version = "latest") then QT_LATEST else qt_version) in
      Ok (<[QtPackage.name package := package]> packages)
  end.

(** [for qtpath in qtpaths: for component in find_components(...)] over the
    components of one tree. *)
Fixpoint ingest_all (w : World) (qt_version : string) (packages : gmap string QtPackage.t)
    (components : list Component.t) : result (gmap string QtPackage.t) :=
  match components with
  | [] => Ok packages
  | component :: components' =>
      do packages <- ingest w qt_version packages component;
      ingest_all w qt_version packages components'
  end.

(** ** The three phases of [main] *)

(** [for qtpath in qtpaths: for component in find_components(qtpath, tempdir)] *)
Fixpoint ingest_trees (w : World) (qt_version : string) (packages : gmap string QtPackage.t)
    (qtpaths : list string) (tempdir : string) : result (gmap string QtPackage.t) :=
  match qtpaths with
  | [] => Ok packages
  | qtpath :: qtpaths' =>
      do packages <-
        ingest_all w qt_version packages (find_components w qtpath tempdir);
      ingest_trees w qt_version packages qtpaths' tempdir
  end.

(** [for target, members in MERGE_PACKAGES.items()] *)
Fixpoint merge_all (packages : gmap string QtPackage.t)
    (table : list (string * list string)) : result (gmap string QtPackage.t) :=
  match table with
  | [] => Ok packages
  | (target, members) :: table' =>
      do packages <- merge_packages packages target members;
      merge_all packages table'
  end.

(** [main] from the unpacked trees to the registry that is printed and
    written out. *)
Definition main_packages (w : World) (qt_version : string) (qtpaths : list string)
    (tempdir : string) : result (gmap string QtPackage.t) :=
  do packages <- ingest_trees w qt_version ∅ qtpaths tempdir;
  do packages <- merge_all packages MERGE_PACKAGES;
  compute_dependencies w packages.

(** ** The helpers of [main] around the core *)

Definition QT_REPOSITORY_BASE : string := "http://download.qt.io/official_releases/qt/".

(** What [qt_version] is when [get_qt_download_url] slices and joins it:
    the list [QT_LATEST.split('.')] for ['latest'], else the string given,
    which Python slices and joins character by character. *)
Definition version_sequence (qt_version : string) : list string :=
  if decide (qt_version = "latest") then Py.split QT_LATEST "." else Py.items qt_version.

Definition get_qt_download_url (qt_version vs_version arch : string) : string :=
  let qt_version := version_sequence qt_version in
  let version_path :=
    Py.join "." (Py.slice_list qt_version 0 2) +:+ "/" +:+ Py.join "." qt_version +:+ "/" in
  let qt_package :=
    "qt-opensource-windows-x86-" +:+ vs_version +:+ arch +:+ "_opengl-"
    +:+ Py.join "." qt_version +:+ ".exe" in
  QT_REPOSITORY_BASE +:+ version_path +:+ qt_package.

(** [extract_qt_exe]: the directory it returns, computed before the
    installer is run; the exit status of the run is not read. *)
Definition extract_qt_exe (path file : string) : string :=
  let fullfile := ospath.join path file in
  Py.join "" (Py.slice_list (Py.split fullfile ".") 0 (-1)).

(** [find_essentials_7z]: the first file of the walk that fits, or Python's
    [None] when the loops end. *)
Definition essentials_in (dirpath : string) (filenames : list string) : option string :=
  (λ filename, ospath.join dirpath filename)
  <$> head (filter (λ filename,
                      Py.contains "essentials" filename = true
                      ∧ Py.endswith filename ".7z" = true) filenames).

Fixpoint find_essentials (entries : list (string * list string * list string))
    : option string :=
  match entries with
  | [] => None
  | (dirpath, dirnames, filenames) :: entries' =>
      match essentials_in dirpath filenames with
      | Some found => Some found
      | None => find_essentials entries'
      end
  end.

Definition find_essentials_7z (w : World) (inpath : string) : option string :=
  find_essentials (walk w inpath).

(** [write_nupkgs] over [listing], the names that [os.listdir(path)] gives:
    the commands it runs, each with the log file it writes. *)
Definition write_nupkgs (listing : list string) : list (string * string) :=
  flat_map
    (λ filename,
       if Py.endswith filename ".autopkg"
       then
         let filebase := (ospath.splitext filename).1 in
         let logfilename := filebase +:+ ".log" in
         [ ("powershell Write-NuGetPackage " +:+ filename, logfilename) ]
       else [])
    listing.

(** [copy_packages] over [listing], the names that [os.listdir(source)]
    gives: the copies it makes, each from its source to its destination. *)
Definition copy_packages (source destination : string) (listing : list string)
    : list (string * string) :=
  flat_map
    (λ filename,
       let extension := (ospath.splitext filename).2 in
       if bool_decide (extension ∈ [".autopkg"; ".log"; ".nupkg"])
       then [ (ospath.join source filename, ospath.join destination filename) ]
       else [])
    listing.

(** The descriptor file that [main] writes for a package. *)
Definition autopkgfile (tempdir : string) (package : QtPackage.t) : string :=
  ospath.join tempdir (QtPackage.id package +:+ ".autopkg").

(** * The vocabulary of the statements and the inputs of the examples *)

Definition is_upper (c : ascii) : bool :=
  ((65 <=? nat_of_ascii c) && (nat_of_ascii c <=? 90))%nat.

(** The character is not a dot. *)
Definition nondot (c : ascii) : bool := negb (Py.eqc c Py.ch_dot).

(** The last path component of [base] has a character other than a dot, so
    that a dot after it starts an extension. *)
Definition has_stem (base : string) : bool :=
  existsb nondot (Py.chars (ospath.basename base)).

(** [x] can follow the dot of an extension: no dot and no separator. *)
Definition plain_suffix (x : string) : bool :=
  forallb (λ c, nondot c && negb (Py.eqc c Py.ch_backslash) && negb (Py.eqc c Py.ch_slash))
          (Py.chars x).

(** [f] is a plain file name, as a directory listing gives it: no
    separator. *)
Definition plain_name (f : string) : bool :=
  forallb (λ c, negb (Py.eqc c Py.ch_backslash) && negb (Py.eqc c Py.ch_slash)) (Py.chars f).

(** The file name ends in one of the three suffixes that discovery keeps. *)
Definition recognised (filename : string) : bool :=
  Py.endswith filename ".dll" || Py.endswith filename ".pdb" || Py.endswith filename ".lib".

(** A Windows path from its parts. *)
Fixpoint win (parts : list string) : string :=
  match parts with
  | [] => ""
  | [part] => part
  | part :: parts' => part +:+ Py.backslash +:+ win parts'
  end.

(** A tree whose [bin] directory holds one executable, and no inspector. *)
Definition exe_world : World :=
  {| path_exists := λ _, false;
     check_output := λ _, None;
     walk := λ _, [ (win ["C:"; "Qt"; "bin"], [], ["qmake.exe"]) ] |}.

(** A tree with the lower-case spelling of an ignored library. *)
Definition designer_world : World :=
  {| path_exists := λ _, false;
     check_output := λ _, None;
     walk := λ _, [ (win ["C:"; "Qt"; "bin"], [], ["qt5designer.dll"]) ] |}.

(** The [/HEADERS] listing of a binary; [machine] is the line of the
    machine type. *)
Definition headers_listing (machine : string) : string :=
  "Dump of file" +:+ Py.CRLF +:+ Py.CRLF +:+ "FILE HEADER VALUES" +:+ Py.CRLF
  +:+ machine +:+ Py.CRLF +:+ "               6 number of sections" +:+ Py.CRLF.

Definition arm_core_dll : Component.t :=
  DLLComponent.init (win ["C:"; "Qt"; "bin"; "Qt5Core.dll"]) "T".

(** A tree whose [Qt5Core.dll] is built for ARM: the inspector answers, and
    its listing has neither an [8664] nor a [14C] machine line. *)
Definition arm_world : World :=
  {| path_exists := λ _, true;
     check_output := λ cmd,
       if decide (cmd = Component.headers_command (Component._abspath arm_core_dll))
       then Some (headers_listing "             1C4 machine (ARMNT)")
       else None;
     walk := λ _, [ (win ["C:"; "Qt"; "bin"], [], ["Qt5Core.dll"]) ] |}.

Definition gui_pdb : Component.t :=
  Component.init (win ["C:"; "Qt"; "bin"; "Qt5Guid.pdb"]) "T".

(** A tree where [Qt5Guid.pdb] has the import library beside it and no
    [.dll]. *)
Definition pdb_world : World :=
  {| path_exists := λ p, bool_decide (p = win ["C:"; "Qt"; "bin"; "Qt5Guid.lib"]);
     check_output := λ cmd,
       if decide (cmd = Component.headers_command (win ["C:"; "Qt"; "bin"; "Qt5Guid.lib"]))
       then Some (headers_listing "            8664 machine (x64)")
       else None;
     walk := λ _, [ (win ["C:"; "Qt"; "bin"], [], ["Qt5Guid.pdb"; "Qt5Guid.lib"]) ] |}.

(** The [/DEPENDENTS] listing of a debug binary of Qt5Gui. *)
Definition dependents_listing : string :=
  "Dump of file Qt5Guid.dll" +:+ Py.CRLF +:+ Py.CRLF
  +:+ "File Type: DLL" +:+ Py.CRLF +:+ Py.CRLF
  +:+ "  Image has the following dependencies:" +:+ Py.CRLF +:+ Py.CRLF
  +:+ "    Qt5Cored.dll" +:+ Py.CRLF
  +:+ "    KERNEL32.dll" +:+ Py.CRLF
  +:+ "    Qt5Guid.dll" +:+ Py.CRLF +:+ Py.CRLF
  +:+ "  Summary" +:+ Py.CRLF +:+ Py.CRLF
  +:+ "        1000 .data" +:+ Py.CRLF.

(** The buckets and the dependency set that a run leaves under a name. *)
Definition buckets_of (r : result (gmap string QtPackage.t)) (name : string)
    : option (list PackageConfig.t) :=
  match r with
  | Ok packages => QtPackage.configurations <$> packages !! name
  | Raise _ => None
  end.

Definition dependencies_of (r : result (gmap string QtPackage.t)) (name : string)
    : option (gset string) :=
  match r with
  | Ok packages => QtPackage.dependencies <$> packages !! name
  | Raise _ => None
  end.

(** Some bucket of the list holds a binary. *)
Definition has_binary (configs : list PackageConfig.t) : bool :=
  existsb (λ config, negb (bool_decide (PackageConfig.binaries config = []))) configs.

(** A static build of Qt: import and static libraries, no [.dll]. *)
Definition static_core_world : World :=
  {| path_exists := λ _, false;
     check_output := λ _, Some (headers_listing "            8664 machine (x64)");
     walk := λ _, [ (win ["C:"; "Qt"; "lib"], [], ["Qt5Core.lib"]) ] |}.

Definition static_world : World :=
  {| path_exists := λ _, false;
     check_output := λ _, Some (headers_listing "            8664 machine (x64)");
     walk := λ _,
       [ (win ["C:"; "Qt"; "lib"], [],
          [ "Qt5Core.lib"; "qtmain.lib"; "Qt5Bootstrap.lib"; "Qt5PlatformSupport.lib";
            "Qt5Multimedia.lib"; "Qt5MultimediaWidgets.lib";
            "Qt5OpenGL.lib"; "Qt5OpenGLExtensions.lib";
            "Qt5Xml.lib"; "Qt5XmlPatterns.lib";
            "Qt5Quick.lib"; "Qt5QuickWidgets.lib"; "Qt5QuickTest.lib";
            "Qt5MultimediaQuick_p.lib"; "Qt5QuickParticles.lib";
            "Qt5WebKit.lib"; "Qt5WebKitWidgets.lib"; "Qt5Gui.lib" ]) ] |}.

(** The artifacts of the bucket that [get_config] finds for the key, none
    when the package has no such bucket. *)
Definition bucket (arch : option string) (build : Component.flavor)
    (configs : list PackageConfig.t) : list Component.t :=
  match QtPackage.find_config arch build configs with
  | Some i => from_option PackageConfig.all [] (configs !! i)
  | None => []
  end.

Definition key (config : PackageConfig.t) : option string * Component.flavor :=
  (PackageConfig.arch config, PackageConfig.build config).

(** The buckets of a package are unique by (architecture, build). *)
Definition unique_keys (configs : list PackageConfig.t) : Prop := NoDup (key <$> configs).

(** All artifacts of a package, and of a registry. *)
Definition artifacts (package : QtPackage.t) : list Component.t :=
  QtPackage.configurations package ≫= PackageConfig.all.

Definition registry_artifacts (packages : gmap string QtPackage.t) : list Component.t :=
  map_to_list packages ≫= (λ entry, artifacts entry.2).

(** The kind of the component is one of the three. *)
Definition typed (c : Component.t) : Prop := ∃ k, Component.type c = Ok k.

(** The outcome of [get_config] followed by a change of the bucket it
    returned: the bucket [config] with the key was at position [i] and is
    replaced by [config'], or no bucket had the key and [config'], the
    change of a new empty bucket, is added at the end. *)
Inductive placed (a : option string) (b : Component.flavor)
    (configs : list PackageConfig.t) (config config' : PackageConfig.t)
    (configs' : list PackageConfig.t) (i : nat) : Prop :=
  | placed_found :
      QtPackage.find_config a b configs = Some i →
      configs !! i = Some config →
      configs' = <[i := config']> configs →
      placed a b configs config config' configs' i
  | placed_new :
      QtPackage.find_config a b configs = None →
      config = PackageConfig.init a b →
      i = length configs →
      configs' = configs ++ [config'] →
      placed a b configs config config' configs' i.

(** The artifacts that the package under [name] holds, all of them and
    those in its buckets with the key; none when the name is no key. *)
Definition member_artifacts (packages : gmap string QtPackage.t) (name : string)
    : list Component.t :=
  from_option artifacts [] (packages !! name).

Definition member_bucket (a : option string) (b : Component.flavor)
    (packages : gmap string QtPackage.t) (name : string) : list Component.t :=
  from_option
    (λ package,
       filter (λ c, (a, b) = key c) (QtPackage.configurations package) ≫= PackageConfig.all)
    [] (packages !! name).

(** Every artifact of the package under [name] has one of the three kinds. *)
Definition member_typed (packages : gmap string QtPackage.t) (name : string) : Prop :=
  ∃ package, packages !! name = Some package ∧ Forall typed (artifacts package).

(** The invariant of the registry: in every package the buckets are
    unique by key and every artifact has one of the three kinds. *)
Definition registry_wf (packages : gmap string QtPackage.t) : Prop :=
  ∀ name package,
    packages !! name = Some package →
    unique_keys (QtPackage.configurations package) ∧ Forall typed (artifacts package).

(** A package with one x64 release bucket that holds one static library. *)
Definition library_package (name filename : string) : QtPackage.t :=
  {| QtPackage.id := name +:+ "-msvc2013";
     QtPackage.name := name;
     QtPackage.version := QT_LATEST;
     QtPackage.configurations :=
       [ {| PackageConfig.arch := Some "x64";
            PackageConfig.build := Component.BUILD_RELEASE;
            PackageConfig.binaries := [];
            PackageConfig.symbols := [];
            PackageConfig.libraries :=
              [ Component.init (win ["C:"; "Qt"; "lib"; filename]) "T" ] |} ];
     QtPackage.dependencies := ∅ |}.

Definition core_registry : gmap string QtPackage.t :=
  <["qt5core" := library_package "qt5core" "Qt5Core.lib"]>
  (<["qtmain" := library_package "qtmain" "qtmain.lib"]>
  (<["qt5bootstrap" := library_package "qt5bootstrap" "Qt5Bootstrap.lib"]>
  (<["qt5platformsupport" := library_package "qt5platformsupport" "Qt5PlatformSupport.lib"]>
  (<["qt5gui" := library_package "qt5gui" "Qt5Gui.lib"]> ∅)))).

Definition core_lib : Component.t :=
  Component.init (win ["C:"; "Qt"; "lib"; "Qt5Core.lib"]) "T".

(** The registry after one ingestion of [Qt5Core.lib]. *)
Definition ingested_once : gmap string QtPackage.t :=
  match ingest static_core_world "latest" ∅ core_lib with
  | Ok packages => packages
  | Raise _ => ∅
  end.

(** A tree with two binaries; the inspector lists the imports of
    [dependents_listing] for every binary and reports x64. *)
Definition imports_world : World :=
  {| path_exists := λ _, false;
     check_output := λ cmd,
       if Py.contains "/DEPENDENTS" cmd then Some dependents_listing
       else Some (headers_listing "            8664 machine (x64)");
     walk := λ _, [ (win ["C:"; "Qt"; "bin"], [], ["Qt5Core.dll"; "Qt5Guid.dll"]) ] |}.

Definition gui_dll : Component.t :=
  DLLComponent.init (win ["C:"; "Qt"; "bin"; "Qt5Guid.dll"]) "T".

(** The set that a read of [dependencies] returns, empty when it raises. *)
Definition deps_read (w : World) (binary : Component.t) : gset string :=
  match DLLComponent.dependencies w binary with
  | Ok (d, _) => d
  | Raise _ => ∅
  end.

(** The binaries of all buckets. *)
Definition all_binaries (configs : list PackageConfig.t) : list Component.t :=
  configs ≫= PackageConfig.binaries.

(** The import list of the binary can be read: it is a [DLLComponent], and
    its list is remembered or the inspector answers for its path. *)
Definition readable (w : World) (binary : Component.t) : Prop :=
  Component.class_of binary = Component.DLLComponentClass
  ∧ (is_Some (Component._deps binary)
     ∨ is_Some (check_output w (DLLComponent.dependents_command (Component._abspath binary)))).

(** The same component but for the remembered import list. *)
Definition same_file (b b' : Component.t) : Prop :=
  Component.class_of b' = Component.class_of b
  ∧ Component._abspath b' = Component._abspath b
  ∧ Component._targetpath b' = Component._targetpath b
  ∧ Component._arch b' = Component._arch b.

(** The same bucket but for the remembered import lists of its binaries. *)
Definition same_bucket (config config' : PackageConfig.t) : Prop :=
  key config' = key config
  ∧ PackageConfig.symbols config' = PackageConfig.symbols config
  ∧ PackageConfig.libraries config' = PackageConfig.libraries config
  ∧ Forall2 same_file (PackageConfig.binaries config) (PackageConfig.binaries config').

(** The registry that ingestion builds from the tree of [imports_world],
    the package of [Qt5Guid.dll] in it, and the registry after the
    dependency pass. *)
Definition imports_registry : gmap string QtPackage.t :=
  match ingest_all imports_world "latest" ∅ (find_components imports_world "C:" "T") with
  | Ok packages => packages
  | Raise _ => ∅
  end.

Definition imports_gui : QtPackage.t :=
  default (QtPackage.init "" "") (imports_registry !! "qt5gui").

Definition imports_resolved : gmap string QtPackage.t :=
  match compute_dependencies imports_world imports_registry with
  | Ok packages => packages
  | Raise _ => ∅
  end.

(** The three lists of the bucket hold components of their kind. *)
Definition sorted_bucket (config : PackageConfig.t) : Prop :=
  Forall (λ c, Component.type c = Ok Component.TYPE_BINARY) (PackageConfig.binaries config)
  ∧ Forall (λ c, Component.type c = Ok Component.TYPE_SYMBOL) (PackageConfig.symbols config)
  ∧ Forall (λ c, Component.type c = Ok Component.TYPE_LIBRARY) (PackageConfig.libraries config).

(** The bucket is not empty, its lists are sorted by kind, and each of its
    artifacts has the logical name [name], the build flavor of the bucket,
    and remembers the architecture of the bucket. *)
Definition bucket_filed (name : string) (config : PackageConfig.t) : Prop :=
  PackageConfig.all config ≠ []
  ∧ sorted_bucket config
  ∧ Forall (λ c, Component.normalized_name c = name
                 ∧ Component.build c = PackageConfig.build config
                 ∧ Component._arch c = PackageConfig.arch config)
           (PackageConfig.all config).

(** What ingestion keeps of the registry: a package is under its own name,
    its identity is the name with the tag [-msvc2013], it has a bucket, and
    its buckets are filed. *)
Definition registry_filed (packages : gmap string QtPackage.t) : Prop :=
  ∀ name package,
    packages !! name = Some package →
    QtPackage.name package = name
    ∧ QtPackage.id package = name +:+ "-msvc2013"
    ∧ QtPackage.configurations package ≠ []
    ∧ Forall (bucket_filed name) (QtPackage.configurations package).

(** The names of a merge table: all of them, and the members alone. *)
Definition table_names (table : list (string * list string)) : list string :=
  table ≫= (λ entry, entry.1 :: entry.2).

Definition table_members (table : list (string * list string)) : list string :=
  table ≫= snd.

(** The registry that the ingestion of the static build leaves. *)
Definition static_registry : gmap string QtPackage.t :=
  match ingest_trees static_world "latest" ∅ ["C:"] "T" with
  | Ok packages => packages
  | Raise _ => ∅
  end.

(** What [main] keeps of every package: it is under its own name, a plain
    name, its identity is the name with the tag [-msvc2013], and its
    version is the one asked for. *)
Definition registry_stamped (qt_version : string) (packages : gmap string QtPackage.t)
    : Prop :=
  ∀ name package,
    packages !! name = Some package →
    plain_name name = true
    ∧ QtPackage.name package = name
    ∧ QtPackage.id package = name +:+ "-msvc2013"
    ∧ QtPackage.version package
      = if decide (qt_version = "latest") then QT_LATEST else qt_version.

(** The components that [main] ingests, in order: those of each tree. *)
Definition tree_components (w : World) (qtpaths : list string) (tempdir : string)
    : list Component.t :=
  qtpaths ≫= (λ qtpath, find_components w qtpath tempdir).

(** The paths of all artifacts of a registry. *)
Definition registry_paths (packages : gmap string QtPackage.t) : list string :=
  Component._abspath <$> registry_artifacts packages.

(** The registry that [main] builds from the static build. *)
Definition static_result : gmap string QtPackage.t :=
  match main_packages static_world "latest" ["C:"] "T" with
  | Ok packages => packages
  | Raise _ => ∅
  end.

(** The package of [Qt5Gui.lib] in it. *)
Definition static_gui : QtPackage.t :=
  match static_result !! "qt5gui" with
  | Some package => package
  | None => QtPackage.init "" ""
  end.

(** The test of [find_essentials_7z] on a file name. *)
Definition essentials_name (filename : string) : Prop :=
  Py.contains "essentials" filename = true ∧ Py.endswith filename ".7z" = true.

(** The characters with a dot between each two. *)
Fixpoint dotted (cs : list ascii) : list ascii :=
  match cs with
  | [] => []
  | c :: cs' =>
      match cs' with
      | [] => [c]
      | _ :: _ => c :: Py.ch_dot :: dotted cs'
      end
  end.

(** A line of the [/HEADERS] listing as the inspector prints the machine
    type: an indentation, the code, the word [machine] and the name of the
    architecture in parentheses. *)
Definition machine_line (indent code a : string) : string :=
  indent +:+ code +:+ " machine (" +:+ a +:+ ")".

(** The string has no white space, and it is white space only. *)
Definition solid (s : string) : Prop := Forall (λ c, Py.isspace c = false) (Py.chars s).
Definition blank (s : string) : Prop := Forall (λ c, Py.isspace c = true) (Py.chars s).

Definition ch_space : ascii := ascii_of_nat 32.

(** The registry after a merge of [qt5gui] into itself. *)
Definition self_merged : gmap string QtPackage.t :=
  match merge_packages core_registry "qt5gui" ["qt5gui"] with
  | Ok packages => packages
  | Raise _ => ∅
  end.

(** * The model on sample inputs *)

Example file_to_package_release : file_to_package "Qt5Gui.dll" = "qt5gui".
Proof. reflexivity. Qed.

Example file_to_package_debug : file_to_package "Qt5Guid.dll" = "qt5gui".
Proof. reflexivity. Qed.

Example file_to_package_dotfile : file_to_package ".dll" = ".dll".
Proof. reflexivity. Qed.

Example splitext_path :
  ospath.splitext (win ["C:"; "qt.5"; "Qt5Core.pdb"]) = (win ["C:"; "qt.5"; "Qt5Core"], ".pdb").
Proof. reflexivity. Qed.

Example splitext_dots : ospath.splitext "..dll" = ("..dll", "").
Proof. reflexivity. Qed.

Example basename_path : ospath.basename (win ["C:"; "Qt"; "bin"; "Qt5Core.dll"]) = "Qt5Core.dll".
Proof. reflexivity. Qed.

Example split_spaces : Py.split "a  b c" " " = ["a"; ""; "b"; "c"].
Proof. reflexivity. Qed.

Example slice_inner : Py.slice "(x64)" 1 (-1) = "x64" ∧ Py.slice "x" 1 (-1) = "".
Proof. split; reflexivity. Qed.

Example machine_of_x64 :
  Component.machine_of (Py.split (headers_listing "            8664 machine (x64)") Py.CRLF)
  = Some "x64".
Proof. reflexivity. Qed.

Example machine_of_x86 :
  Component.machine_of (Py.split (headers_listing "             14C machine (x86)") Py.CRLF)
  = Some "x86".
Proof. reflexivity. Qed.

Example dumpbin_to_deps_sample :
  DLLComponent._dumpbin_to_deps dependents_listing
  = ["qt5cored.dll"; "kernel32.dll"; "qt5guid.dll"].
Proof. reflexivity. Qed.

Example qt_deps_sample :
  DLLComponent.qt_deps (DLLComponent._dumpbin_to_deps dependents_listing)
  = {[ "qt5core"; "qt5gui" ]}.
Proof. vm_compute. reflexivity. Qed.

Example build_of_names :
  Component.build (Component.init (win ["C:"; "bin"; "Qt5Guid.dll"]) "T") = Component.BUILD_DEBUG
  ∧ Component.build (Component.init (win ["C:"; "bin"; "Qt5Gui.dll"]) "T")
    = Component.BUILD_RELEASE
  ∧ Component.build (Component.init (win ["C:"; "bin"; "Qt5Gui.pdb"]) "T")
    = Component.BUILD_DEBUG.
Proof. repeat split; reflexivity. Qed.

(** A target that is among its own members takes its own artifacts once
    more and is then deleted. *)
Example merge_target_among_members :
  buckets_of (merge_packages core_registry "qt5gui" ["qt5gui"]) "qt5gui" = None
  ∧ buckets_of (merge_packages core_registry "qt5gui" ["qt5gui"]) "qt5core"
    = buckets_of (Ok core_registry) "qt5core"
  ∧ merge_packages core_registry "qt5gui" ["qt5gui"; "qt5gui"] = Raise AssertionError.
Proof. repeat split; vm_compute; reflexivity. Qed.

(** * Facts about the string operations *)

Section PyFacts.
Import Py.

Lemma chars_text (l : list ascii) : chars (text l) = l.
Proof. apply String.list_ascii_of_string_of_list_ascii. Qed.

Lemma text_chars (s : string) : text (chars s) = s.
Proof. apply String.string_of_list_ascii_of_string. Qed.

Lemma chars_inj (s1 s2 : string) : chars s1 = chars s2 → s1 = s2.
Proof. intros H. rewrite <- (text_chars s1), <- (text_chars s2). by rewrite H. Qed.

Lemma chars_app (s1 s2 : string) : chars (s1 +:+ s2) = chars s1 ++ chars s2.
Proof. induction s1 as [|c s1 IH]; simpl; [done|]. by rewrite <- IH. Qed.

Lemma text_app (l1 l2 : list ascii) : text (l1 ++ l2) = text l1 +:+ text l2.
Proof. apply chars_inj. by rewrite chars_app, !chars_text. Qed.

Lemma eqc_true (a b : ascii) : eqc a b = true ↔ a = b.
Proof. apply Ascii.eqb_eq. Qed.

Lemma eqc_false (a b : ascii) : eqc a b = false ↔ a ≠ b.
Proof. apply Ascii.eqb_neq. Qed.

Lemma eqc_refl (a : ascii) : eqc a a = true.
Proof. by apply eqc_true. Qed.

(** [startswith], [endswith] and [in] are what their names say. *)
Lemma starts_spec (p s : list ascii) : starts p s = true ↔ ∃ post, s = p ++ post.
Proof.
  revert s. induction p as [|a p IH]; intros s; simpl.
  - split; [intros _; by exists s | done].
  - destruct s as [|b s].
    + split; [done | intros [post ?]; discriminate].
    + rewrite andb_true_iff, eqc_true, IH. split.
      * intros [-> [post ->]]. by exists post.
      * intros [post [= -> ->]]. eauto.
Qed.

Lemma starts_app (p post : list ascii) : starts p (p ++ post) = true.
Proof. apply starts_spec. eauto. Qed.

Lemma ends_spec (p s : list ascii) : ends p s = true ↔ ∃ pre, s = pre ++ p.
Proof.
  unfold ends. rewrite andb_true_iff, Nat.leb_le, starts_spec. split.
  - intros [Hle [post Hpost]].
    assert (post = []) as ->.
    { apply (f_equal length) in Hpost.
      rewrite length_drop, length_app in Hpost.
      destruct post; [done | simpl in Hpost; lia]. }
    rewrite app_nil_r in Hpost.
    exists (take (length s - length p) s).
    transitivity (take (length s - length p) s ++ drop (length s - length p) s).
    + by rewrite take_drop.
    + by rewrite Hpost.
  - intros [pre ->]. rewrite length_app. split; [lia|].
    exists []. rewrite app_nil_r.
    replace (length pre + length p - length p)%nat with (length pre) by lia.
    by rewrite drop_app_length.
Qed.

Lemma occurs_spec (p s : list ascii) :
  occurs p s = true ↔ ∃ pre post, s = pre ++ p ++ post.
Proof.
  induction s as [|c s IH]; simpl.
  - rewrite orb_false_r, starts_spec. split.
    + intros [post ->]. by exists [], post.
    + intros [pre [post H]]. destruct pre; [by exists post | discriminate].
  - rewrite orb_true_iff, starts_spec, IH. split.
    + intros [[post ->] | [pre [post ->]]].
      * by exists [], post.
      * by exists (c :: pre), post.
    + intros [[|c' pre] [post H]].
      * left. by exists post.
      * right. injection H as -> ->. eauto.
Qed.

Lemma lower_char_idemp (c : ascii) : lower_char (lower_char c) = lower_char c.
Proof. by destruct c as [[] [] [] [] [] [] [] []]. Qed.

Lemma lower_char_not_upper (c : ascii) : is_upper (lower_char c) = false.
Proof. by destruct c as [[] [] [] [] [] [] [] []]. Qed.

Lemma chars_lower (s : string) : chars (lower s) = lower_char <$> chars s.
Proof. unfold lower. by rewrite chars_text. Qed.

Lemma lower_idemp (s : string) : lower (lower s) = lower s.
Proof.
  apply chars_inj. rewrite !chars_lower, <- list_fmap_compose.
  apply list_fmap_ext. intros _ c _. apply lower_char_idemp.
Qed.

Lemma lower_app (s1 s2 : string) : lower (s1 +:+ s2) = lower s1 +:+ lower s2.
Proof. apply chars_inj. by rewrite chars_app, !chars_lower, chars_app, fmap_app. Qed.

End PyFacts.

Section PathFacts.
Import Py.
Local Open Scope Z_scope.

Lemma rfind_from_app (i : Z) (c : ascii) (l1 l2 : list ascii) (found : Z) :
  rfind_from i c (l1 ++ l2) found
  = rfind_from (i + Z.of_nat (length l1)) c l2 (rfind_from i c l1 found).
Proof.
  revert i found. induction l1 as [|x l1 IH]; intros i found; simpl.
  - f_equal. lia.
  - rewrite IH. f_equal. lia.
Qed.

Lemma rfind_from_absent (i : Z) (c : ascii) (l : list ascii) (found : Z) :
  c ∉ l → rfind_from i c l found = found.
Proof.
  revert i found. induction l as [|x l IH]; intros i found Hc; simpl; [done|].
  apply not_elem_of_cons in Hc as [Hx Hl].
  rewrite IH by done.
  assert (eqc x c = false) as -> by (apply eqc_false; congruence). done.
Qed.

Lemma rfind_from_range (i : Z) (c : ascii) (l : list ascii) (found : Z) :
  -1 ≤ found < i → -1 ≤ rfind_from i c l found < i + Z.of_nat (length l).
Proof.
  revert i found. induction l as [|x l IH]; intros i found H; simpl; [lia|].
  destruct (eqc x c).
  - specialize (IH (i + 1) i). lia.
  - specialize (IH (i + 1) found). lia.
Qed.

Lemma rfind_chars_range (c : ascii) (l : list ascii) :
  -1 ≤ rfind_chars c l < Z.of_nat (length l).
Proof. unfold rfind_chars. pose proof (rfind_from_range 0 c l (-1)). lia. Qed.

(** The last separator of [l ++ c :: x] is that of [l] when neither [c]
    nor [x] has the character. *)
Lemma rfind_chars_app_absent (c : ascii) (l x : list ascii) :
  c ∉ x → rfind_chars c (l ++ x) = rfind_chars c l.
Proof.
  intros Hc. unfold rfind_chars. rewrite rfind_from_app.
  by apply rfind_from_absent.
Qed.

Lemma rfind_chars_app_last (c : ascii) (l x : list ascii) :
  c ∉ x → rfind_chars c (l ++ c :: x) = Z.of_nat (length l).
Proof.
  intros Hc. unfold rfind_chars. rewrite rfind_from_app. simpl.
  rewrite eqc_refl. by rewrite rfind_from_absent.
Qed.

Lemma slice_bound_in (n : nat) (i : Z) :
  0 ≤ i ≤ Z.of_nat n → slice_bound n i = Z.to_nat i.
Proof.
  intros H. unfold slice_bound.
  destruct (Z.ltb_spec i 0); [lia|]. f_equal. lia.
Qed.

Lemma slice_bound_minus_one (n : nat) : slice_bound n (-1) = (n - 1)%nat.
Proof. unfold slice_bound. simpl. lia. Qed.

Lemma slice_list_prefix {A} (l1 l2 : list A) :
  slice_list (l1 ++ l2) 0 (Z.of_nat (length l1)) = l1.
Proof.
  unfold slice_list. rewrite !slice_bound_in by (rewrite length_app; lia).
  rewrite Nat2Z.id. change (Z.to_nat 0) with 0%nat.
  rewrite Nat.sub_0_r, drop_0. by rewrite take_app_length.
Qed.

Lemma slice_from_list_suffix {A} (l1 l2 : list A) :
  slice_from_list (l1 ++ l2) (Z.of_nat (length l1)) = l2.
Proof.
  unfold slice_from_list. rewrite slice_bound_in by (rewrite length_app; lia).
  rewrite Nat2Z.id. by rewrite drop_app_length.
Qed.

Lemma slice_list_drop_last {A} (l : list A) (x : A) :
  slice_list (l ++ [x]) 0 (-1) = l.
Proof.
  unfold slice_list. rewrite slice_bound_minus_one, slice_bound_in by lia.
  change (Z.to_nat 0) with 0%nat. rewrite drop_0, length_app. simpl.
  replace (length l + 1 - 1 - 0)%nat with (length l) by lia.
  by rewrite take_app_length.
Qed.

Lemma slice_list_fmap {A B} (f : A → B) (l : list A) (lo hi : Z) :
  slice_list (f <$> l) lo hi = f <$> slice_list l lo hi.
Proof. unfold slice_list. by rewrite length_fmap, fmap_take, fmap_drop. Qed.

End PathFacts.

Section SplitextFacts.
Import Py.
Local Open Scope Z_scope.

Lemma plain_suffix_absent (x : string) :
  plain_suffix x = true →
  (ch_dot ∉ chars x) ∧ (ch_backslash ∉ chars x) ∧ (ch_slash ∉ chars x).
Proof.
  unfold plain_suffix, nondot. rewrite forallb_forall.
  intros H. repeat split; intros Hin; apply list_elem_of_In in Hin;
    apply H in Hin; rewrite !andb_true_iff, !negb_true_iff in Hin;
    destruct Hin as [[H1 H2] H3];
    [ by rewrite eqc_refl in H1 | by rewrite eqc_refl in H2 | by rewrite eqc_refl in H3 ].
Qed.

Lemma sep_index_app (l x : list ascii) :
  ch_backslash ∉ x → ch_slash ∉ x →
  Z.max (rfind_chars ch_backslash (l ++ x)) (rfind_chars ch_slash (l ++ x))
  = Z.max (rfind_chars ch_backslash l) (rfind_chars ch_slash l).
Proof. intros H1 H2. by rewrite !rfind_chars_app_absent. Qed.

Lemma sep_index_range (l : list ascii) :
  -1 ≤ Z.max (rfind_chars ch_backslash l) (rfind_chars ch_slash l) < Z.of_nat (length l).
Proof.
  pose proof (rfind_chars_range ch_backslash l).
  pose proof (rfind_chars_range ch_slash l). lia.
Qed.

(** [splitext] cuts a name at the dot of its extension. *)
Lemma splitext_ext (base x : string) :
  plain_suffix x = true → has_stem base = true →
  ospath.splitext (base +:+ "." +:+ x) = (base, "." +:+ x).
Proof.
  intros Hx Hstem. apply plain_suffix_absent in Hx as (Hdot & Hbs & Hsl).
  unfold ospath.splitext, rfind, slice, slice_from.
  rewrite !chars_app. change (chars ".") with [ch_dot]. simpl app.
  rewrite rfind_chars_app_last by done.
  rewrite sep_index_app
    by (apply not_elem_of_cons; split; [by vm_compute | done]).
  pose proof (sep_index_range (chars base)) as Hk.
  set (k := Z.max _ _) in *.
  assert ((k <? Z.of_nat (length (chars base))) = true) as -> by (apply Z.ltb_lt; lia).
  assert (slice_list (chars base ++ ch_dot :: chars x) (k + 1)
            (Z.of_nat (length (chars base)))
          = chars (ospath.basename base)) as ->.
  { unfold ospath.basename, slice_from, slice_from_list, slice_list, rfind.
    fold k. rewrite chars_text.
    rewrite !slice_bound_in by (rewrite ?length_app; lia).
    rewrite Nat2Z.id, drop_app_le by lia.
    rewrite take_app_le by (rewrite length_drop; lia).
    apply take_ge. rewrite length_drop. lia. }
  unfold has_stem in Hstem. unfold nondot in Hstem. rewrite Hstem. simpl.
  rewrite slice_list_prefix, slice_from_list_suffix.
  rewrite text_chars. f_equal.
  apply chars_inj. by rewrite chars_text, chars_app.
Qed.

Lemma has_stem_app_char (base : string) (c : ascii) :
  nondot c = true → c ≠ ch_backslash → c ≠ ch_slash →
  has_stem (base +:+ String c "") = true.
Proof.
  intros Hc Hbs Hsl. unfold has_stem, ospath.basename, slice_from, rfind.
  rewrite chars_text, chars_app. simpl chars.
  rewrite sep_index_app
    by (apply not_elem_of_cons; split; [congruence | apply not_elem_of_nil]).
  pose proof (sep_index_range (chars base)) as Hk.
  set (k := Z.max _ _) in *.
  unfold slice_from_list. rewrite slice_bound_in by (rewrite length_app; simpl; lia).
  rewrite drop_app_le by lia.
  rewrite existsb_app. simpl. rewrite Hc. by rewrite orb_true_r.
Qed.

End SplitextFacts.

(** * [file_to_package] *)

Section LogicalName.
Import Py.
Local Open Scope Z_scope.

Lemma append_assoc (s1 s2 s3 : string) : (s1 +:+ s2) +:+ s3 = s1 +:+ s2 +:+ s3.
Proof. apply chars_inj. by rewrite !chars_app, app_assoc. Qed.

(** Every result of [file_to_package] is a lower-cased character list. *)
Lemma file_to_package_chars (filename : string) :
  ∃ l, chars (file_to_package filename) = lower_char <$> l.
Proof.
  unfold file_to_package.
  destruct (endswith _ _).
  - eexists. unfold slice. rewrite chars_text, chars_lower, slice_list_fmap. done.
  - eexists. apply chars_lower.
Qed.

Lemma endswith_app (s p : string) : endswith (s +:+ p) p = true.
Proof. unfold endswith. rewrite chars_app. apply ends_spec. eauto. Qed.

Lemma slice_drop_last (s : string) (c : ascii) : slice (s +:+ String c "") 0 (-1) = s.
Proof.
  unfold slice. rewrite chars_app. simpl chars.
  by rewrite slice_list_drop_last, text_chars.
Qed.

(** The name of a file with the marker before its extension. *)
Lemma file_to_package_marked (base x : string) :
  plain_suffix x = true →
  file_to_package (base +:+ DEBUG_SUFFIX +:+ "." +:+ x) = lower base.
Proof.
  intros Hx. unfold file_to_package.
  rewrite <- append_assoc, splitext_ext; [|done|by apply has_stem_app_char].
  simpl fst. rewrite lower_app, endswith_app.
  change (lower DEBUG_SUFFIX) with (String "d" "").
  apply slice_drop_last.
Qed.

(** The name of a file without the marker. *)
Lemma file_to_package_unmarked (base x : string) :
  plain_suffix x = true → has_stem base = true →
  endswith (lower base) DEBUG_SUFFIX = false →
  file_to_package (base +:+ "." +:+ x) = lower base.
Proof.
  intros Hx Hstem Hd. unfold file_to_package.
  rewrite splitext_ext by done. simpl fst. by rewrite Hd.
Qed.

End LogicalName.

(** C3, as stated, fails: the debug build of a module whose own name ends
    in the marker letter and its release build get different logical
    names. *)
Lemma file_to_package_marker_not_uniform :
  file_to_package ("Qt5Gamepad" +:+ DEBUG_SUFFIX +:+ ".dll") = "qt5gamepad"
  ∧ file_to_package ("Qt5Gamepad" +:+ ".dll") = "qt5gamepa"
  ∧ file_to_package ("Qt5Gamepad" +:+ DEBUG_SUFFIX +:+ ".dll")
    ≠ file_to_package ("Qt5Gamepad" +:+ ".dll").
Proof. repeat split. by vm_compute. Qed.

(** C3, amended: [file_to_package] is a function of the file name alone (it
    takes no [World]); its result has no upper-case letter and is its own
    lower-casing; and for every ASCII base name that has a character other
    than a dot in its last component and does not end in [d] or [D], and
    every extension, the file with the debug marker and the file without it
    both get the lower-cased base name.  (Outside ASCII the two can differ
    even then: [str.lower] lowers a capital sigma by its position, which
    the marker changes.) *)
Theorem file_to_package_logical_name :
  (∀ filename,
     Py.lower (file_to_package filename) = file_to_package filename
     ∧ Forall (λ c, is_upper c = false) (Py.chars (file_to_package filename)))
  ∧ (∀ base x,
       Py.isascii base = true →
       plain_suffix x = true → has_stem base = true →
       Py.endswith (Py.lower base) DEBUG_SUFFIX = false →
       file_to_package (base +:+ DEBUG_SUFFIX +:+ "." +:+ x)
       = file_to_package (base +:+ "." +:+ x)
       ∧ file_to_package (base +:+ "." +:+ x) = Py.lower base).
Proof.
  split.
  - intros filename. destruct (file_to_package_chars filename) as [l Hl]. split.
    + apply chars_inj. rewrite chars_lower, Hl, <- list_fmap_compose.
      apply list_fmap_ext. intros _ c _. apply lower_char_idemp.
    + rewrite Hl. apply Forall_fmap, Forall_forall. intros c _.
      apply lower_char_not_upper.
  - intros base x _ Hx Hstem Hd.
    rewrite file_to_package_marked, file_to_package_unmarked by done. done.
Qed.

Lemma file_to_package_logical_name_witness :
  file_to_package ("Qt5Gui" +:+ DEBUG_SUFFIX +:+ "." +:+ "dll")
  = file_to_package ("Qt5Gui" +:+ "." +:+ "dll")
  ∧ file_to_package ("Qt5Gui" +:+ "." +:+ "dll") = Py.lower "Qt5Gui".
Proof.
  apply (proj2 file_to_package_logical_name "Qt5Gui" "dll"); reflexivity.
Defined.

(** * Discovery: [find_components] *)

Section Discovery.
Import Py.

Lemma contains_spec (p s : string) :
  contains p s = true ↔ ∃ pre post, s = pre +:+ p +:+ post.
Proof.
  unfold contains. rewrite occurs_spec. split.
  - intros (pre & post & H). exists (text pre), (text post).
    apply chars_inj. by rewrite !chars_app, !chars_text.
  - intros (pre & post & ->). exists (chars pre), (chars post).
    by rewrite !chars_app.
Qed.

Lemma ignored_spec (filename : string) :
  ignored filename = true
  ↔ ∃ exclude pre post, exclude ∈ IGNORE_FILES ∧ filename = pre +:+ exclude +:+ post.
Proof.
  unfold ignored. rewrite existsb_exists. split.
  - intros (exclude & Hin & Hc). apply contains_spec in Hc as (pre & post & ->).
    exists exclude, pre, post. by rewrite list_elem_of_In.
  - intros (exclude & pre & post & Hin & ->). exists exclude.
    rewrite <- list_elem_of_In. split; [done|]. apply contains_spec. eauto.
Qed.

Lemma components_of_file_kept (targetpath dirpath filename : string) :
  ignored filename = false → recognised filename = true →
  ∃ c, components_of_file targetpath dirpath filename = [c]
       ∧ Component._abspath c = ospath.join dirpath filename
       ∧ Component._arch c = None.
Proof.
  unfold components_of_file, recognised. intros -> Hr.
  destruct (endswith filename ".dll"); [by eexists|].
  simpl in Hr. rewrite Hr. by eexists.
Qed.

Lemma components_of_file_unrecognised (targetpath dirpath filename : string) :
  recognised filename = false → components_of_file targetpath dirpath filename = [].
Proof.
  unfold components_of_file, recognised. intros Hr.
  destruct (ignored filename); [done|].
  destruct (endswith filename ".dll"); [done|]. simpl in Hr. by rewrite Hr.
Qed.

Lemma find_components_intro (w : World) (inpath targetpath dirpath : string)
    (dirnames filenames : list string) (filename : string) (c : Component.t) :
  (dirpath, dirnames, filenames) ∈ walk w inpath →
  endswith dirpath "bin" || endswith dirpath "lib" = true →
  filename ∈ filenames →
  c ∈ components_of_file targetpath dirpath filename →
  c ∈ find_components w inpath targetpath.
Proof.
  intros Hd Hbin Hf Hc. unfold find_components.
  apply list_elem_of_In, in_flat_map. eexists. split; [by apply list_elem_of_In|].
  simpl. rewrite Hbin. apply in_flat_map. exists filename.
  by rewrite <- !list_elem_of_In.
Qed.

Lemma find_components_inv (w : World) (inpath targetpath : string) (c : Component.t) :
  c ∈ find_components w inpath targetpath →
  ∃ dirpath dirnames filenames filename,
    (dirpath, dirnames, filenames) ∈ walk w inpath
    ∧ endswith dirpath "bin" || endswith dirpath "lib" = true
    ∧ filename ∈ filenames
    ∧ c ∈ components_of_file targetpath dirpath filename.
Proof.
  unfold find_components. rewrite list_elem_of_In, in_flat_map.
  intros ([[dirpath dirnames] filenames] & Hd & Hc). simpl in Hc.
  destruct (endswith dirpath "bin" || endswith dirpath "lib") eqn:Hbin; [|done].
  apply in_flat_map in Hc as (filename & Hf & Hc).
  exists dirpath, dirnames, filenames, filename.
  by rewrite !list_elem_of_In.
Qed.

End Discovery.

(** C10: the ignore-list test is a verbatim, case-sensitive substring test
    on the file name.  A name is ignored exactly when it is
    [pre ++ entry ++ post] for an entry of [IGNORE_FILES]; among the files
    whose suffix discovery keeps, exactly the ignored ones yield no
    component; a file that is kept is in the list that [find_components]
    hands to ingestion; and the lower-case and upper-case spellings of an
    ignored name are kept. *)
Theorem ignore_list_is_verbatim_substring :
  (∀ filename,
     ignored filename = true
     ↔ ∃ exclude pre post, exclude ∈ IGNORE_FILES ∧ filename = pre +:+ exclude +:+ post)
  ∧ (∀ targetpath dirpath filename,
       recognised filename = true →
       components_of_file targetpath dirpath filename = [] ↔ ignored filename = true)
  ∧ (∀ w inpath targetpath dirpath dirnames filenames filename,
       (dirpath, dirnames, filenames) ∈ walk w inpath →
       Py.endswith dirpath "bin" || Py.endswith dirpath "lib" = true →
       filename ∈ filenames →
       recognised filename = true → ignored filename = false →
       ∃ c, c ∈ find_components w inpath targetpath
            ∧ Component._abspath c = ospath.join dirpath filename)
  ∧ ignored "Qt5Designer.dll" = true
  ∧ ignored "qt5designer.dll" = false
  ∧ ignored "QT5DESIGNER.dll" = false
  ∧ components_of_file "T" "bin" "qt5designer.dll"
    = [DLLComponent.init (ospath.join "bin" "qt5designer.dll") "T"].
Proof.
  split; [exact ignored_spec|]. split; [|split].
  - intros targetpath dirpath filename Hr. split.
    + intros Hnil. destruct (ignored filename) eqn:Hi; [done|].
      destruct (components_of_file_kept targetpath dirpath filename Hi Hr) as (c & Hc & _).
      congruence.
    + intros Hi. unfold components_of_file. by rewrite Hi.
  - intros w inpath targetpath dirpath dirnames filenames filename Hd Hbin Hf Hr Hi.
    destruct (components_of_file_kept targetpath dirpath filename Hi Hr) as (c & Hc & Hp & _).
    exists c. split; [|done].
    eapply find_components_intro; try done. rewrite Hc. apply list_elem_of_here.
  - by vm_compute.
Qed.

Lemma ignore_list_is_verbatim_substring_witness :
  ∃ c, c ∈ find_components designer_world "C:" "T"
       ∧ Component._abspath c = ospath.join (win ["C:"; "Qt"; "bin"]) "qt5designer.dll".
Proof.
  apply (proj1 (proj2 (proj2 ignore_list_is_verbatim_substring))
           designer_world "C:" "T" (win ["C:"; "Qt"; "bin"]) [] ["qt5designer.dll"]).
  - apply list_elem_of_here.
  - reflexivity.
  - apply list_elem_of_here.
  - reflexivity.
  - reflexivity.
Defined.

(** C7, as stated, fails: an executable in a [bin] directory is passed
    over; discovery returns no component for it and ingestion of the
    result ends normally with an empty registry. *)
Lemma exe_is_skipped_silently :
  find_components exe_world "C:" "T" = []
  ∧ ingest_all exe_world "latest" ∅ (find_components exe_world "C:" "T") = Ok ∅.
Proof. split; reflexivity. Qed.

(** C7, amended: a file whose name does not end in [.dll], [.pdb] or [.lib]
    yields no component, so every component that discovery returns comes
    from a file with one of these suffixes that is not ignored; and the
    kind derivation [Component.type] raises [Unkown file type] for every
    component whose path extension is none of the three, an [.exe] path
    among them. *)
Theorem unrecognised_extension :
  (∀ targetpath dirpath filename,
     recognised filename = false → components_of_file targetpath dirpath filename = [])
  ∧ (∀ w inpath targetpath c,
       c ∈ find_components w inpath targetpath →
       ∃ dirpath dirnames filenames filename,
         (dirpath, dirnames, filenames) ∈ walk w inpath
         ∧ filename ∈ filenames
         ∧ recognised filename = true ∧ ignored filename = false
         ∧ Component._abspath c = ospath.join dirpath filename)
  ∧ (∀ c,
       Component.extension c ≠ ".dll" → Component.extension c ≠ ".pdb" →
       Component.extension c ≠ ".lib" →
       Component.type c = Raise (Exception "Unkown file type"))
  ∧ recognised "qmake.exe" = false
  ∧ Component.type (Component.init (win ["C:"; "Qt"; "bin"; "qmake.exe"]) "T")
    = Raise (Exception "Unkown file type").
Proof.
  split; [exact components_of_file_unrecognised|]. split; [|split].
  - intros w inpath targetpath c Hc.
    apply find_components_inv in Hc as (dirpath & dirnames & filenames & filename & Hd & _ & Hf & Hc).
    exists dirpath, dirnames, filenames, filename.
    destruct (recognised filename) eqn:Hr.
    + destruct (ignored filename) eqn:Hi.
      * unfold components_of_file in Hc. rewrite Hi in Hc. by apply elem_of_nil in Hc.
      * destruct (components_of_file_kept targetpath dirpath filename Hi Hr) as (c' & Hc' & Hp & _).
        rewrite Hc' in Hc. apply list_elem_of_singleton in Hc as ->. done.
    + rewrite components_of_file_unrecognised in Hc by done. by apply elem_of_nil in Hc.
  - intros c H1 H2 H3. unfold Component.type. by repeat case_decide.
  - split; reflexivity.
Qed.

Lemma unrecognised_extension_witness :
  Component.type (DLLComponent.init ".dll" "T") = Raise (Exception "Unkown file type").
Proof.
  apply (proj1 (proj2 (proj2 unrecognised_extension))); by vm_compute.
Defined.

(** * Architecture: [Component.arch] *)

Section Architecture.
Import Py.
Local Open Scope Z_scope.

Lemma splitext_join (p : string) : (ospath.splitext p).1 +:+ (ospath.splitext p).2 = p.
Proof.
  unfold ospath.splitext. destruct (_ && _); simpl.
  - unfold slice, slice_from, slice_list, slice_from_list.
    rewrite <- text_app, (slice_bound_in _ 0) by lia.
    change (Z.to_nat 0) with 0%nat.
    rewrite drop_0, Nat.sub_0_r, take_drop. apply text_chars.
  - apply chars_inj. by rewrite chars_app, app_nil_r.
Qed.

Lemma type_symbol_extension (c : Component.t) :
  Component.type c = Ok Component.TYPE_SYMBOL → Component.extension c = ".pdb".
Proof. unfold Component.type. by repeat case_decide. Qed.

End Architecture.

(** When the listing has no usable machine line the property returns
    [None]: no exception, and the memo field stays empty. *)
Lemma arch_none (w : World) (c : Component.t) (name out : string) :
  Component._arch c = None →
  Component.check_name w c = Ok name →
  check_output w (Component.headers_command name) = Some out →
  Component.machine_of (Py.split out Py.CRLF) = None →
  Component.arch w c = Ok (None, c).
Proof.
  intros Hmemo Hname Hout Hm.
  unfold Component.arch, Component.inspect_headers, run.
  rewrite Hmemo, Hname. cbn [bind]. rewrite Hout. cbn [bind]. by rewrite Hm.
Qed.

(** C8: the architecture of a symbol file comes from the inspector run on
    the file of the same base name with [.dll], when that file exists, else
    on the one with [.lib], when that exists, else the property raises.
    The inspector is run by the command line [dumpbin.exe], quoted, then
    [/HEADERS] and the sibling; the command for the [.dll] is not the
    command for the [.lib].  When the command answers, the listing decides
    the result; when it does not, the property raises.  The statement is
    for the first read of the property, when the memo field is still
    empty. *)
Theorem symbol_arch_from_sibling (w : World) (c : Component.t) :
  Component._arch c = None →
  Component.type c = Ok Component.TYPE_SYMBOL →
  let root := (ospath.splitext (Component._abspath c)).1 in
  let command := λ sibling : string,
    Py.quote
    +:+ "C:\Program Files (x86)\Microsoft Visual Studio 12.0\VC\bin\dumpbin.exe"
    +:+ Py.quote +:+ " /HEADERS " +:+ sibling in
  let inspected := λ sibling : string,
    match check_output w (command sibling) with
    | Some out =>
        Component.arch w c
        = match Component.machine_of (Py.split out Py.CRLF) with
          | Some a => Ok (Some a, Component.set_arch c a)
          | None => Ok (None, c)
          end
    | None => ∃ e, Component.arch w c = Raise e
    end in
  Component._abspath c = root +:+ ".pdb"
  ∧ command (root +:+ ".dll") ≠ command (root +:+ ".lib")
  ∧ (path_exists w (root +:+ ".dll") = true → inspected (root +:+ ".dll"))
  ∧ (path_exists w (root +:+ ".dll") = false →
     path_exists w (root +:+ ".lib") = true →
     inspected (root +:+ ".lib"))
  ∧ (path_exists w (root +:+ ".dll") = false →
     path_exists w (root +:+ ".lib") = false →
     Component.arch w c = Raise (Exception "Cant find binary for symbol")).
Proof.
  intros Hmemo Hty root command inspected.
  assert (∀ sibling,
            Component.check_name w c = Ok sibling → inspected sibling) as Hread.
  { intros sibling Hname. unfold inspected.
    unfold Component.arch, Component.inspect_headers, run.
    rewrite Hmemo, Hname. cbn [bind].
    change (Component.headers_command sibling) with (command sibling).
    destruct (check_output w (command sibling)) as [out|]; cbn [bind].
    - by destruct (Component.machine_of _).
    - by eexists. }
  split; [|split; [|split; [|split]]].
  - rewrite <- (splitext_join (Component._abspath c)) at 1.
    apply type_symbol_extension in Hty. unfold Component.extension in Hty.
    by rewrite Hty.
  - unfold command. intros Heq.
    do 5 apply (inj (String.app _)) in Heq. discriminate Heq.
  - intros H1. apply Hread. unfold Component.check_name.
    rewrite Hty. simpl. fold root. by rewrite H1.
  - intros H1 H2. apply Hread. unfold Component.check_name.
    rewrite Hty. simpl. fold root. by rewrite H1, H2.
  - intros H1 H2. unfold Component.arch, Component.check_name.
    rewrite Hmemo, Hty. simpl. fold root. by rewrite H1, H2.
Qed.

Lemma symbol_arch_from_sibling_witness :
  Component.arch pdb_world gui_pdb = Ok (Some "x64", Component.set_arch gui_pdb "x64").
Proof.
  pose proof (proj1 (proj2 (proj2 (proj2
                (symbol_arch_from_sibling pdb_world gui_pdb eq_refl eq_refl))))
                eq_refl eq_refl) as Hlib.
  vm_compute in Hlib. vm_compute. exact Hlib.
Defined.

(** C5: the code differs from the claim.  For a binary whose listing has no
    usable machine line the property [arch] returns [None] without an
    error, and ingestion files the binary in a bucket whose architecture is
    [None]. *)
Theorem arch_without_machine_line_is_none :
  Component.machine_of
    (Py.split (headers_listing "             1C4 machine (ARMNT)") Py.CRLF) = None
  ∧ Component.arch arm_world arm_core_dll = Ok (None, arm_core_dll)
  ∧ buckets_of
      (ingest_all arm_world "latest" ∅ (find_components arm_world "C:" "T")) "qt5core"
    = Some [ {| PackageConfig.arch := None;
                PackageConfig.build := Component.BUILD_RELEASE;
                PackageConfig.binaries := [arm_core_dll];
                PackageConfig.symbols := [];
                PackageConfig.libraries := [] |} ].
Proof. split; [|split]; vm_compute; reflexivity. Qed.

(** * Dependency resolution: [compute_dependencies] *)

Section Dependencies.
Context (w : World) (packagename : string).

Lemma scan_binaries_spec (binaries binaries' : list Component.t) (deps deps' : gset string) :
  scan_binaries w packagename deps binaries = Ok (deps', binaries') →
  (∀ x, x ≠ packagename → x ∈ deps → x ∈ deps')
  ∧ (packagename ∉ deps → packagename ∉ deps')
  ∧ (binaries ≠ [] → packagename ∉ deps')
  ∧ (binaries = [] → deps' = deps).
Proof.
  revert binaries' deps deps'.
  induction binaries as [|binary binaries IH]; intros binaries' deps deps'; simpl.
  - intros [= <- <-]. by repeat split.
  - destruct (DLLComponent.dependencies w binary) as [[d b]|e]; simpl; [|done].
    set (deps1 := if decide (packagename ∈ deps ∪ d) then _ else _).
    destruct (scan_binaries w packagename deps1 binaries) as [[deps2 bs2]|e] eqn:Hrest;
      simpl; [|done].
    intros [= <- <-].
    destruct (IH _ _ _ Hrest) as (Hmono & Hkeep & _ & _).
    assert (packagename ∉ deps1) as Hout.
    { unfold deps1. case_decide; set_solver. }
    repeat split.
    + intros x Hx Hin. apply Hmono; [done|]. unfold deps1. case_decide; set_solver.
    + intros _. by apply Hkeep.
    + intros _. by apply Hkeep.
    + done.
Qed.

Lemma scan_configurations_spec (configs configs' : list PackageConfig.t)
    (deps deps' : gset string) :
  scan_configurations w packagename deps configs = Ok (deps', configs') →
  (∀ x, x ≠ packagename → x ∈ deps → x ∈ deps')
  ∧ (packagename ∉ deps → packagename ∉ deps')
  ∧ (has_binary configs = true → packagename ∉ deps')
  ∧ (has_binary configs = false → deps' = deps).
Proof.
  revert configs' deps deps'.
  induction configs as [|config configs IH]; intros configs' deps deps'; simpl.
  - intros [= <- <-]. by repeat split.
  - destruct (scan_binaries w packagename deps (PackageConfig.binaries config))
      as [[deps1 bs]|e] eqn:Hbin; simpl; [|done].
    destruct (scan_configurations w packagename deps1 configs)
      as [[deps2 cs]|e] eqn:Hrest; simpl; [|done].
    intros [= <- <-].
    destruct (scan_binaries_spec _ _ _ _ Hbin) as (Hm1 & Hk1 & Hb1 & He1).
    destruct (IH _ _ _ Hrest) as (Hm2 & Hk2 & Hb2 & He2).
    repeat split.
    + intros x Hx Hin. by apply Hm2, Hm1.
    + intros Hout. by apply Hk2, Hk1.
    + rewrite orb_true_iff, negb_true_iff, bool_decide_eq_false.
      intros [Hne | Hex]; [by apply Hk2, Hb1 | by apply Hb2].
    + rewrite orb_false_iff, negb_false_iff, bool_decide_eq_true.
      intros [Hnil Hex]. by rewrite (He2 Hex), (He1 Hnil).
Qed.

(** The dependency set of one package: the fixed dependency is there
    unless it is the package's own name; the own name is there exactly
    when the package is named as the fixed dependency and has no
    binary. *)
Lemma package_dependencies_spec (package package' : QtPackage.t) :
  package_dependencies w packagename package = Ok package' →
  (packagename ≠ "qt5core" → "qt5core" ∈ QtPackage.dependencies package')
  ∧ (packagename ∈ QtPackage.dependencies package'
     ↔ packagename = "qt5core" ∧ has_binary (QtPackage.configurations package) = false).
Proof.
  unfold package_dependencies.
  destruct (scan_configurations w packagename _ _) as [[deps configs]|e] eqn:Hscan;
    simpl; [|done].
  intros [= <-]. simpl.
  destruct (scan_configurations_spec _ _ _ _ Hscan) as (Hmono & Hkeep & Hbin & Hnone).
  split.
  - intros Hne. apply Hmono; [done|]. set_solver.
  - split.
    + intros Hin.
      destruct (has_binary (QtPackage.configurations package)) eqn:Hb.
      * by destruct (Hbin eq_refl).
      * split; [|done]. rewrite (Hnone eq_refl) in Hin. set_solver.
    + intros [-> Hb]. rewrite (Hnone Hb). set_solver.
Qed.

End Dependencies.

(** What [compute_dependencies] leaves under each key. *)
Lemma compute_dependencies_lookup (w : World) (packages packages' : gmap string QtPackage.t)
    (packagename : string) (package' : QtPackage.t) :
  compute_dependencies w packages = Ok packages' →
  packages' !! packagename = Some package' →
  ∃ package,
    packages !! packagename = Some package
    ∧ package_dependencies w packagename package = Ok package'.
Proof.
  unfold compute_dependencies.
  set (f := λ (name : string) (package : QtPackage.t) acc, _).
  assert (∀ m acc0 r,
            map_fold f (Ok acc0) m = Ok r →
            ∀ name p', r !! name = Some p' →
              (∃ p, m !! name = Some p ∧ package_dependencies w name p = Ok p')
              ∨ (m !! name = None ∧ acc0 !! name = Some p')) as Hfold.
  { intros m acc0.
    apply (map_fold_weak_ind
             (λ res m, ∀ r, res = Ok r → ∀ name p', r !! name = Some p' →
                (∃ p, m !! name = Some p ∧ package_dependencies w name p = Ok p')
                ∨ (m !! name = None ∧ acc0 !! name = Some p'))).
    - intros r [= <-] name p' Hp'. right. by rewrite lookup_empty.
    - intros i x m' res Hi IH r Hr name p' Hp'. unfold f in Hr.
      destruct res as [acc|e]; simpl in Hr; [|done].
      destruct (package_dependencies w i x) as [px|e] eqn:Hpx; simpl in Hr; [|done].
      injection Hr as <-.
      destruct (decide (i = name)) as [->|Hne].
      + rewrite lookup_insert_eq in Hp'. injection Hp' as <-.
        left. exists x. by rewrite lookup_insert_eq.
      + rewrite lookup_insert_ne in Hp' by done. rewrite lookup_insert_ne by done.
        by apply (IH acc). }
  intros Hrun Hp'.
  destruct (Hfold packages packages packages' Hrun packagename package' Hp')
    as [?|[Hnone Hsome]]; [done | congruence].
Qed.

(** After the pass, every package other than [qt5core] holds [qt5core],
    and a package holds its own name exactly when it is [qt5core] and had
    no binary. *)
Lemma compute_dependencies_spec (w : World) (packages packages' : gmap string QtPackage.t)
    (packagename : string) (package' : QtPackage.t) :
  compute_dependencies w packages = Ok packages' →
  packages' !! packagename = Some package' →
  ∃ package,
    packages !! packagename = Some package
    ∧ (packagename ≠ "qt5core" → "qt5core" ∈ QtPackage.dependencies package')
    ∧ (packagename ∈ QtPackage.dependencies package'
       ↔ packagename = "qt5core" ∧ has_binary (QtPackage.configurations package) = false).
Proof.
  intros Hrun Hlook.
  destruct (compute_dependencies_lookup _ _ _ _ _ Hrun Hlook) as (package & Hp & Hone).
  exists package. split; [done|]. by eapply package_dependencies_spec.
Qed.

(** C1: the code differs from the claim.  The own name is taken out of the
    set inside the loop over the binaries, so for a package without
    binaries it is never taken out: the registry that ingestion builds from
    a tree holding only [Qt5Core.lib] comes out of the pass with [qt5core]
    depending on [qt5core]. *)
Theorem self_dependency_without_binaries :
  let packages :=
    ingest_all static_core_world "latest" ∅ (find_components static_core_world "C:" "T") in
  (has_binary <$> buckets_of packages "qt5core") = Some false
  ∧ dependencies_of (do packages <- packages; compute_dependencies static_core_world packages)
      "qt5core"
    = Some {[ "qt5core" ]}.
Proof. split; vm_compute; reflexivity. Qed.

(** C4: the code differs from the claim, by the defect of C1.  On a static
    build the whole of [main] (ingestion, the merge table, the dependency
    pass) ends with the base package [qt5core] holding the fixed base
    dependency, its own name; another package holds it, as claimed. *)
Theorem base_package_keeps_base_dependency :
  dependencies_of (main_packages static_world "latest" ["C:"] "T") "qt5core"
  = Some {[ "qt5core" ]}
  ∧ dependencies_of (main_packages static_world "latest" ["C:"] "T") "qt5gui"
    = Some {[ "qt5core" ]}.
Proof. split; vm_compute; reflexivity. Qed.

(** * Buckets: [get_config] and [add_component] *)

Section Buckets.

Lemma has_key_true (a : option string) (b : Component.flavor) (config : PackageConfig.t) :
  PackageConfig.has_key a b config = true ↔ key config = (a, b).
Proof.
  unfold PackageConfig.has_key, key.
  rewrite andb_true_iff, !bool_decide_eq_true. split.
  - by intros [-> ->].
  - by intros [= -> ->].
Qed.

Lemma has_key_key (a : option string) (b : Component.flavor) (c1 c2 : PackageConfig.t) :
  key c1 = key c2 → PackageConfig.has_key a b c1 = PackageConfig.has_key a b c2.
Proof. unfold PackageConfig.has_key, key. by intros [= -> ->]. Qed.

Lemma add_component_inv (config config' : PackageConfig.t) (c : Component.t) :
  PackageConfig.add_component config c = Ok config' →
  key config' = key config
  ∧ PackageConfig.all config' ≡ₚ PackageConfig.all config ++ [c]
  ∧ typed c.
Proof.
  unfold PackageConfig.add_component, typed.
  destruct (Component.type c) as [k|e]; simpl; [|done].
  destruct k; intros [= <-]; unfold key, PackageConfig.all; simpl;
    (split; [done|]); (split; [|by eexists]).
  - rewrite <- !(assoc_L (++)). apply Permutation_app_head.
    rewrite (assoc_L (++) (PackageConfig.symbols config)). apply Permutation_app_comm.
  - rewrite <- !(assoc_L (++)). do 2 apply Permutation_app_head.
    apply Permutation_app_comm.
  - by rewrite <- !(assoc_L (++)).
Qed.

Lemma add_component_typed (config : PackageConfig.t) (c : Component.t) :
  typed c → ∃ config', PackageConfig.add_component config c = Ok config'.
Proof.
  intros [k Hk]. unfold PackageConfig.add_component. rewrite Hk. simpl.
  destruct k; by eexists.
Qed.

Lemma add_components_inv (components : list Component.t) (config config' : PackageConfig.t) :
  add_components config components = Ok config' →
  key config' = key config
  ∧ PackageConfig.all config' ≡ₚ PackageConfig.all config ++ components.
Proof.
  revert config. induction components as [|c components IH]; intros config; simpl.
  - intros [= <-]. by rewrite app_nil_r.
  - destruct (PackageConfig.add_component config c) as [config1|e] eqn:Hadd; simpl; [|done].
    intros Hrest. apply add_component_inv in Hadd as (Hk1 & Hp1 & _).
    apply IH in Hrest as (Hk2 & Hp2). split; [congruence|].
    rewrite Hp2, Hp1. by rewrite <- (assoc_L (++)).
Qed.

Lemma add_components_typed (components : list Component.t) (config : PackageConfig.t) :
  Forall typed components → ∃ config', add_components config components = Ok config'.
Proof.
  revert config. induction components as [|c components IH]; intros config Hall; simpl.
  - by eexists.
  - apply Forall_cons in Hall as [Hc Hall].
    destruct (add_component_typed config c Hc) as [config1 ->]. simpl. by apply IH.
Qed.

(** [find_config] returns the first position whose bucket has the key. *)
Lemma find_config_Some (a : option string) (b : Component.flavor)
    (configs : list PackageConfig.t) (i : nat) :
  QtPackage.find_config a b configs = Some i →
  ∃ config, configs !! i = Some config ∧ key config = (a, b).
Proof.
  revert i. induction configs as [|config configs IH]; intros i; simpl; [done|].
  destruct (PackageConfig.has_key a b config) eqn:Hk.
  - intros [= <-]. exists config. split; [done|]. by apply has_key_true.
  - destruct (QtPackage.find_config a b configs) as [j|]; simpl; [|done].
    intros [= <-]. by apply IH.
Qed.

Lemma find_config_None (a : option string) (b : Component.flavor)
    (configs : list PackageConfig.t) :
  QtPackage.find_config a b configs = None ↔ (a, b) ∉ key <$> configs.
Proof.
  induction configs as [|config configs IH]; simpl.
  - split; [intros _; apply not_elem_of_nil | done].
  - rewrite not_elem_of_cons.
    destruct (PackageConfig.has_key a b config) eqn:Hk.
    + apply has_key_true in Hk. split; [done|]. intros [Hne _]. congruence.
    + assert (key config ≠ (a, b)) as Hne.
      { intros Heq. apply has_key_true in Heq. congruence. }
      destruct (QtPackage.find_config a b configs) as [j|]; simpl.
      * split; [done|]. intros [_ Hnot]. by apply IH in Hnot.
      * split; [|done]. intros _. split; [congruence|]. by apply IH.
Qed.

(** Only the keys matter to [find_config]. *)
Lemma find_config_keys (a : option string) (b : Component.flavor)
    (configs1 configs2 : list PackageConfig.t) :
  key <$> configs1 = key <$> configs2 →
  QtPackage.find_config a b configs1 = QtPackage.find_config a b configs2.
Proof.
  revert configs2. induction configs1 as [|c1 configs1 IH]; intros [|c2 configs2];
    simpl; try done.
  intros Heq.
  assert (key c1 = key c2) as Hk by congruence.
  assert (key <$> configs1 = key <$> configs2) as Hrest
    by (change (key c1 :: (key <$> configs1) = key c2 :: (key <$> configs2)) in Heq;
        congruence).
  rewrite (has_key_key a b c1 c2 Hk). by rewrite (IH configs2 Hrest).
Qed.

Lemma key_insert (configs : list PackageConfig.t) (i : nat) (config config' : PackageConfig.t) :
  configs !! i = Some config → key config' = key config →
  key <$> <[i := config']> configs = key <$> configs.
Proof.
  intros Hi Hk. rewrite list_fmap_insert, Hk.
  apply list_insert_id. by rewrite list_lookup_fmap, Hi.
Qed.

Lemma find_config_app (a : option string) (b : Component.flavor)
    (configs : list PackageConfig.t) (config : PackageConfig.t) :
  QtPackage.find_config a b (configs ++ [config])
  = match QtPackage.find_config a b configs with
    | Some i => Some i
    | None => if PackageConfig.has_key a b config then Some (length configs) else None
    end.
Proof.
  induction configs as [|c configs IH]; simpl.
  - by destruct (PackageConfig.has_key a b config).
  - destruct (PackageConfig.has_key a b c); [done|]. rewrite IH.
    destruct (QtPackage.find_config a b configs); [done|].
    by destruct (PackageConfig.has_key a b config).
Qed.

End Buckets.

Section Placement.

Lemma get_config_update (target target' : QtPackage.t) (a : option string)
    (b : Component.flavor) (f : PackageConfig.t → result PackageConfig.t) :
  (let '(i, target1) := QtPackage.get_config target a b in
   QtPackage.update_config target1 i f) = Ok target' →
  ∃ config config' i,
    f config = Ok config'
    ∧ key config = (a, b)
    ∧ placed a b (QtPackage.configurations target) config config'
        (QtPackage.configurations target') i
    ∧ target' = QtPackage.set_configurations target (QtPackage.configurations target').
Proof.
  unfold QtPackage.get_config.
  destruct (QtPackage.find_config a b (QtPackage.configurations target)) as [i|] eqn:Hfind.
  - destruct (find_config_Some _ _ _ _ Hfind) as (config & Hi & Hk).
    unfold QtPackage.update_config. rewrite Hi.
    destruct (f config) as [config'|e] eqn:Hf; simpl; [|done].
    intros [= <-]. exists config, config', i. simpl.
    repeat split; try done. by apply placed_found.
  - unfold QtPackage.update_config. simpl.
    rewrite lookup_app_r, Nat.sub_diag by done. simpl.
    destruct (f (PackageConfig.init a b)) as [config'|e] eqn:Hf; simpl; [|done].
    intros [= <-]. exists (PackageConfig.init a b), config', (length (QtPackage.configurations target)).
    simpl. repeat split; try done.
    apply placed_new; try done.
    rewrite insert_app_r_alt, Nat.sub_diag by done. done.
Qed.

Lemma get_config_update_ok (target : QtPackage.t) (a : option string)
    (b : Component.flavor) (f : PackageConfig.t → result PackageConfig.t) :
  (∀ config, ∃ config', f config = Ok config') →
  ∃ target',
    (let '(i, target1) := QtPackage.get_config target a b in
     QtPackage.update_config target1 i f) = Ok target'.
Proof.
  intros Hf. unfold QtPackage.get_config.
  destruct (QtPackage.find_config a b (QtPackage.configurations target)) as [i|] eqn:Hfind;
    unfold QtPackage.update_config.
  - destruct (find_config_Some _ _ _ _ Hfind) as (config & -> & _).
    destruct (Hf config) as [config' ->]. by eexists.
  - simpl. rewrite lookup_app_r, Nat.sub_diag by done. simpl.
    destruct (Hf (PackageConfig.init a b)) as [config' ->]. by eexists.
Qed.

Context (a : option string) (b : Component.flavor).
Context (configs configs' : list PackageConfig.t) (config config' : PackageConfig.t).
Context (i : nat) (extra : list Component.t).
Context (Hplaced : placed a b configs config config' configs' i).
Context (Hkey : key config = (a, b)) (Hkey' : key config' = key config).
Context (Hall : PackageConfig.all config' ≡ₚ PackageConfig.all config ++ extra).

Lemma placed_length : length configs ≤ length configs' ∧ configs' !! i = Some config'.
Proof.
  destruct Hplaced as [Hfind Hi ->|Hfind -> -> ->].
  - rewrite length_insert. split; [lia|].
    apply list_lookup_insert_eq. by apply lookup_lt_Some in Hi.
  - rewrite length_app. simpl. split; [lia|].
    by rewrite lookup_app_r, Nat.sub_diag.
Qed.

Lemma placed_find : QtPackage.find_config a b configs' = Some i.
Proof.
  destruct Hplaced as [Hfind Hi ->|Hfind -> -> ->].
  - rewrite (find_config_keys a b _ configs); [done|]. by eapply key_insert.
  - rewrite find_config_app, Hfind.
    assert (PackageConfig.has_key a b config' = true) as ->; [|done].
    apply has_key_true. by rewrite Hkey'.
Qed.

Lemma placed_artifacts :
  configs' ≫= PackageConfig.all ≡ₚ (configs ≫= PackageConfig.all) ++ extra.
Proof.
  destruct Hplaced as [Hfind Hi ->|Hfind -> -> ->].
  - rewrite <- (take_drop_middle configs i config Hi) at 2.
    rewrite insert_take_drop by (by apply lookup_lt_Some in Hi).
    rewrite !bind_app, !bind_cons, Hall.
    rewrite <- !(assoc_L (++)). do 2 apply Permutation_app_head.
    apply Permutation_app_comm.
  - rewrite bind_app. simpl. rewrite app_nil_r, Hall. done.
Qed.

Lemma placed_bucket (a1 : option string) (b1 : Component.flavor) :
  bucket a1 b1 configs'
  ≡ₚ bucket a1 b1 configs ++ (if decide ((a1, b1) = (a, b)) then extra else []).
Proof.
  unfold bucket. destruct Hplaced as [Hfind Hi ->|Hfind -> -> ->].
  - rewrite (find_config_keys a1 b1 _ configs) by (by eapply key_insert).
    case_decide as Heq.
    + injection Heq as -> ->. rewrite Hfind, Hi. simpl.
      rewrite list_lookup_insert_eq by (by apply lookup_lt_Some in Hi). done.
    + rewrite app_nil_r.
      destruct (QtPackage.find_config a1 b1 configs) as [j|] eqn:Hj; [|done].
      destruct (decide (j = i)) as [->|Hne].
      * apply find_config_Some in Hj as (c & Hc & Hkc). congruence.
      * by rewrite list_lookup_insert_ne.
  - rewrite find_config_app. case_decide as Heq.
    + injection Heq as -> ->. rewrite Hfind.
      assert (PackageConfig.has_key a b config' = true) as ->
        by (apply has_key_true; by rewrite Hkey').
      rewrite lookup_app_r, Nat.sub_diag by done. simpl. by rewrite Hall.
    + rewrite app_nil_r.
      destruct (QtPackage.find_config a1 b1 configs) as [j|] eqn:Hj.
      * destruct (find_config_Some _ _ _ _ Hj) as (c & Hc & _).
        by rewrite lookup_app_l by (by apply lookup_lt_Some in Hc).
      * assert (PackageConfig.has_key a1 b1 config' = false) as ->; [|done].
        apply not_true_iff_false. rewrite has_key_true. congruence.
Qed.

Lemma placed_unique : unique_keys configs → unique_keys configs'.
Proof.
  unfold unique_keys. destruct Hplaced as [Hfind Hi ->|Hfind -> -> ->].
  - by erewrite key_insert.
  - rewrite fmap_app. simpl. intros Hnd. apply NoDup_app. split; [done|]. split.
    + intros k Hk. rewrite list_elem_of_singleton. intros ->.
      apply find_config_None in Hfind. by rewrite Hkey', Hkey in Hk.
    + apply NoDup_singleton.
Qed.

End Placement.

(** * The merge: [merge_packages] *)

Section Transplant.

Lemma transplant_config_spec (target target' : QtPackage.t) (config : PackageConfig.t) :
  transplant_config target config = Ok target' →
  target' = QtPackage.set_configurations target (QtPackage.configurations target')
  ∧ artifacts target' ≡ₚ artifacts target ++ PackageConfig.all config
  ∧ (∀ a b,
       bucket a b (QtPackage.configurations target')
       ≡ₚ bucket a b (QtPackage.configurations target)
          ++ (if decide ((a, b) = key config) then PackageConfig.all config else []))
  ∧ (unique_keys (QtPackage.configurations target)
     → unique_keys (QtPackage.configurations target')).
Proof.
  unfold transplant_config. intros Hrun.
  apply get_config_update in Hrun as (c0 & c1 & i & Hadd & Hk & Hplaced & Heq).
  apply add_components_inv in Hadd as [Hk' Hall].
  split; [done|]. split; [|split].
  - by eapply placed_artifacts.
  - intros a b. by eapply placed_bucket.
  - by eapply placed_unique.
Qed.

Lemma transplant_config_ok (target : QtPackage.t) (config : PackageConfig.t) :
  Forall typed (PackageConfig.all config) →
  ∃ target', transplant_config target config = Ok target'.
Proof.
  intros Hall. unfold transplant_config. apply get_config_update_ok.
  intros c. by apply add_components_typed.
Qed.

Lemma transplant_spec (configs : list PackageConfig.t) (target target' : QtPackage.t) :
  transplant target configs = Ok target' →
  target' = QtPackage.set_configurations target (QtPackage.configurations target')
  ∧ artifacts target' ≡ₚ artifacts target ++ (configs ≫= PackageConfig.all)
  ∧ (∀ a b,
       bucket a b (QtPackage.configurations target')
       ≡ₚ bucket a b (QtPackage.configurations target)
          ++ (filter (λ c, (a, b) = key c) configs ≫= PackageConfig.all))
  ∧ (unique_keys (QtPackage.configurations target)
     → unique_keys (QtPackage.configurations target')).
Proof.
  revert target. induction configs as [|config configs IH]; intros target; simpl.
  - intros [= <-]. split; [by destruct target|].
    split; [by rewrite app_nil_r|]. split; [|done].
    intros a b. by rewrite app_nil_r.
  - destruct (transplant_config target config) as [target1|e] eqn:Hone; simpl; [|done].
    intros Hrest.
    apply transplant_config_spec in Hone as (Heq1 & Hart1 & Hb1 & Hu1).
    apply IH in Hrest as (Heq2 & Hart2 & Hb2 & Hu2).
    split; [|split; [|split]].
    + rewrite Heq2, Heq1. by destruct target.
    + rewrite Hart2, Hart1. by rewrite <- (assoc_L (++)).
    + intros a b. rewrite Hb2, Hb1, <- (assoc_L (++)).
      apply Permutation_app_head. rewrite filter_cons.
      case_decide; [by rewrite bind_cons | done].
    + auto.
Qed.

Lemma transplant_ok (configs : list PackageConfig.t) (target : QtPackage.t) :
  Forall typed (configs ≫= PackageConfig.all) →
  ∃ target', transplant target configs = Ok target'.
Proof.
  revert target. induction configs as [|config configs IH]; intros target Hall; simpl.
  - by eexists.
  - rewrite bind_cons in Hall. apply Forall_app in Hall as [Hc Hall].
    destruct (transplant_config_ok target config Hc) as [target1 ->]. simpl.
    by apply IH.
Qed.

(** With unique keys the buckets that have a key are the one bucket that
    [get_config] finds. *)
Lemma bucket_filter (a : option string) (b : Component.flavor)
    (configs : list PackageConfig.t) :
  unique_keys configs →
  filter (λ c, (a, b) = key c) configs ≫= PackageConfig.all = bucket a b configs.
Proof.
  unfold unique_keys, bucket.
  induction configs as [|config configs IH]; [done|].
  rewrite fmap_cons, NoDup_cons. intros [Hnotin Hnd]. simpl.
  rewrite filter_cons. case_decide as Heq.
  - assert (PackageConfig.has_key a b config = true) as ->
      by (by apply has_key_true).
    assert (filter (λ c, (a, b) = key c) configs = []) as ->.
    { apply elem_of_nil_inv. intros c [Hkc Hc]%list_elem_of_filter. apply Hnotin.
      rewrite <- Heq, Hkc. by apply list_elem_of_fmap_2. }
    simpl. by rewrite app_nil_r.
  - assert (PackageConfig.has_key a b config = false) as ->.
    { apply not_true_iff_false. rewrite has_key_true. congruence. }
    rewrite (IH Hnd).
    by destruct (QtPackage.find_config a b configs).
Qed.

End Transplant.

Section Merge.

Lemma registry_artifacts_insert (packages : gmap string QtPackage.t) (name : string)
    (package : QtPackage.t) :
  packages !! name = None →
  registry_artifacts (<[name := package]> packages)
  ≡ₚ artifacts package ++ registry_artifacts packages.
Proof.
  intros Hnone. unfold registry_artifacts.
  by rewrite map_to_list_insert, bind_cons.
Qed.

Lemma registry_artifacts_delete (packages : gmap string QtPackage.t) (name : string)
    (package : QtPackage.t) :
  packages !! name = Some package →
  registry_artifacts packages
  ≡ₚ artifacts package ++ registry_artifacts (delete name packages).
Proof.
  intros Hsome. unfold registry_artifacts.
  by rewrite <- (map_to_list_delete packages name package Hsome), bind_cons.
Qed.

(** One member: the target takes its artifacts, the member leaves the
    registry, and the artifacts of the registry are the same. *)
Lemma merge_step_artifacts (packages : gmap string QtPackage.t) (targetname packagename : string)
    (target target1 package : QtPackage.t) :
  packagename ≠ targetname →
  packages !! targetname = Some target →
  packages !! packagename = Some package →
  artifacts target1 ≡ₚ artifacts target ++ artifacts package →
  registry_artifacts (delete packagename (<[targetname := target1]> packages))
  ≡ₚ registry_artifacts packages.
Proof.
  intros Hne Ht Hp Hart.
  rewrite (registry_artifacts_delete packages packagename package Hp).
  rewrite (registry_artifacts_delete (delete packagename packages) targetname target)
    by (by rewrite lookup_delete_ne).
  rewrite delete_insert_ne by done.
  rewrite <- (insert_delete_eq (delete packagename packages)).
  rewrite registry_artifacts_insert by apply lookup_delete_eq.
  rewrite Hart, <- (assoc_L (++)).
  rewrite (assoc_L (++) (artifacts package)), (assoc_L (++) (artifacts target)).
  apply Permutation_app_tail, Permutation_app_comm.
Qed.

Lemma bind_ext_in {A B} (f g : A → list B) (l : list A) :
  (∀ x, x ∈ l → f x = g x) → l ≫= f = l ≫= g.
Proof.
  induction l as [|x l IH]; intros Hfg; [done|].
  rewrite !bind_cons, (Hfg x) by apply list_elem_of_here.
  rewrite IH; [done|]. intros y Hy. apply Hfg. by apply list_elem_of_further.
Qed.

Lemma merge_members_spec (targetname : string) (members : list string) :
  ∀ (packages : gmap string QtPackage.t) (target : QtPackage.t),
    packages !! targetname = Some target →
    targetname ∉ members → NoDup members →
    (∀ m, m ∈ members → member_typed packages m) →
    ∃ packages' target',
      merge_members packages targetname target members = Ok packages'
      ∧ packages' !! targetname = Some target'
      ∧ target' = QtPackage.set_configurations target (QtPackage.configurations target')
      ∧ (∀ m, m ∈ members → packages' !! m = None)
      ∧ (∀ k, k ≠ targetname → k ∉ members → packages' !! k = packages !! k)
      ∧ registry_artifacts packages' ≡ₚ registry_artifacts packages
      ∧ artifacts target' ≡ₚ artifacts target ++ (members ≫= member_artifacts packages)
      ∧ (∀ a b,
           bucket a b (QtPackage.configurations target')
           ≡ₚ bucket a b (QtPackage.configurations target)
              ++ (members ≫= member_bucket a b packages))
      ∧ (unique_keys (QtPackage.configurations target)
         → unique_keys (QtPackage.configurations target')).
Proof.
  induction members as [|m members IH]; intros packages target Ht Hnotin Hnd Htyped.
  - exists packages, target. simpl. split; [done|]. split; [done|].
    split; [by destruct target|]. split; [by intros m Hm%elem_of_nil|].
    split; [done|]. split; [done|]. split; [by rewrite app_nil_r|].
    split; [|done]. intros a b. by rewrite app_nil_r.
  - apply not_elem_of_cons in Hnotin as [Hne Hnotin].
    apply NoDup_cons in Hnd as [Hm Hnd].
    destruct (Htyped m (list_elem_of_here _ _)) as (package & Hp & Hty).
    simpl. rewrite Hp, decide_False by done.
    destruct (transplant_ok (QtPackage.configurations package) target Hty) as [target1 Hrun].
    rewrite Hrun. simpl.
    rewrite decide_True by (by rewrite Ht).
    apply transplant_spec in Hrun as (Heq1 & Hart1 & Hb1 & Hu1).
    set (packages1 := delete m (<[targetname := target1]> packages)).
    assert (∀ k, k ≠ targetname → k ≠ m → packages1 !! k = packages !! k) as Hother.
    { intros k Hk1 Hk2. unfold packages1.
      by rewrite lookup_delete_ne, lookup_insert_ne. }
    assert (∀ k, k ∈ members → packages1 !! k = packages !! k) as Hmem.
    { intros k Hk. apply Hother; intros ->; done. }
    destruct (IH packages1 target1) as (packages' & target' & Hrun' & Ht' & Heq' & Hgone
                                        & Hkeep & Hreg & Hart & Hb & Hu); try done.
    { unfold packages1. by rewrite lookup_delete_ne, lookup_insert_eq. }
    { intros k Hk. unfold member_typed. rewrite (Hmem k Hk).
      apply Htyped. by apply list_elem_of_further. }
    exists packages', target'. split; [done|]. split; [done|].
    split; [rewrite Heq', Heq1; by destruct target|].
    split; [|split; [|split; [|split; [|split]]]].
    + intros k [->|Hk]%elem_of_cons; [|by apply Hgone].
      rewrite Hkeep by done. apply lookup_delete_eq.
    + intros k Hk1 [Hk2 Hk3]%not_elem_of_cons.
      rewrite Hkeep by done. by apply Hother.
    + rewrite Hreg. by eapply merge_step_artifacts.
    + rewrite Hart, Hart1, <- (assoc_L (++)). apply Permutation_app_head.
      assert (member_artifacts packages m = artifacts package) as ->
        by (unfold member_artifacts; by rewrite Hp).
      apply Permutation_app_head.
      replace (members ≫= member_artifacts packages1)
        with (members ≫= member_artifacts packages); [done|].
      apply bind_ext_in. intros k Hk. unfold member_artifacts. by rewrite Hmem.
    + intros a b. rewrite Hb, Hb1, <- (assoc_L (++)). apply Permutation_app_head.
      assert (member_bucket a b packages m
              = filter (λ c, (a, b) = key c) (QtPackage.configurations package)
                ≫= PackageConfig.all) as ->
        by (unfold member_bucket; by rewrite Hp).
      apply Permutation_app_head.
      replace (members ≫= member_bucket a b packages1)
        with (members ≫= member_bucket a b packages); [done|].
      apply bind_ext_in. intros k Hk. unfold member_bucket. by rewrite Hmem.
    + auto.
Qed.

End Merge.

Lemma merge_table_distinct (target : string) (members : list string) :
  (target, members) ∈ MERGE_PACKAGES → NoDup (target :: members).
Proof.
  assert (Forall (λ entry, NoDup (entry.1 :: entry.2)) MERGE_PACKAGES) as Hall.
  { apply (bool_decide_unpack _). by vm_compute. }
  intros Hin. by apply (proj1 (Forall_forall _ _) Hall (target, members)).
Qed.

(** The merge of any target with members that are distinct from it and
    from each other. *)
Lemma merge_packages_spec (packages : gmap string QtPackage.t) (targetname : string)
    (members : list string) (target : QtPackage.t) :
  NoDup (targetname :: members) →
  packages !! targetname = Some target →
  (∀ m, m ∈ members → member_typed packages m) →
  ∃ packages' target',
    merge_packages packages targetname members = Ok packages'
    ∧ packages' !! targetname = Some target'
    ∧ target' = QtPackage.set_configurations target (QtPackage.configurations target')
    ∧ (∀ m, m ∈ members → packages' !! m = None)
    ∧ (∀ k, k ≠ targetname → k ∉ members → packages' !! k = packages !! k)
    ∧ registry_artifacts packages' ≡ₚ registry_artifacts packages
    ∧ artifacts target' ≡ₚ artifacts target ++ (members ≫= member_artifacts packages)
    ∧ (∀ a b,
         bucket a b (QtPackage.configurations target')
         ≡ₚ bucket a b (QtPackage.configurations target)
            ++ (members ≫= member_bucket a b packages))
    ∧ (unique_keys (QtPackage.configurations target)
       → unique_keys (QtPackage.configurations target')).
Proof.
  intros [Hnotin Hnd]%NoDup_cons Ht Htyped.
  unfold merge_packages. rewrite Ht. by apply merge_members_spec.
Qed.

(** C9: for every entry of the merge table whose target and members are in
    the registry (the artifacts of the members having one of the three
    kinds, as every ingested artifact has), the merge returns, the
    artifacts of the whole registry are the same multiset as before, the
    members are gone, and the target holds its own artifacts and those of
    the members. *)
Theorem merge_preserves_artifacts (packages : gmap string QtPackage.t)
    (targetname : string) (members : list string) (target : QtPackage.t) :
  (targetname, members) ∈ MERGE_PACKAGES →
  packages !! targetname = Some target →
  (∀ m, m ∈ members → member_typed packages m) →
  ∃ packages' target',
    merge_packages packages targetname members = Ok packages'
    ∧ registry_artifacts packages' ≡ₚ registry_artifacts packages
    ∧ (∀ m, m ∈ members → packages' !! m = None)
    ∧ packages' !! targetname = Some target'
    ∧ artifacts target' ≡ₚ artifacts target ++ (members ≫= member_artifacts packages)
    ∧ (∀ m package c,
         m ∈ members → packages !! m = Some package → c ∈ artifacts package →
         c ∈ artifacts target').
Proof.
  intros Hentry Ht Htyped. apply merge_table_distinct in Hentry.
  destruct (merge_packages_spec packages targetname members target Hentry Ht Htyped)
    as (packages' & target' & Hrun & Ht' & _ & Hgone & _ & Hreg & Hart & _).
  exists packages', target'. repeat split; try done.
  intros m package c Hm Hp Hc. rewrite Hart. apply elem_of_app. right.
  apply list_elem_of_bind. exists m. split; [|done].
  unfold member_artifacts. by rewrite Hp.
Qed.

Lemma core_registry_typed (m : string) :
  m ∈ ["qtmain"; "qt5bootstrap"; "qt5platformsupport"] → member_typed core_registry m.
Proof.
  intros Hm. repeat (apply elem_of_cons in Hm as [->|Hm]); [| | |by apply elem_of_nil in Hm];
    (eexists; split; [reflexivity|]); repeat constructor; by eexists.
Qed.

Lemma merge_preserves_artifacts_witness :
  ∃ packages' target',
    merge_packages core_registry "qt5core" ["qtmain"; "qt5bootstrap"; "qt5platformsupport"]
    = Ok packages'
    ∧ registry_artifacts packages' ≡ₚ registry_artifacts core_registry
    ∧ (∀ m, m ∈ ["qtmain"; "qt5bootstrap"; "qt5platformsupport"] → packages' !! m = None)
    ∧ packages' !! "qt5core" = Some target'
    ∧ artifacts target'
      ≡ₚ artifacts (library_package "qt5core" "Qt5Core.lib")
         ++ (["qtmain"; "qt5bootstrap"; "qt5platformsupport"] ≫= member_artifacts core_registry)
    ∧ (∀ m package c,
         m ∈ ["qtmain"; "qt5bootstrap"; "qt5platformsupport"] →
         core_registry !! m = Some package → c ∈ artifacts package →
         c ∈ artifacts target').
Proof.
  apply (merge_preserves_artifacts core_registry "qt5core"
           ["qtmain"; "qt5bootstrap"; "qt5platformsupport"]
           (library_package "qt5core" "Qt5Core.lib")).
  - apply list_elem_of_here.
  - reflexivity.
  - exact core_registry_typed.
Defined.

(** C2: when the registry holds [qt5core], [qtmain], [qt5bootstrap] and
    [qt5platformsupport] (the buckets of the three members unique by key,
    their artifacts of one of the three kinds), the merge returns, none of
    the three member names is a key afterwards, and for every
    (architecture, build) pair the bucket of [qt5core] holds the artifacts
    that the buckets of the four packages held for that pair. *)
Theorem merge_qt5core (packages : gmap string QtPackage.t)
    (core main bootstrap platform : QtPackage.t) :
  packages !! "qt5core" = Some core →
  packages !! "qtmain" = Some main →
  packages !! "qt5bootstrap" = Some bootstrap →
  packages !! "qt5platformsupport" = Some platform →
  Forall typed (artifacts main ++ artifacts bootstrap ++ artifacts platform) →
  unique_keys (QtPackage.configurations main) →
  unique_keys (QtPackage.configurations bootstrap) →
  unique_keys (QtPackage.configurations platform) →
  ∃ packages' core',
    merge_packages packages "qt5core" ["qtmain"; "qt5bootstrap"; "qt5platformsupport"]
    = Ok packages'
    ∧ packages' !! "qtmain" = None
    ∧ packages' !! "qt5bootstrap" = None
    ∧ packages' !! "qt5platformsupport" = None
    ∧ packages' !! "qt5core" = Some core'
    ∧ ∀ a b,
        bucket a b (QtPackage.configurations core')
        ≡ₚ bucket a b (QtPackage.configurations core)
           ++ bucket a b (QtPackage.configurations main)
           ++ bucket a b (QtPackage.configurations bootstrap)
           ++ bucket a b (QtPackage.configurations platform).
Proof.
  intros Hcore Hmain Hboot Hplat Htyped Hu1 Hu2 Hu3.
  apply Forall_app in Htyped as [Hty1 Htyped].
  apply Forall_app in Htyped as [Hty2 Hty3].
  destruct (merge_packages_spec packages "qt5core"
              ["qtmain"; "qt5bootstrap"; "qt5platformsupport"] core)
    as (packages' & core' & Hrun & Hcore' & _ & Hgone & _ & _ & _ & Hbucket & _).
  - apply (bool_decide_unpack _). by vm_compute.
  - done.
  - intros m Hm. unfold member_typed.
    repeat (apply elem_of_cons in Hm as [->|Hm]); [eauto..|by apply elem_of_nil in Hm].
  - exists packages', core'. split; [done|].
    split; [apply Hgone; set_solver|]. split; [apply Hgone; set_solver|].
    split; [apply Hgone; set_solver|]. split; [done|].
    intros a b. rewrite Hbucket. apply Permutation_app_head.
    simpl. unfold member_bucket. rewrite Hmain, Hboot, Hplat. simpl.
    by rewrite !bucket_filter, app_nil_r by done.
Qed.

Lemma merge_qt5core_witness :
  ∃ packages' core',
    merge_packages core_registry "qt5core" ["qtmain"; "qt5bootstrap"; "qt5platformsupport"]
    = Ok packages'
    ∧ packages' !! "qtmain" = None
    ∧ packages' !! "qt5bootstrap" = None
    ∧ packages' !! "qt5platformsupport" = None
    ∧ packages' !! "qt5core" = Some core'
    ∧ ∀ a b,
        bucket a b (QtPackage.configurations core')
        ≡ₚ bucket a b (QtPackage.configurations (library_package "qt5core" "Qt5Core.lib"))
           ++ bucket a b (QtPackage.configurations (library_package "qtmain" "qtmain.lib"))
           ++ bucket a b
                (QtPackage.configurations (library_package "qt5bootstrap" "Qt5Bootstrap.lib"))
           ++ bucket a b
                (QtPackage.configurations
                   (library_package "qt5platformsupport" "Qt5PlatformSupport.lib")).
Proof.
  apply (merge_qt5core core_registry); try reflexivity.
  - repeat constructor; by eexists.
  - apply NoDup_singleton.
  - apply NoDup_singleton.
  - apply NoDup_singleton.
Defined.

(** * Ingestion: the loop of [main] *)

Lemma Ok_inj {A} (x y : A) : Ok x = Ok y → x = y.
Proof. by intros [= ->]. Qed.

Section Ingestion.
Context (w : World).

(** What [type], [build] and [normalized_name] read of a component is its
    path. *)
Lemma same_path (c c1 : Component.t) :
  Component._abspath c1 = Component._abspath c →
  Component.type c1 = Component.type c
  ∧ Component.build c1 = Component.build c
  ∧ Component.normalized_name c1 = Component.normalized_name c.
Proof.
  intros Hp.
  unfold Component.type, Component.build, Component.normalized_name,
    Component.extension, Component.filename.
  by rewrite Hp.
Qed.

(** A second read of [arch] gives the value of the first and leaves the
    component as the first read left it. *)
Lemma arch_stable (c c1 : Component.t) (a : option string) :
  Component.arch w c = Ok (a, c1) →
  Component.arch w c1 = Ok (a, c1) ∧ Component._abspath c1 = Component._abspath c.
Proof.
  unfold Component.arch at 1.
  destruct (Component._arch c) as [s|] eqn:Hmemo.
  - intros [= <- <-]. unfold Component.arch. by rewrite Hmemo.
  - destruct (Component.check_name w c) as [name|e] eqn:Hname; simpl; [|done].
    unfold Component.inspect_headers.
    destruct (run w (Component.headers_command name)) as [out|e] eqn:Hout; simpl; [|done].
    destruct (Component.machine_of (Py.split out Py.CRLF)) as [s|] eqn:Hm.
    + intros [= <- <-]. done.
    + intros [= <- <-]. unfold Component.arch, Component.inspect_headers.
      rewrite Hmemo, Hname. simpl. rewrite Hout. simpl. by rewrite Hm.
Qed.

Lemma file_to_package_lower (filename : string) :
  Py.lower (file_to_package filename) = file_to_package filename.
Proof.
  destruct (file_to_package_chars filename) as [l Hl].
  apply chars_inj. rewrite chars_lower, Hl, <- list_fmap_compose.
  apply list_fmap_ext. intros _ c _. apply lower_char_idemp.
Qed.

(** One ingestion: the artifact is in the bucket of its key in the package
    of its name. *)
Lemma ingest_inv (qt_version : string) (packages packages1 : gmap string QtPackage.t)
    (c : Component.t) :
  ingest w qt_version packages c = Ok packages1 →
  ∃ a c1 package1 configs0 config config' i,
    Component.arch w c = Ok (a, c1)
    ∧ packages1 = <[Component.normalized_name c := package1]> packages
    ∧ configs0
      = from_option QtPackage.configurations [] (packages !! Component.normalized_name c)
    ∧ placed a (Component.build c) configs0 config config'
        (QtPackage.configurations package1) i
    ∧ key config = (a, Component.build c)
    ∧ PackageConfig.add_component config c1 = Ok config'.
Proof.
  unfold ingest.
  destruct (Component.type c) as [k|e] eqn:Hty; cbn [bind]; [|done].
  destruct (Component.arch w c) as [[a0 c1]|e] eqn:Harch; cbn [bind]; [|done].
  destruct (arch_stable _ _ _ Harch) as [Harch1 Hpath].
  destruct (same_path c c1 Hpath) as (Hty1 & Hbuild1 & Hname1).
  rewrite Hname1.
  destruct (packages !! Component.normalized_name c) as [package|] eqn:Hlook.
  - rewrite Harch1. cbn [bind]. rewrite Hbuild1, Hname1.
    destruct (QtPackage.get_config package a0 (Component.build c)) as [j package0] eqn:Hget.
    destruct (QtPackage.update_config package0 j _) as [package1|e] eqn:Hput;
      cbn [bind]; [|done].
    intros Hres%Ok_inj. subst packages1.
    assert ((let '(i, package0) := QtPackage.get_config package a0 (Component.build c) in
             QtPackage.update_config package0 i
               (λ config, PackageConfig.add_component config c1)) = Ok package1) as Hboth
      by (by rewrite Hget).
    apply get_config_update in Hboth as (config & config' & i & Hadd & Hk & Hplaced & _).
    by exists a0, c1, package1, (QtPackage.configurations package), config, config', i.
  - unfold QtPackage.from_component. rewrite Harch1. cbn [bind]. rewrite Hbuild1, Hname1.
    set (fresh := QtPackage.init _ _).
    destruct (QtPackage.get_config fresh a0 (Component.build c)) as [j package0] eqn:Hget.
    destruct (QtPackage.update_config package0 j _) as [package1|e] eqn:Hput;
      cbn [bind]; [|done].
    intros Hres%Ok_inj. subst packages1.
    assert ((let '(i, package0) := QtPackage.get_config fresh a0 (Component.build c) in
             QtPackage.update_config package0 i
               (λ config, PackageConfig.add_component config c1)) = Ok package1) as Hboth
      by (by rewrite Hget).
    apply get_config_update in Hboth as (config & config' & i & Hadd & Hk & Hplaced & Heq).
    cbn [QtPackage.name QtPackage.set_version].
    assert (QtPackage.name package1 = Component.normalized_name c) as ->.
    { rewrite Heq. unfold fresh.
      cbn [QtPackage.name QtPackage.set_configurations QtPackage.set_version QtPackage.init].
      apply file_to_package_lower. }
    eexists a0, c1, _, (QtPackage.configurations fresh), config, config', i.
    repeat split; try done.
Qed.

(** The ingestion of an artifact whose bucket is there already. *)
Lemma ingest_again (qt_version : string) (packages1 : gmap string QtPackage.t)
    (c c1 : Component.t) (a : option string) (package1 : QtPackage.t) (i : nat)
    (config1 : PackageConfig.t) :
  typed c →
  Component.arch w c = Ok (a, c1) →
  packages1 !! Component.normalized_name c = Some package1 →
  QtPackage.find_config a (Component.build c) (QtPackage.configurations package1) = Some i →
  QtPackage.configurations package1 !! i = Some config1 →
  ∃ config2,
    PackageConfig.add_component config1 c1 = Ok config2
    ∧ ingest w qt_version packages1 c
      = Ok (<[Component.normalized_name c :=
                QtPackage.set_configurations package1
                  (<[i := config2]> (QtPackage.configurations package1))]> packages1).
Proof.
  intros [k Hty] Harch Hlook Hfind Hi.
  destruct (arch_stable _ _ _ Harch) as [Harch1 Hpath].
  destruct (same_path c c1 Hpath) as (Hty1 & Hbuild1 & Hname1).
  destruct (add_component_typed config1 c1) as [config2 Hadd].
  { exists k. by rewrite Hty1. }
  exists config2. split; [done|].
  unfold ingest. rewrite Hty, Harch. cbn [bind]. rewrite Hname1, Hlook, Harch1.
  cbn [bind]. rewrite Hbuild1.
  unfold QtPackage.get_config. rewrite Hfind.
  unfold QtPackage.update_config. rewrite Hi, Hadd. cbn [bind]. by rewrite Hname1.
Qed.

End Ingestion.

(** C6: a second ingestion of an artifact that was ingested returns, and
    the registry has the same keys and as many packages as before; the
    package of the artifact has the same identity, name, version and
    dependency set, and as many buckets; its buckets are those of before
    but for the one of the artifact's key, which has got the artifact once
    more, in the list of its kind; every other package is the same. *)
Theorem ingest_twice (w : World) (qt_version1 qt_version2 : string)
    (packages packages1 : gmap string QtPackage.t) (c : Component.t) :
  ingest w qt_version1 packages c = Ok packages1 →
  ∃ packages2 package1 package2 i config1 config2 c1,
    ingest w qt_version2 packages1 c = Ok packages2
    ∧ dom packages2 = dom packages1
    ∧ size packages2 = size packages1
    ∧ packages1 !! Component.normalized_name c = Some package1
    ∧ packages2 !! Component.normalized_name c = Some package2
    ∧ (∀ name, name ≠ Component.normalized_name c → packages2 !! name = packages1 !! name)
    ∧ QtPackage.id package2 = QtPackage.id package1
    ∧ QtPackage.name package2 = QtPackage.name package1
    ∧ QtPackage.version package2 = QtPackage.version package1
    ∧ QtPackage.dependencies package2 = QtPackage.dependencies package1
    ∧ length (QtPackage.configurations package2) = length (QtPackage.configurations package1)
    ∧ QtPackage.configurations package1 !! i = Some config1
    ∧ QtPackage.configurations package2 = <[i := config2]> (QtPackage.configurations package1)
    ∧ key config2 = key config1
    ∧ Component._abspath c1 = Component._abspath c
    ∧ c1 ∈ PackageConfig.all config1
    ∧ PackageConfig.add_component config1 c1 = Ok config2
    ∧ PackageConfig.all config2 ≡ₚ PackageConfig.all config1 ++ [c1].
Proof.
  intros Hfirst.
  apply ingest_inv in Hfirst
    as (a & c1 & package1 & configs0 & config0 & config1 & i
        & Harch & -> & _ & Hplaced & Hk & Hadd).
  destruct (add_component_inv _ _ _ Hadd) as (Hk1 & Hall1 & [k Hty1]).
  destruct (arch_stable _ _ _ _ Harch) as [_ Hpath].
  destruct (same_path c c1 Hpath) as (Hty & _ & _).
  destruct (placed_length _ _ _ _ _ _ _ _ Hplaced Hk Hk1 Hall1) as [_ Hi].
  pose proof (placed_find _ _ _ _ _ _ _ _ Hplaced Hk Hk1 Hall1) as Hfind.
  set (name := Component.normalized_name c) in *.
  destruct (ingest_again w qt_version2 (<[name := package1]> packages) c c1 a package1 i config1)
    as (config2 & Hadd2 & Hsecond); try done.
  { exists k. by rewrite <- Hty. }
  { apply lookup_insert_eq. }
  destruct (add_component_inv _ _ _ Hadd2) as (Hk2 & Hall2 & _).
  eexists _, package1, _, i, config1, config2, c1.
  split; [exact Hsecond|].
  rewrite insert_insert_eq.
  split; [by rewrite !dom_insert_L|].
  split; [by rewrite <- !(size_dom (D := gset string)), !dom_insert_L|].
  split; [apply lookup_insert_eq|]. split; [apply lookup_insert_eq|].
  split; [intros k' Hk'; by rewrite !lookup_insert_ne|].
  split; [done|]. split; [done|]. split; [done|]. split; [done|].
  split; [apply length_insert|].
  split; [done|]. split; [done|]. split; [done|]. split; [done|].
  split; [|done].
  rewrite Hall1. apply elem_of_app. right. apply list_elem_of_here.
Qed.

Lemma ingest_twice_witness :
  ∃ packages2 package1 package2 i config1 config2 c1,
    ingest static_core_world "5.4.1" ingested_once core_lib = Ok packages2
    ∧ dom packages2 = dom ingested_once
    ∧ size packages2 = size ingested_once
    ∧ ingested_once !! Component.normalized_name core_lib = Some package1
    ∧ packages2 !! Component.normalized_name core_lib = Some package2
    ∧ (∀ name, name ≠ Component.normalized_name core_lib →
         packages2 !! name = ingested_once !! name)
    ∧ QtPackage.id package2 = QtPackage.id package1
    ∧ QtPackage.name package2 = QtPackage.name package1
    ∧ QtPackage.version package2 = QtPackage.version package1
    ∧ QtPackage.dependencies package2 = QtPackage.dependencies package1
    ∧ length (QtPackage.configurations package2) = length (QtPackage.configurations package1)
    ∧ QtPackage.configurations package1 !! i = Some config1
    ∧ QtPackage.configurations package2 = <[i := config2]> (QtPackage.configurations package1)
    ∧ key config2 = key config1
    ∧ Component._abspath c1 = Component._abspath core_lib
    ∧ c1 ∈ PackageConfig.all config1
    ∧ PackageConfig.add_component config1 c1 = Ok config2
    ∧ PackageConfig.all config2 ≡ₚ PackageConfig.all config1 ++ [c1].
Proof.
  apply (ingest_twice static_core_world "latest" "5.4.1" ∅ ingested_once core_lib).
  vm_compute. reflexivity.
Defined.

(** * The invariant of the registry

    Ingestion builds registries in which the buckets of a package are
    unique by key and every artifact has a kind, and the merge keeps them
    so: the hypotheses of the statements about the merge hold of every
    registry that [main] passes to it. *)

Section Invariant.

Lemma registry_wf_empty : registry_wf ∅.
Proof. intros name package Hlook. by rewrite lookup_empty in Hlook. Qed.

Lemma ingest_wf (w : World) (qt_version : string)
    (packages packages1 : gmap string QtPackage.t) (c : Component.t) :
  registry_wf packages →
  ingest w qt_version packages c = Ok packages1 →
  registry_wf packages1.
Proof.
  intros Hwf Hrun.
  apply ingest_inv in Hrun
    as (a & c1 & package1 & configs0 & config0 & config1 & i
        & Harch & -> & Hconfigs & Hplaced & Hk & Hadd).
  destruct (add_component_inv _ _ _ Hadd) as (Hk1 & Hall1 & Hty1).
  assert (unique_keys configs0 ∧ Forall typed (configs0 ≫= PackageConfig.all)) as [Hu Hty].
  { rewrite Hconfigs.
    destruct (packages !! Component.normalized_name c) as [package|] eqn:Hlook; simpl.
    - by apply (Hwf _ _ Hlook).
    - split; [apply NoDup_nil_2 | apply Forall_nil_2]. }
  intros name package Hlook.
  destruct (decide (name = Component.normalized_name c)) as [->|Hne].
  - rewrite lookup_insert_eq in Hlook. injection Hlook as <-. split.
    + by eapply placed_unique.
    + unfold artifacts.
      rewrite (placed_artifacts _ _ _ _ _ _ _ _ Hplaced Hk Hk1 Hall1).
      apply Forall_app. split; [done|]. by apply Forall_singleton.
  - rewrite lookup_insert_ne in Hlook by done. by apply (Hwf _ _ Hlook).
Qed.

Lemma ingest_all_wf (w : World) (qt_version : string) (components : list Component.t) :
  ∀ packages packages1,
    registry_wf packages →
    ingest_all w qt_version packages components = Ok packages1 →
    registry_wf packages1.
Proof.
  induction components as [|c components IH]; intros packages packages1 Hwf; simpl.
  - by intros ->%Ok_inj.
  - destruct (ingest w qt_version packages c) as [packages0|e] eqn:Hone; cbn [bind]; [|done].
    apply IH. by eapply ingest_wf.
Qed.

Lemma ingest_trees_wf (w : World) (qt_version tempdir : string) (qtpaths : list string) :
  ∀ packages packages1,
    registry_wf packages →
    ingest_trees w qt_version packages qtpaths tempdir = Ok packages1 →
    registry_wf packages1.
Proof.
  induction qtpaths as [|qtpath qtpaths IH]; intros packages packages1 Hwf; simpl.
  - by intros ->%Ok_inj.
  - destruct (ingest_all w qt_version packages _) as [packages0|e] eqn:Hone;
      cbn [bind]; [|done].
    apply IH. by eapply ingest_all_wf.
Qed.

Lemma registry_wf_member (packages : gmap string QtPackage.t) (name : string) :
  registry_wf packages → is_Some (packages !! name) → member_typed packages name.
Proof. intros Hwf [package Hlook]. exists package. split; [done|]. by apply (Hwf _ _ Hlook). Qed.

Lemma merge_packages_wf (packages packages' : gmap string QtPackage.t)
    (targetname : string) (members : list string) :
  NoDup (targetname :: members) →
  (∀ m, m ∈ members → is_Some (packages !! m)) →
  registry_wf packages →
  merge_packages packages targetname members = Ok packages' →
  registry_wf packages'.
Proof.
  intros Hnd Hin Hwf Hrun.
  destruct (packages !! targetname) as [target|] eqn:Ht;
    [|unfold merge_packages in Hrun; by rewrite Ht in Hrun].
  destruct (merge_packages_spec packages targetname members target Hnd Ht)
    as (packages2 & target' & Hrun2 & Ht' & _ & Hgone & Hkeep & _ & Hart & _ & Hu).
  { intros m Hm. apply registry_wf_member; auto. }
  rewrite Hrun in Hrun2. apply Ok_inj in Hrun2 as <-.
  intros name package Hlook.
  destruct (decide (name = targetname)) as [->|Hne].
  - rewrite Ht' in Hlook. injection Hlook as <-.
    destruct (Hwf _ _ Ht) as [Hu0 Hty0]. split; [by apply Hu|].
    rewrite Hart. apply Forall_app. split; [done|].
    apply Forall_forall. intros c (m & Hc & Hm)%list_elem_of_bind.
    unfold member_artifacts in Hc.
    destruct (packages !! m) as [p|] eqn:Hp; simpl in Hc; [|by apply elem_of_nil in Hc].
    destruct (Hwf _ _ Hp) as [_ Hty]. by apply (proj1 (Forall_forall _ _) Hty).
  - destruct (decide (name ∈ members)) as [Hm|Hm].
    + by rewrite (Hgone _ Hm) in Hlook.
    + rewrite (Hkeep _ Hne Hm) in Hlook. by apply (Hwf _ _ Hlook).
Qed.

End Invariant.

Example url_latest :
  get_qt_download_url "latest" "msvc2013" "_64"
  = "http://download.qt.io/official_releases/qt/5.4/5.4.1/qt-opensource-windows-x86-msvc2013_64_opengl-5.4.1.exe".
Proof. reflexivity. Qed.

Example url_explicit :
  get_qt_download_url "5.4.1" "msvc2013" ""
  = "http://download.qt.io/official_releases/qt/5../5...4...1/qt-opensource-windows-x86-msvc2013_opengl-5...4...1.exe".
Proof. reflexivity. Qed.

Example extract_path_sample :
  extract_qt_exe (win ["C:"; "tmp.x"]) "qt-5.4.1.exe" = win ["C:"; "tmpx"; "qt-541"].
Proof. reflexivity. Qed.

(** * More on [file_to_package] *)

Section NameFacts.
Import Py.
Local Open Scope Z_scope.

Lemma eqc_lower_dot (x : ascii) : eqc (lower_char x) ch_dot = eqc x ch_dot.
Proof. by destruct x as [[] [] [] [] [] [] [] []]. Qed.

Lemma eqc_lower_backslash (x : ascii) : eqc (lower_char x) ch_backslash = eqc x ch_backslash.
Proof. by destruct x as [[] [] [] [] [] [] [] []]. Qed.

Lemma eqc_lower_slash (x : ascii) : eqc (lower_char x) ch_slash = eqc x ch_slash.
Proof. by destruct x as [[] [] [] [] [] [] [] []]. Qed.

Lemma rfind_from_lower (c : ascii) (l : list ascii) (i found : Z) :
  (∀ x, eqc (lower_char x) c = eqc x c) →
  rfind_from i c (lower_char <$> l) found = rfind_from i c l found.
Proof.
  intros Hc. revert i found. induction l as [|x l IH]; intros i found; [done|].
  rewrite fmap_cons. simpl. by rewrite Hc, IH.
Qed.

Lemma rfind_lower (c : ascii) (p : string) :
  (∀ x, eqc (lower_char x) c = eqc x c) → rfind (lower p) c = rfind p c.
Proof.
  intros Hc. unfold rfind, rfind_chars. rewrite chars_lower. by apply rfind_from_lower.
Qed.

Lemma slice_lower (p : string) (lo hi : Z) : slice (lower p) lo hi = lower (slice p lo hi).
Proof.
  unfold slice. apply chars_inj.
  by rewrite !chars_lower, !chars_text, slice_list_fmap.
Qed.

Lemma slice_from_lower (p : string) (lo : Z) : slice_from (lower p) lo = lower (slice_from p lo).
Proof.
  unfold slice_from, slice_from_list. apply chars_inj.
  by rewrite !chars_lower, !chars_text, length_fmap, fmap_drop.
Qed.

(** Lower-casing a path moves no dot and no separator, so [splitext] cuts
    it at the same place. *)
Lemma splitext_lower (p : string) :
  ospath.splitext (lower p) = (lower (ospath.splitext p).1, lower (ospath.splitext p).2).
Proof.
  unfold ospath.splitext.
  rewrite (rfind_lower ch_backslash) by apply eqc_lower_backslash.
  rewrite (rfind_lower ch_slash) by apply eqc_lower_slash.
  rewrite (rfind_lower ch_dot) by apply eqc_lower_dot.
  rewrite chars_lower, slice_list_fmap.
  assert (∀ l, existsb (λ c, negb (eqc c ch_dot)) (lower_char <$> l)
               = existsb (λ c, negb (eqc c ch_dot)) l) as ->.
  { induction l as [|x l IH]; [done|]. rewrite fmap_cons. simpl.
    by rewrite eqc_lower_dot, IH. }
  destruct (_ && _); simpl.
  - by rewrite slice_lower, slice_from_lower.
  - done.
Qed.

Lemma file_to_package_of_lower (filename : string) :
  file_to_package (lower filename) = file_to_package filename.
Proof.
  unfold file_to_package. rewrite splitext_lower. simpl. by rewrite lower_idemp.
Qed.

End NameFacts.

(** X1: [file_to_package] does not see the case of the letters: two ASCII
    file names that differ only in case get the same logical name, so the
    name of an import as the inspector spells it and the name of the file
    on disk agree. *)
Theorem file_to_package_case_insensitive (filename1 filename2 : string) :
  Py.isascii filename1 = true → Py.isascii filename2 = true →
  Py.lower filename1 = Py.lower filename2 →
  file_to_package filename1 = file_to_package filename2.
Proof.
  intros _ _ Heq.
  rewrite <- (file_to_package_of_lower filename1), <- (file_to_package_of_lower filename2).
  by rewrite Heq.
Qed.

Lemma file_to_package_case_insensitive_witness :
  file_to_package "QT5CORE.DLL" = file_to_package "Qt5Core.dll".
Proof. apply file_to_package_case_insensitive; reflexivity. Defined.

(** X2: the extension does not enter the logical name: for a base name
    with a character other than a dot in its last component, the files of
    any two extensions get the same name, so the [.dll], the [.lib] and the
    [.pdb] of a module are filed in one package. *)
Theorem file_to_package_ignores_extension (base x1 x2 : string) :
  has_stem base = true → plain_suffix x1 = true → plain_suffix x2 = true →
  file_to_package (base +:+ "." +:+ x1) = file_to_package (base +:+ "." +:+ x2).
Proof.
  intros Hstem H1 H2. unfold file_to_package. by rewrite !splitext_ext.
Qed.

Lemma file_to_package_ignores_extension_witness :
  file_to_package ("Qt5Guid" +:+ "." +:+ "dll") = file_to_package ("Qt5Guid" +:+ "." +:+ "pdb").
Proof. apply file_to_package_ignores_extension; reflexivity. Defined.

(** * The paths of discovered files *)

Section WalkedPaths.
Import Py.
Local Open Scope Z_scope.

Lemma plain_name_absent (f : string) :
  plain_name f = true → (ch_backslash ∉ chars f) ∧ (ch_slash ∉ chars f).
Proof.
  unfold plain_name. rewrite forallb_forall. intros H.
  split; intros Hin; apply list_elem_of_In, H in Hin;
    rewrite andb_true_iff, !negb_true_iff in Hin; destruct Hin as [H1 H2];
    [by rewrite eqc_refl in H1 | by rewrite eqc_refl in H2].
Qed.

Lemma plain_name_app (f g : string) :
  plain_name (f +:+ g) = plain_name f && plain_name g.
Proof. unfold plain_name. by rewrite chars_app, forallb_app. Qed.

Lemma plain_suffix_plain_name (x : string) : plain_suffix x = true → plain_name x = true.
Proof.
  unfold plain_suffix, plain_name. rewrite !forallb_forall. intros H c Hc.
  specialize (H c Hc). rewrite !andb_true_iff in H. rewrite andb_true_iff. tauto.
Qed.

(** The last separator of [dirpath\f] is the one that [join] put in. *)
Lemma sep_index_join (dirpath f : string) :
  plain_name f = true →
  Z.max (rfind (ospath.join dirpath f) ch_backslash) (rfind (ospath.join dirpath f) ch_slash)
  = Z.of_nat (length (chars dirpath)).
Proof.
  intros [Hbs Hsl]%plain_name_absent. unfold ospath.join, rfind.
  rewrite !chars_app. change (chars backslash) with [ch_backslash]. simpl app.
  rewrite rfind_chars_app_last by done.
  rewrite rfind_chars_app_absent
    by (apply not_elem_of_cons; split; [by vm_compute | done]).
  pose proof (rfind_chars_range ch_slash (chars dirpath)). lia.
Qed.

Lemma basename_join (dirpath f : string) :
  plain_name f = true → ospath.basename (ospath.join dirpath f) = f.
Proof.
  intros Hf. unfold ospath.basename. rewrite sep_index_join by done.
  unfold slice_from, slice_from_list, ospath.join.
  rewrite !chars_app. change (chars backslash) with [ch_backslash].
  rewrite slice_bound_in by (rewrite !length_app; simpl; lia).
  replace (Z.to_nat (Z.of_nat (length (chars dirpath)) + 1))
    with (length (chars dirpath ++ [ch_backslash]))
    by (rewrite length_app; simpl; lia).
  rewrite (assoc_L (++)), drop_app_length. apply text_chars.
Qed.

Lemma has_stem_plain (f : string) :
  plain_name f = true → has_stem f = existsb nondot (chars f).
Proof.
  intros [Hbs Hsl]%plain_name_absent. unfold has_stem, ospath.basename, rfind.
  unfold rfind_chars. rewrite !rfind_from_absent by done.
  unfold slice_from, slice_from_list.
  rewrite slice_bound_in by lia. change (Z.to_nat (Z.max (-1) (-1) + 1)) with 0%nat.
  by rewrite drop_0, chars_text.
Qed.

End WalkedPaths.

Section ComponentPaths.
Import Py.
Local Open Scope Z_scope.

Lemma has_stem_join (dirpath b : string) :
  plain_name b = true → has_stem (ospath.join dirpath b) = has_stem b.
Proof.
  intros Hb. unfold has_stem at 1. rewrite basename_join by done.
  by rewrite has_stem_plain.
Qed.

Lemma join_app (dirpath f g : string) :
  ospath.join dirpath (f +:+ g) = ospath.join dirpath f +:+ g.
Proof. unfold ospath.join. by rewrite !append_assoc. Qed.

(** Without a character other than a dot before it, a dot starts no
    extension. *)
Lemma splitext_no_stem (base x : string) :
  plain_suffix x = true → has_stem base = false →
  ospath.splitext (base +:+ "." +:+ x) = (base +:+ "." +:+ x, "").
Proof.
  intros Hx Hstem. apply plain_suffix_absent in Hx as (Hdot & Hbs & Hsl).
  unfold ospath.splitext, rfind.
  rewrite !chars_app. change (chars ".") with [ch_dot]. simpl app.
  rewrite rfind_chars_app_last by done.
  rewrite sep_index_app
    by (apply not_elem_of_cons; split; [by vm_compute | done]).
  pose proof (sep_index_range (chars base)) as Hk.
  set (k := Z.max _ _) in *.
  assert (slice_list (chars base ++ ch_dot :: chars x) (k + 1)
            (Z.of_nat (length (chars base)))
          = chars (ospath.basename base)) as ->.
  { unfold ospath.basename, slice_from, slice_from_list, slice_list, rfind.
    fold k. rewrite chars_text.
    rewrite !slice_bound_in by (rewrite ?length_app; lia).
    rewrite Nat2Z.id, drop_app_le by lia.
    rewrite take_app_le by (rewrite length_drop; lia).
    apply take_ge. rewrite length_drop. lia. }
  unfold has_stem, nondot in Hstem. rewrite Hstem. by rewrite andb_false_r.
Qed.

Context (dirpath b x : string).
Context (Hb : plain_name b = true) (Hx : plain_suffix x = true).

Lemma walked_extension (c : Component.t) :
  Component._abspath c = ospath.join dirpath (b +:+ "." +:+ x) →
  Component.extension c = if has_stem b then "." +:+ x else "".
Proof.
  intros Hp. unfold Component.extension. rewrite Hp, join_app.
  destruct (has_stem b) eqn:Hstem.
  - rewrite splitext_ext; [done|done|]. by rewrite has_stem_join.
  - rewrite splitext_no_stem; [done|done|]. by rewrite has_stem_join.
Qed.

Lemma walked_filename (c : Component.t) :
  Component._abspath c = ospath.join dirpath (b +:+ "." +:+ x) →
  Component.filename c = b +:+ "." +:+ x.
Proof.
  intros Hp. unfold Component.filename. rewrite Hp. apply basename_join.
  rewrite !plain_name_app, Hb. simpl.
  by apply plain_suffix_plain_name.
Qed.

End ComponentPaths.

Section DiscoveredKind.
Import Py.

Lemma endswith_same_length (b p q : string) :
  length (chars p) = length (chars q) → endswith (b +:+ q) p = true → p = q.
Proof.
  intros Hlen Hends. unfold endswith in Hends. rewrite chars_app in Hends.
  apply ends_spec in Hends as [pre Hpre].
  apply app_inj_2 in Hpre as [_ Hq]; [|done]. by apply chars_inj.
Qed.

Lemma endswith_other (b p q : string) :
  length (chars p) = length (chars q) → p ≠ q → endswith (b +:+ q) p = false.
Proof.
  intros Hlen Hne. apply not_true_iff_false. intros Hends.
  by apply Hne, (endswith_same_length b).
Qed.

Lemma type_of_extension (c : Component.t) (dirpath b x : string) :
  plain_name b = true → plain_suffix x = true →
  Component._abspath c = ospath.join dirpath (b +:+ "." +:+ x) →
  Component.type c
  = if has_stem b
    then (if decide (x = "dll") then Ok Component.TYPE_BINARY
          else if decide (x = "pdb") then Ok Component.TYPE_SYMBOL
          else if decide (x = "lib") then Ok Component.TYPE_LIBRARY
          else Raise (Exception "Unkown file type"))
    else Raise (Exception "Unkown file type").
Proof.
  intros Hb Hx Hp. unfold Component.type.
  rewrite (walked_extension dirpath b x Hb Hx c Hp).
  destruct (has_stem b); [|done].
  change ".dll" with ("." +:+ "dll"). change ".pdb" with ("." +:+ "pdb").
  change ".lib" with ("." +:+ "lib").
  repeat case_decide; try done;
    repeat match goal with
           | H : "." +:+ _ = "." +:+ _ |- _ => apply (inj (String.app ".")) in H
           end; congruence.
Qed.

End DiscoveredKind.

(** X3: discovery and the kind derivation agree on every plain file name
    [b.dll], [b.pdb], [b.lib] that is not ignored: the file yields one
    component, a [DLLComponent] exactly for [.dll], and its kind is Binary,
    Symbol or StaticLib accordingly; but when [b] is empty or all dots
    (a file named [.dll]) the component is still discovered and its kind
    raises [Unkown file type]. *)
Theorem discovered_kind (targetpath dirpath b : string) :
  plain_name b = true →
  (ignored (b +:+ ".dll") = false →
   components_of_file targetpath dirpath (b +:+ ".dll")
   = [DLLComponent.init (ospath.join dirpath (b +:+ ".dll")) targetpath]
   ∧ Component.type (DLLComponent.init (ospath.join dirpath (b +:+ ".dll")) targetpath)
     = if has_stem b then Ok Component.TYPE_BINARY
       else Raise (Exception "Unkown file type"))
  ∧ (ignored (b +:+ ".pdb") = false →
     components_of_file targetpath dirpath (b +:+ ".pdb")
     = [Component.init (ospath.join dirpath (b +:+ ".pdb")) targetpath]
     ∧ Component.type (Component.init (ospath.join dirpath (b +:+ ".pdb")) targetpath)
       = if has_stem b then Ok Component.TYPE_SYMBOL
         else Raise (Exception "Unkown file type"))
  ∧ (ignored (b +:+ ".lib") = false →
     components_of_file targetpath dirpath (b +:+ ".lib")
     = [Component.init (ospath.join dirpath (b +:+ ".lib")) targetpath]
     ∧ Component.type (Component.init (ospath.join dirpath (b +:+ ".lib")) targetpath)
       = if has_stem b then Ok Component.TYPE_LIBRARY
         else Raise (Exception "Unkown file type")).
Proof.
  intros Hb. split; [|split]; intros Hi; unfold components_of_file; rewrite Hi.
  - rewrite endswith_app. split; [done|].
    by rewrite (type_of_extension _ dirpath b "dll").
  - rewrite endswith_other, endswith_app by done. simpl. split; [done|].
    by rewrite (type_of_extension _ dirpath b "pdb").
  - rewrite endswith_other, endswith_other, endswith_app by done. simpl. split; [done|].
    by rewrite (type_of_extension _ dirpath b "lib").
Qed.

Lemma discovered_kind_witness :
  components_of_file "T" "bin" ("" +:+ ".dll")
  = [DLLComponent.init (ospath.join "bin" ("" +:+ ".dll")) "T"]
  ∧ Component.type (DLLComponent.init (ospath.join "bin" ("" +:+ ".dll")) "T")
    = if has_stem "" then Ok Component.TYPE_BINARY else Raise (Exception "Unkown file type").
Proof.
  apply (proj1 (discovered_kind "T" "bin" "" eq_refl)). reflexivity.
Defined.

Section BuildFlavor.
Import Py.

Lemma build_walked (c : Component.t) (dirpath b x : string) :
  plain_name b = true → has_stem b = true → plain_suffix x = true →
  Component._abspath c = ospath.join dirpath (b +:+ "." +:+ x) →
  Component.build c
  = if decide (x = "pdb") then Component.BUILD_DEBUG
    else if endswith b DEBUG_SUFFIX then Component.BUILD_DEBUG
    else Component.BUILD_RELEASE.
Proof.
  intros Hb Hstem Hx Hp. unfold Component.build.
  rewrite (walked_extension dirpath b x Hb Hx c Hp), Hstem.
  rewrite (walked_filename dirpath b x Hb Hx c Hp), splitext_ext by done. simpl fst.
  change ".pdb" with ("." +:+ "pdb").
  repeat case_decide; try done.
  - match goal with H : "." +:+ _ = "." +:+ _ |- _ => apply (inj (String.app ".")) in H end.
    congruence.
  - congruence.
Qed.

Lemma normalized_name_walked (c : Component.t) (dirpath b x : string) :
  plain_name b = true → has_stem b = true → plain_suffix x = true →
  Component._abspath c = ospath.join dirpath (b +:+ "." +:+ x) →
  Component.normalized_name c
  = if endswith (lower b) DEBUG_SUFFIX then slice (lower b) 0 (-1) else lower b.
Proof.
  intros Hb Hstem Hx Hp. unfold Component.normalized_name.
  rewrite (walked_filename dirpath b x Hb Hx c Hp).
  unfold file_to_package. by rewrite splitext_ext.
Qed.

End BuildFlavor.

(** X4: the build flavor of a discovered file [b.x]: a symbol file is
    Debug whatever its name; any other file is Debug exactly when its base
    name ends in a lower-case [d]. *)
Theorem build_of_walked_file (c : Component.t) (dirpath b x : string) :
  plain_name b = true → has_stem b = true → plain_suffix x = true →
  Component._abspath c = ospath.join dirpath (b +:+ "." +:+ x) →
  Component.build c = Component.BUILD_DEBUG
  ↔ x = "pdb" ∨ Py.endswith b DEBUG_SUFFIX = true.
Proof.
  intros Hb Hstem Hx Hp. rewrite (build_walked c dirpath b x) by done.
  case_decide as Hpdb; [naive_solver|].
  destruct (Py.endswith b DEBUG_SUFFIX); naive_solver.
Qed.

Lemma build_of_walked_file_witness :
  Component.build (Component.init (ospath.join "bin" ("Qt5Core" +:+ "." +:+ "pdb")) "T")
  = Component.BUILD_DEBUG
  ↔ "pdb" = "pdb" ∨ Py.endswith "Qt5Core" DEBUG_SUFFIX = true.
Proof. apply (build_of_walked_file _ "bin" "Qt5Core" "pdb"); reflexivity. Defined.

(** X5: the build flavor reads the marker with its case, the logical name
    without: for an ASCII name [b], a binary [bD.x] whose marker is a
    capital [D] is filed as a Release build under the name of [b.x], so it
    and the release binary [b.x] share the package and the build flavor. *)
Theorem capital_marker_is_release (c1 c2 : Component.t) (dirpath b x : string) :
  Py.isascii b = true →
  plain_name b = true → has_stem b = true → plain_suffix x = true →
  x ≠ "pdb" →
  Py.endswith (Py.lower b) DEBUG_SUFFIX = false →
  Component._abspath c1 = ospath.join dirpath ((b +:+ "D") +:+ "." +:+ x) →
  Component._abspath c2 = ospath.join dirpath (b +:+ "." +:+ x) →
  Component.build c1 = Component.BUILD_RELEASE
  ∧ Component.build c2 = Component.BUILD_RELEASE
  ∧ Component.normalized_name c1 = Py.lower b
  ∧ Component.normalized_name c2 = Py.lower b.
Proof.
  intros _ Hb Hstem Hx Hpdb Hd Hp1 Hp2.
  assert (plain_name (b +:+ "D") = true) as HbD by (by rewrite plain_name_app, Hb).
  assert (has_stem (b +:+ "D") = true) as HstemD by (by apply has_stem_app_char).
  assert (Py.endswith b DEBUG_SUFFIX = false) as Hd2.
  { apply not_true_iff_false. intros Hends. apply not_true_iff_false in Hd. apply Hd.
    unfold Py.endswith in *. apply ends_spec in Hends as [pre Hpre].
    apply ends_spec. exists (Py.lower_char <$> pre).
    by rewrite chars_lower, Hpre, fmap_app. }
  rewrite (build_walked c1 dirpath (b +:+ "D") x), (build_walked c2 dirpath b x) by done.
  rewrite (normalized_name_walked c1 dirpath (b +:+ "D") x) by done.
  rewrite (normalized_name_walked c2 dirpath b x) by done.
  rewrite !decide_False by done.
  rewrite (endswith_other b DEBUG_SUFFIX "D"), Hd2, Hd by done.
  rewrite lower_app. change (Py.lower "D") with (String "d" "").
  rewrite endswith_app, slice_drop_last. done.
Qed.

Lemma capital_marker_is_release_witness :
  Component.build (DLLComponent.init (ospath.join "bin" (("Qt5Gui" +:+ "D") +:+ "." +:+ "dll")) "T")
  = Component.BUILD_RELEASE
  ∧ Component.build (DLLComponent.init (ospath.join "bin" ("Qt5Gui" +:+ "." +:+ "dll")) "T")
    = Component.BUILD_RELEASE
  ∧ Component.normalized_name
      (DLLComponent.init (ospath.join "bin" (("Qt5Gui" +:+ "D") +:+ "." +:+ "dll")) "T")
    = Py.lower "Qt5Gui"
  ∧ Component.normalized_name
      (DLLComponent.init (ospath.join "bin" ("Qt5Gui" +:+ "." +:+ "dll")) "T")
    = Py.lower "Qt5Gui".
Proof.
  apply (capital_marker_is_release _ _ "bin" "Qt5Gui" "dll"); try reflexivity. done.
Defined.

(** * The import list: [_dumpbin_to_deps] and [dependencies] *)

Section Imports.
Import Py.

Lemma lower_empty (s : string) : lower s = "" → s = "".
Proof.
  intros H. apply chars_inj. apply (f_equal chars) in H.
  rewrite chars_lower in H. by apply fmap_nil_inv in H.
Qed.

(** Where an entry of the list comes from: a line that is not blank, has no
    [Summary] in it, and stands after a line with [dependencies] in it. *)
Lemma dumpbin_lines_entry (instr : list string) (deps_follow : bool) (dep : string) :
  dep ∈ DLLComponent.dumpbin_lines deps_follow instr →
  ∃ before line after,
    instr = before ++ line :: after
    ∧ dep = lower (strip line)
    ∧ strip line ≠ ""
    ∧ contains "Summary" line = false
    ∧ (deps_follow = true ∨ ∃ header, header ∈ before ∧ contains "dependencies" header = true).
Proof.
  revert deps_follow. induction instr as [|line instr IH]; intros deps_follow; simpl.
  - by intros ?%elem_of_nil.
  - case_decide as Hblank.
    + intros (before & l & after & -> & Hrest)%IH.
      exists (line :: before), l, after. split; [done|].
      destruct Hrest as (? & ? & ? & [?|(h & Hh & ?)]); repeat split; try done;
        [by left | right; exists h; split; [by apply list_elem_of_further | done]].
    + intros [Hhere|Hlater]%elem_of_app.
      * destruct (contains "Summary" line) eqn:Hsum; [by apply elem_of_nil in Hhere|].
        destruct deps_follow; [|by apply elem_of_nil in Hhere].
        apply list_elem_of_singleton in Hhere as ->.
        exists [], line, instr. repeat split; try done. by left.
      * apply IH in Hlater as (before & l & after & -> & Hdep & Hne & Hsum & Hfollow).
        exists (line :: before), l, after. repeat split; try done.
        destruct Hfollow as [Hfollow|(h & Hh & Hc)].
        -- destruct (contains "dependencies" line) eqn:Hd.
           ++ right. exists line. split; [apply list_elem_of_here | done].
           ++ destruct (contains "Summary" line); [done|].
              by left.
        -- right. exists h. split; [by apply list_elem_of_further | done].
Qed.

Lemma qt_deps_spec (deps : list string) (x : string) :
  x ∈ DLLComponent.qt_deps deps
  ↔ ∃ dep, dep ∈ deps ∧ startswith dep "qt" = true ∧ x = file_to_package dep.
Proof.
  unfold DLLComponent.qt_deps.
  assert (∀ acc : gset string,
            x ∈ foldl (λ acc dep,
                         if startswith dep "qt" then acc ∪ {[ file_to_package dep ]} else acc)
                      acc deps
            ↔ x ∈ acc
              ∨ ∃ dep, dep ∈ deps ∧ startswith dep "qt" = true ∧ x = file_to_package dep)
    as Hgen.
  { induction deps as [|dep deps IH]; intros acc; simpl.
    - split; [by left|]. intros [?|(dep & Hd%elem_of_nil & _)]; done.
    - rewrite IH. split.
      + intros [Hacc|(d & Hd & Hq & Hx)].
        * destruct (startswith dep "qt") eqn:Hq; [|by left].
          apply elem_of_union in Hacc as [?|Hx%elem_of_singleton]; [by left|].
          right. exists dep. split; [apply list_elem_of_here | done].
        * right. exists d. split; [by apply list_elem_of_further | done].
      + intros [Hacc|(d & [->|Hd]%elem_of_cons & Hq & Hx)].
        * left. destruct (startswith dep "qt"); [|done]. apply elem_of_union. by left.
        * left. rewrite Hq. apply elem_of_union. right. by apply elem_of_singleton.
        * right. exists d. done. }
  rewrite Hgen. split; [|by right]. intros [Hempty|?]; [|done].
  by apply not_elem_of_empty in Hempty.
Qed.

End Imports.

Section QtPrefix.
Import Py.
Local Open Scope Z_scope.

Lemma rfind_from_ge (i : Z) (c : ascii) (l : list ascii) (found : Z) :
  rfind_from i c l found = found ∨ i ≤ rfind_from i c l found.
Proof.
  revert i found. induction l as [|x l IH]; intros i found; simpl; [by left|].
  destruct (eqc x c).
  - destruct (IH (i + 1) i) as [->|?]; right; lia.
  - destruct (IH (i + 1) found) as [->|?]; [by left | right; lia].
Qed.

Lemma startswith_qt_chars (s : string) :
  startswith s "qt" = true ↔ ∃ rest, chars s = chars "qt" ++ rest.
Proof. unfold startswith. apply starts_spec. Qed.

Lemma splitext_root_qt (dep : string) :
  startswith dep "qt" = true → startswith (ospath.splitext dep).1 "qt" = true.
Proof.
  intros Hq. unfold ospath.splitext.
  destruct (_ && _) eqn:Hcond; [|done]. simpl.
  apply andb_true_iff in Hcond as [Hlt _]. apply Z.ltb_lt in Hlt.
  apply startswith_qt_chars in Hq as [rest Hrest].
  apply startswith_qt_chars. unfold slice, slice_list, rfind in *.
  rewrite chars_text, Hrest in *.
  pose proof (rfind_chars_range ch_backslash (chars "qt" ++ rest)) as Hbs.
  pose proof (rfind_chars_range ch_dot (chars "qt" ++ rest)) as Hdot.
  set (k := rfind_chars ch_dot (chars "qt" ++ rest)) in *.
  assert (2 ≤ k) as Hk.
  { assert (k = rfind_from 2 ch_dot rest (-1)) as Hk by done.
    destruct (rfind_from_ge 2 ch_dot rest (-1)) as [Heq|?]; lia. }
  rewrite (slice_bound_in _ 0), (slice_bound_in _ k) by lia.
  change (Z.to_nat 0) with 0%nat. rewrite drop_0, Nat.sub_0_r.
  exists (take (Z.to_nat k - 2) rest).
  replace (Z.to_nat k) with (S (S (Z.to_nat k - 2))) by lia.
  unfold chars. simpl. by rewrite Nat.sub_0_r.
Qed.

Lemma file_to_package_qt (dep : string) :
  startswith dep "qt" = true → startswith (file_to_package dep) "qt" = true.
Proof.
  intros Hq%splitext_root_qt. unfold file_to_package.
  set (root := (ospath.splitext dep).1) in *.
  apply startswith_qt_chars in Hq as [rest Hrest].
  assert (chars (lower root) = chars "qt" ++ (lower_char <$> rest)) as Hlow.
  { by rewrite chars_lower, Hrest, fmap_app. }
  destruct (endswith (lower root) DEBUG_SUFFIX) eqn:Hd.
  - unfold endswith in Hd. apply ends_spec in Hd as [pre Hpre].
    apply startswith_qt_chars. unfold slice. rewrite chars_text, Hpre.
    change (chars DEBUG_SUFFIX) with [ascii_of_nat 100]. rewrite slice_list_drop_last.
    rewrite Hlow in Hpre. change (chars DEBUG_SUFFIX) with [ascii_of_nat 100] in Hpre.
    destruct pre as [|p1 [|p2 pre]]; simpl in Hpre.
    + discriminate.
    + discriminate.
    + injection Hpre as <- <- _. by exists pre.
  - apply startswith_qt_chars. eauto.
Qed.

End QtPrefix.

(** X6: every entry that [_dumpbin_to_deps] returns is the stripped,
    lower-cased text of a line of the listing that is not blank, has no
    [Summary] in it and stands after a line with [dependencies] in it; no
    entry is empty and none has an upper-case letter. *)
Theorem dumpbin_to_deps_entries (instr dep : string) :
  dep ∈ DLLComponent._dumpbin_to_deps instr →
  dep ≠ ""
  ∧ Py.lower dep = dep
  ∧ ∃ before line after,
      Py.split instr Py.CRLF = before ++ line :: after
      ∧ dep = Py.lower (Py.strip line)
      ∧ Py.contains "Summary" line = false
      ∧ ∃ header, header ∈ before ∧ Py.contains "dependencies" header = true.
Proof.
  unfold DLLComponent._dumpbin_to_deps.
  intros (before & line & after & Hsplit & -> & Hne & Hsum & Hfollow)%dumpbin_lines_entry.
  split; [|split].
  - intros Hempty%lower_empty. done.
  - apply lower_idemp.
  - exists before, line, after. repeat split; try done.
    by destruct Hfollow as [?|?].
Qed.

Lemma dumpbin_to_deps_entries_witness :
  "qt5cored.dll" ≠ ""
  ∧ Py.lower "qt5cored.dll" = "qt5cored.dll"
  ∧ ∃ before line after,
      Py.split dependents_listing Py.CRLF = before ++ line :: after
      ∧ "qt5cored.dll" = Py.lower (Py.strip line)
      ∧ Py.contains "Summary" line = false
      ∧ ∃ header, header ∈ before ∧ Py.contains "dependencies" header = true.
Proof.
  apply (dumpbin_to_deps_entries dependents_listing "qt5cored.dll").
  vm_compute. apply list_elem_of_here.
Defined.

(** X7: the first read of [dependencies] keeps only names of the Qt
    namespace: every name in the set starts with [qt] and is lower-case, so
    a system library among the imports never becomes a dependency. *)
Theorem dependencies_in_namespace (w : World) (c c1 : Component.t) (d : gset string)
    (x : string) :
  Component._deps c = None →
  DLLComponent.dependencies w c = Ok (d, c1) →
  x ∈ d →
  Py.startswith x "qt" = true ∧ Py.lower x = x.
Proof.
  unfold DLLComponent.dependencies. intros Hmemo.
  destruct (Component.class_of c); [done|]. rewrite Hmemo.
  destruct (run w _) as [out|e]; cbn [bind]; [|done].
  intros Hres%Ok_inj. injection Hres as <- _.
  intros (dep & _ & Hq & ->)%qt_deps_spec. split.
  - by apply file_to_package_qt.
  - apply file_to_package_lower.
Qed.

Lemma dependencies_in_namespace_witness :
  Py.startswith "qt5gui" "qt" = true ∧ Py.lower "qt5gui" = "qt5gui".
Proof.
  apply (dependencies_in_namespace imports_world gui_dll
           (Component.set_deps gui_dll {[ "qt5core"; "qt5gui" ]}) {[ "qt5core"; "qt5gui" ]}).
  - reflexivity.
  - vm_compute. reflexivity.
  - set_solver.
Defined.

(** X8: [dependencies] is read from the inspector once: after a read that
    returned, every later read of the component returns the same set and
    leaves the component as it is, whatever the inspector would answer. *)
Theorem dependencies_memo (w w' : World) (c c1 : Component.t) (d : gset string) :
  DLLComponent.dependencies w c = Ok (d, c1) →
  DLLComponent.dependencies w' c1 = Ok (d, c1).
Proof.
  unfold DLLComponent.dependencies.
  destruct (Component.class_of c) eqn:Hclass; [done|].
  destruct (Component._deps c) as [memo|] eqn:Hmemo.
  - intros Hres%Ok_inj. injection Hres as <- <-. by rewrite Hclass, Hmemo.
  - destruct (run w _) as [out|e]; cbn [bind]; [|done].
    intros Hres%Ok_inj. injection Hres as <- <-. simpl. by rewrite Hclass.
Qed.

Lemma dependencies_memo_witness :
  DLLComponent.dependencies exe_world (Component.set_deps gui_dll {[ "qt5core"; "qt5gui" ]})
  = Ok ({[ "qt5core"; "qt5gui" ]}, Component.set_deps gui_dll {[ "qt5core"; "qt5gui" ]}).
Proof.
  apply (dependencies_memo imports_world exe_world gui_dll).
  vm_compute. reflexivity.
Defined.

(** X9: an architecture that [arch] found is remembered: every later read
    returns it without the inspector.  An absent one is not: the read that
    returns [None] leaves the memo field empty, and the next read asks the
    inspector again. *)
Theorem arch_memo (w w' : World) (c c1 : Component.t) (a : option string) :
  Component.arch w c = Ok (a, c1) →
  (∀ s, a = Some s → Component.arch w' c1 = Ok (Some s, c1))
  ∧ (a = None → c1 = c ∧ Component._arch c = None).
Proof.
  unfold Component.arch at 1.
  destruct (Component._arch c) as [memo|] eqn:Hmemo.
  - intros Hres%Ok_inj. injection Hres as <- <-. split; [|done].
    intros s [= <-]. unfold Component.arch. by rewrite Hmemo.
  - destruct (Component.check_name w c) as [name|e]; cbn [bind]; [|done].
    unfold Component.inspect_headers.
    destruct (run w _) as [out|e]; cbn [bind]; [|done].
    destruct (Component.machine_of _) as [s|].
    + intros Hres%Ok_inj. injection Hres as <- <-. split; [|done].
      by intros s' [= <-].
    + intros Hres%Ok_inj. injection Hres as <- <-. split; [done|done].
Qed.

Lemma arch_memo_witness :
  (∀ s, Some "x64" = Some s →
        Component.arch exe_world (Component.set_arch gui_dll "x64")
        = Ok (Some s, Component.set_arch gui_dll "x64"))
  ∧ (Some "x64" = None → Component.set_arch gui_dll "x64" = gui_dll
                         ∧ Component._arch gui_dll = None).
Proof.
  apply (arch_memo imports_world exe_world gui_dll).
  vm_compute. reflexivity.
Defined.

(** * More on [compute_dependencies] *)

Section Resolution.
Context (w : World).

Lemma dependencies_same_file (binary binary' : Component.t) (d : gset string) :
  DLLComponent.dependencies w binary = Ok (d, binary') →
  same_file binary binary' ∧ deps_read w binary = d.
Proof.
  unfold deps_read. intros Hrun. rewrite Hrun. split; [|done].
  unfold DLLComponent.dependencies in Hrun.
  destruct (Component.class_of binary); [done|].
  destruct (Component._deps binary) as [memo|].
  - apply Ok_inj in Hrun. by injection Hrun as <- <-.
  - destruct (run w _) as [out|e]; cbn [bind] in Hrun; [|done].
    apply Ok_inj in Hrun. by injection Hrun as <- <-.
Qed.

Lemma readable_spec (binary : Component.t) :
  readable w binary ↔ ∃ d binary', DLLComponent.dependencies w binary = Ok (d, binary').
Proof.
  unfold readable, DLLComponent.dependencies, run.
  destruct (Component.class_of binary).
  - split; [by intros [? _] | by intros (? & ? & ?)].
  - destruct (Component._deps binary) as [memo|].
    + split; [eauto | intros _; split; [done|left; eauto]].
    + destruct (check_output w _) as [out|]; cbn [bind].
      * split; [eauto | intros _; split; [done|right; eauto]].
      * split; [|by intros (? & ? & ?)].
        intros [_ [[? ?]|[? ?]]]; done.
Qed.

Context (packagename : string).

Lemma scan_binaries_union (binaries binaries' : list Component.t) (deps deps' : gset string) :
  scan_binaries w packagename deps binaries = Ok (deps', binaries') →
  deps' ∖ {[ packagename ]} = (deps ∪ ⋃ (deps_read w <$> binaries)) ∖ {[ packagename ]}
  ∧ Forall2 same_file binaries binaries'.
Proof.
  revert binaries' deps deps'.
  induction binaries as [|binary binaries IH]; intros binaries' deps deps'; simpl.
  - intros Hres%Ok_inj. injection Hres as <- <-. split; [set_solver | constructor].
  - destruct (DLLComponent.dependencies w binary) as [[d b]|e] eqn:Hdep; cbn [bind]; [|done].
    destruct (dependencies_same_file _ _ _ Hdep) as [Hsame Hread].
    destruct (scan_binaries w packagename _ binaries) as [[deps2 bs2]|e] eqn:Hrest;
      cbn [bind]; [|done].
    intros Hres%Ok_inj. injection Hres as <- <-.
    apply IH in Hrest as [Hset Hfiles]. split; [|by constructor].
    rewrite Hread, Hset. clear. case_decide; set_solver.
Qed.

Lemma scan_binaries_readable (binaries : list Component.t) (deps : gset string) :
  (∃ r, scan_binaries w packagename deps binaries = Ok r) ↔ Forall (readable w) binaries.
Proof.
  revert deps. induction binaries as [|binary binaries IH]; intros deps; simpl.
  - split; [constructor | eauto].
  - rewrite Forall_cons, readable_spec.
    destruct (DLLComponent.dependencies w binary) as [[d b]|e] eqn:Hdep; cbn [bind].
    + set (deps1 := if decide (packagename ∈ deps ∪ d) then _ else _).
      rewrite <- (IH deps1). split.
      * intros [r Hr]. split; [eauto|].
        destruct (scan_binaries w packagename deps1 binaries) as [[deps2 bs2]|e'];
          [eauto|done].
      * intros [_ [[deps2 bs2] ->]]. cbn [bind]. eauto.
    + split; [by intros [? ?] | by intros [(? & ? & ?) _]].
Qed.

Lemma all_binaries_cons (config : PackageConfig.t) (configs : list PackageConfig.t) :
  all_binaries (config :: configs) = PackageConfig.binaries config ++ all_binaries configs.
Proof. done. Qed.

Lemma scan_configurations_union (configs configs' : list PackageConfig.t)
    (deps deps' : gset string) :
  scan_configurations w packagename deps configs = Ok (deps', configs') →
  deps' ∖ {[ packagename ]}
  = (deps ∪ ⋃ (deps_read w <$> all_binaries configs)) ∖ {[ packagename ]}
  ∧ Forall2 same_bucket configs configs'.
Proof.
  revert configs' deps deps'.
  induction configs as [|config configs IH]; intros configs' deps deps';
    cbn [scan_configurations].
  - intros Hres%Ok_inj. injection Hres as <- <-. split; [set_solver | constructor].
  - destruct (scan_binaries w packagename deps (PackageConfig.binaries config))
      as [[deps1 bs]|e] eqn:Hbin; cbn [bind]; [|done].
    destruct (scan_configurations w packagename deps1 configs)
      as [[deps2 cs]|e] eqn:Hrest; cbn [bind]; [|done].
    intros Hres%Ok_inj. injection Hres as <- <-.
    apply scan_binaries_union in Hbin as [Hset1 Hfiles].
    apply IH in Hrest as [Hset2 Hbuckets]. split.
    + rewrite all_binaries_cons, fmap_app, union_list_app_L.
      rewrite Hset2. clear -Hset1. set_solver.
    + constructor; [|done]. by repeat split.
Qed.

Lemma scan_configurations_readable (configs : list PackageConfig.t) (deps : gset string) :
  (∃ r, scan_configurations w packagename deps configs = Ok r)
  ↔ Forall (readable w) (all_binaries configs).
Proof.
  revert deps. induction configs as [|config configs IH]; intros deps;
    cbn [scan_configurations].
  - split; [constructor | eauto].
  - rewrite all_binaries_cons, Forall_app.
    rewrite <- (scan_binaries_readable _ deps).
    destruct (scan_binaries w packagename deps (PackageConfig.binaries config))
      as [[deps1 bs]|e]; cbn [bind].
    + rewrite <- (IH deps1). split.
      * intros [r Hr]. split; [eauto|].
        destruct (scan_configurations w packagename deps1 configs) as [[deps2 cs]|e'];
          [eauto|done].
      * intros [_ [[deps2 cs] ->]]. cbn [bind]. eauto.
    + split; [by intros [? ?] | by intros [[? ?] _]].
Qed.

End Resolution.

Section Pass.
Context (w : World).

Lemma package_dependencies_inv (packagename : string) (package package' : QtPackage.t) :
  package_dependencies w packagename package = Ok package' →
  QtPackage.id package' = QtPackage.id package
  ∧ QtPackage.name package' = QtPackage.name package
  ∧ QtPackage.version package' = QtPackage.version package
  ∧ Forall2 same_bucket (QtPackage.configurations package) (QtPackage.configurations package')
  ∧ QtPackage.dependencies package'
    = if has_binary (QtPackage.configurations package)
      then ({[ "qt5core" ]}
            ∪ ⋃ (deps_read w <$> all_binaries (QtPackage.configurations package)))
           ∖ {[ packagename ]}
      else {[ "qt5core" ]}.
Proof.
  unfold package_dependencies.
  destruct (scan_configurations w packagename _ _) as [[deps configs]|e] eqn:Hscan;
    cbn [bind]; [|done].
  intros Hres%Ok_inj. subst package'. simpl.
  destruct (scan_configurations_spec _ _ _ _ _ _ Hscan) as (_ & _ & Hbin & Hnone).
  apply scan_configurations_union in Hscan as [Hset Hbuckets].
  repeat split; try done.
  assert (list_to_set FIXED_DEPS = ({[ "qt5core" ]} : gset string)) as Hfixed
    by (unfold FIXED_DEPS; simpl; set_solver).
  rewrite Hfixed in *.
  destruct (has_binary (QtPackage.configurations package)).
  - specialize (Hbin eq_refl). clear -Hset Hbin. set_solver.
  - by rewrite (Hnone eq_refl).
Qed.

Lemma package_dependencies_readable (packagename : string) (package : QtPackage.t) :
  (∃ package', package_dependencies w packagename package = Ok package')
  ↔ Forall (readable w) (all_binaries (QtPackage.configurations package)).
Proof.
  rewrite <- (scan_configurations_readable w packagename _ (list_to_set FIXED_DEPS)).
  unfold package_dependencies.
  destruct (scan_configurations w packagename _ _) as [[deps configs]|e]; cbn [bind].
  - split; eauto.
  - split; by intros [? ?].
Qed.

(** The loop over the dictionary, one key at a time. *)
Lemma compute_dependencies_fold (packages : gmap string QtPackage.t) :
  match compute_dependencies w packages with
  | Ok packages' =>
      ∀ name,
        match packages !! name with
        | Some package =>
            ∃ package', package_dependencies w name package = Ok package'
                        ∧ packages' !! name = Some package'
        | None => packages' !! name = None
        end
  | Raise _ =>
      ∃ name package e,
        packages !! name = Some package ∧ package_dependencies w name package = Raise e
  end.
Proof.
  unfold compute_dependencies.
  set (f := λ (name : string) (package : QtPackage.t) acc, _).
  assert (∀ m acc0,
            match map_fold f (Ok acc0) m with
            | Ok r =>
                ∀ name,
                  match m !! name with
                  | Some package =>
                      ∃ package', package_dependencies w name package = Ok package'
                                  ∧ r !! name = Some package'
                  | None => r !! name = acc0 !! name
                  end
            | Raise _ =>
                ∃ name package e,
                  m !! name = Some package ∧ package_dependencies w name package = Raise e
            end) as Hfold.
  { intros m acc0.
    apply (map_fold_weak_ind
             (λ res m,
                match res with
                | Ok r =>
                    ∀ name,
                      match m !! name with
                      | Some package =>
                          ∃ package', package_dependencies w name package = Ok package'
                                      ∧ r !! name = Some package'
                      | None => r !! name = acc0 !! name
                      end
                | Raise _ =>
                    ∃ name package e,
                      m !! name = Some package
                      ∧ package_dependencies w name package = Raise e
                end)).
    - intros name. by rewrite lookup_empty.
    - intros i x m' res Hi IH. unfold f.
      destruct res as [acc|e]; cbn [bind].
      + destruct (package_dependencies w i x) as [px|e] eqn:Hpx; cbn [bind].
        * intros name. destruct (decide (i = name)) as [->|Hne].
          -- rewrite !lookup_insert_eq. eauto.
          -- rewrite !lookup_insert_ne by done. apply IH.
        * exists i, x, e. by rewrite lookup_insert_eq.
      + destruct IH as (name & package & e' & Hlook & Hraise).
        exists name, package, e'. split; [|done].
        rewrite lookup_insert_ne; [done|]. intros ->. congruence. }
  specialize (Hfold packages packages).
  destruct (map_fold f (Ok packages) packages) as [r|e]; [|done].
  intros name. specialize (Hfold name).
  destruct (packages !! name); done.
Qed.

End Pass.

(** X10: after the pass the dependency set of a package with a binary is
    the fixed base dependency together with the import sets of all binaries
    of all its buckets, without the package's own key; the order of the
    buckets and of the binaries does not enter.  A package without a binary
    gets the base dependency alone. *)
Theorem dependency_set_is_union (w : World) (packages packages' : gmap string QtPackage.t)
    (name : string) (package : QtPackage.t) :
  compute_dependencies w packages = Ok packages' →
  packages !! name = Some package →
  ∃ package',
    packages' !! name = Some package'
    ∧ QtPackage.dependencies package'
      = if has_binary (QtPackage.configurations package)
        then ({[ "qt5core" ]}
              ∪ ⋃ (deps_read w <$> all_binaries (QtPackage.configurations package)))
             ∖ {[ name ]}
        else {[ "qt5core" ]}.
Proof.
  intros Hrun Hlook. pose proof (compute_dependencies_fold w packages) as Hfold.
  rewrite Hrun in Hfold. specialize (Hfold name). rewrite Hlook in Hfold.
  destruct Hfold as (package' & Hone & Hlook'). exists package'. split; [done|].
  by apply package_dependencies_inv in Hone as (_ & _ & _ & _ & Hdeps).
Qed.

Lemma dependency_set_is_union_witness :
  ∃ package',
    imports_resolved !! "qt5gui" = Some package'
    ∧ QtPackage.dependencies package'
      = if has_binary (QtPackage.configurations imports_gui)
        then ({[ "qt5core" ]}
              ∪ ⋃ (deps_read imports_world
                     <$> all_binaries (QtPackage.configurations imports_gui)))
             ∖ {[ "qt5gui" ]}
        else {[ "qt5core" ]}.
Proof.
  apply (dependency_set_is_union imports_world imports_registry imports_resolved
           "qt5gui" imports_gui); vm_compute; reflexivity.
Defined.

(** X11: the pass changes the dependency sets and what the binaries
    remember of their imports, nothing else: the registry has the same
    keys, and every package keeps its identity, name and version, its
    buckets with their keys, symbol files and libraries, and the paths of
    its binaries. *)
Theorem pass_keeps_packages (w : World) (packages packages' : gmap string QtPackage.t) :
  compute_dependencies w packages = Ok packages' →
  dom packages' = dom packages
  ∧ ∀ name package,
      packages !! name = Some package →
      ∃ package',
        packages' !! name = Some package'
        ∧ QtPackage.id package' = QtPackage.id package
        ∧ QtPackage.name package' = QtPackage.name package
        ∧ QtPackage.version package' = QtPackage.version package
        ∧ Forall2 same_bucket (QtPackage.configurations package)
            (QtPackage.configurations package').
Proof.
  intros Hrun. pose proof (compute_dependencies_fold w packages) as Hfold.
  rewrite Hrun in Hfold. split.
  - apply set_eq. intros name. rewrite !elem_of_dom. specialize (Hfold name).
    destruct (packages !! name) as [package|].
    + destruct Hfold as (package' & _ & ->). split; eauto.
    + rewrite Hfold. done.
  - intros name package Hlook. specialize (Hfold name). rewrite Hlook in Hfold.
    destruct Hfold as (package' & Hone & Hlook'). exists package'. split; [done|].
    by apply package_dependencies_inv in Hone as (? & ? & ? & ? & _).
Qed.

Lemma pass_keeps_packages_witness :
  dom imports_resolved = dom imports_registry
  ∧ ∀ name package,
      imports_registry !! name = Some package →
      ∃ package',
        imports_resolved !! name = Some package'
        ∧ QtPackage.id package' = QtPackage.id package
        ∧ QtPackage.name package' = QtPackage.name package
        ∧ QtPackage.version package' = QtPackage.version package
        ∧ Forall2 same_bucket (QtPackage.configurations package)
            (QtPackage.configurations package').
Proof.
  apply (pass_keeps_packages imports_world). vm_compute. reflexivity.
Defined.

(** X12: the pass returns exactly when the import list of every binary of
    every package can be read (the binary is a [DLLComponent] and its list
    is remembered or the inspector answers for its path); when one cannot,
    the pass raises and gives no registry. *)
Theorem pass_returns_iff_readable (w : World) (packages : gmap string QtPackage.t) :
  (∃ packages', compute_dependencies w packages = Ok packages')
  ↔ ∀ name package,
      packages !! name = Some package →
      Forall (readable w) (all_binaries (QtPackage.configurations package)).
Proof.
  pose proof (compute_dependencies_fold w packages) as Hfold. split.
  - intros [packages' Hrun] name package Hlook. rewrite Hrun in Hfold.
    specialize (Hfold name). rewrite Hlook in Hfold.
    destruct Hfold as (package' & Hone & _).
    apply (package_dependencies_readable w name). eauto.
  - intros Hall. destruct (compute_dependencies w packages) as [packages'|e]; [eauto|].
    destruct Hfold as (name & package & e' & Hlook & Hraise).
    apply Hall, (package_dependencies_readable w name) in Hlook as [package' Hok].
    congruence.
Qed.

(** * More on the buckets *)

(** X13: [get_config] never makes a second bucket for a key: the bucket it
    returns has the key asked for, asking again returns the same bucket and
    adds nothing, at most one bucket is added and it is empty, unique keys
    stay unique, and the buckets of the other keys are found as before. *)
Theorem get_config_idempotent (self self' : QtPackage.t) (a : option string)
    (b : Component.flavor) (i : nat) :
  QtPackage.get_config self a b = (i, self') →
  QtPackage.get_config self' a b = (i, self')
  ∧ (∃ config, QtPackage.configurations self' !! i = Some config ∧ key config = (a, b))
  ∧ artifacts self' = artifacts self
  ∧ (QtPackage.configurations self' = QtPackage.configurations self
     ∨ QtPackage.configurations self'
       = QtPackage.configurations self ++ [PackageConfig.init a b])
  ∧ (unique_keys (QtPackage.configurations self)
     → unique_keys (QtPackage.configurations self'))
  ∧ (∀ a1 b1, (a1, b1) ≠ (a, b) →
       bucket a1 b1 (QtPackage.configurations self')
       = bucket a1 b1 (QtPackage.configurations self)).
Proof.
  unfold QtPackage.get_config.
  destruct (QtPackage.find_config a b (QtPackage.configurations self)) as [j|] eqn:Hfind.
  - intros [= <- <-]. rewrite Hfind. split; [done|]. split.
    { by apply find_config_Some in Hfind. }
    repeat split; auto.
  - intros [= <- <-]. simpl.
    assert (QtPackage.find_config a b
              (QtPackage.configurations self ++ [PackageConfig.init a b])
            = Some (length (QtPackage.configurations self))) as Hnew.
    { rewrite find_config_app, Hfind.
      assert (PackageConfig.has_key a b (PackageConfig.init a b) = true) as ->; [|done].
      by apply has_key_true. }
    rewrite Hnew. split; [done|]. split.
    { exists (PackageConfig.init a b). split; [|done].
      by rewrite lookup_app_r, Nat.sub_diag. }
    split.
    { unfold artifacts. simpl. rewrite bind_app. simpl. by rewrite !app_nil_r. }
    split; [by right|]. split.
    + unfold unique_keys. rewrite fmap_app. simpl. intros Hnd.
      apply NoDup_app. split; [done|]. split; [|apply NoDup_singleton].
      intros k Hk ->%list_elem_of_singleton. by apply find_config_None in Hfind.
    + intros a1 b1 Hne. unfold bucket. rewrite find_config_app.
      destruct (QtPackage.find_config a1 b1 (QtPackage.configurations self)) as [j|] eqn:Hj.
      * destruct (find_config_Some _ _ _ _ Hj) as (c & Hc & _).
        by rewrite lookup_app_l by (by apply lookup_lt_Some in Hc).
      * assert (PackageConfig.has_key a1 b1 (PackageConfig.init a b) = false) as ->; [|done].
        apply not_true_iff_false. rewrite has_key_true. unfold key. simpl. congruence.
Qed.

Lemma get_config_idempotent_witness :
  let self := library_package "qt5core" "Qt5Core.lib" in
  let self' :=
    QtPackage.set_configurations self
      (QtPackage.configurations self ++ [PackageConfig.init (Some "x86") Component.BUILD_DEBUG]) in
  QtPackage.get_config self' (Some "x86") Component.BUILD_DEBUG = (1%nat, self')
  ∧ (∃ config, QtPackage.configurations self' !! 1%nat = Some config
               ∧ key config = (Some "x86", Component.BUILD_DEBUG))
  ∧ artifacts self' = artifacts self
  ∧ (QtPackage.configurations self' = QtPackage.configurations self
     ∨ QtPackage.configurations self'
       = QtPackage.configurations self ++ [PackageConfig.init (Some "x86") Component.BUILD_DEBUG])
  ∧ (unique_keys (QtPackage.configurations self)
     → unique_keys (QtPackage.configurations self'))
  ∧ (∀ a1 b1, (a1, b1) ≠ (Some "x86", Component.BUILD_DEBUG) →
       bucket a1 b1 (QtPackage.configurations self')
       = bucket a1 b1 (QtPackage.configurations self)).
Proof.
  apply (get_config_idempotent (library_package "qt5core" "Qt5Core.lib")). reflexivity.
Defined.

(** * More on ingestion *)

Section Filing.
Context (w : World).

Lemma arch_result_memo (c c1 : Component.t) (a : option string) :
  Component.arch w c = Ok (a, c1) → Component._arch c1 = a.
Proof.
  unfold Component.arch.
  destruct (Component._arch c) as [memo|] eqn:Hmemo.
  - intros Hres%Ok_inj. by injection Hres as <- <-.
  - destruct (Component.check_name w c) as [name|e]; cbn [bind]; [|done].
    unfold Component.inspect_headers.
    destruct (run w _) as [out|e]; cbn [bind]; [|done].
    destruct (Component.machine_of _) as [s|]; intros Hres%Ok_inj;
      by injection Hres as <- <-.
Qed.

Lemma ingest_inv_full (qt_version : string) (packages packages1 : gmap string QtPackage.t)
    (c : Component.t) :
  ingest w qt_version packages c = Ok packages1 →
  ∃ k a c1 package1 config0 config1 i,
    Component.type c = Ok k
    ∧ Component.arch w c = Ok (a, c1)
    ∧ packages1 = <[Component.normalized_name c := package1]> packages
    ∧ placed a (Component.build c)
        (from_option QtPackage.configurations [] (packages !! Component.normalized_name c))
        config0 config1 (QtPackage.configurations package1) i
    ∧ key config0 = (a, Component.build c)
    ∧ PackageConfig.add_component config0 c1 = Ok config1
    ∧ match packages !! Component.normalized_name c with
      | Some package0 =>
          package1 = QtPackage.set_configurations package0 (QtPackage.configurations package1)
      | None =>
          package1
          = QtPackage.set_version
              (QtPackage.set_configurations
                 (QtPackage.init (Component.normalized_name c +:+ "-" +:+ "msvc2013")
                    (Component.normalized_name c))
                 (QtPackage.configurations package1))
              (if decide (qt_version = "latest") then QT_LATEST else qt_version)
      end.
Proof.
  unfold ingest.
  destruct (Component.type c) as [k|e] eqn:Hty; cbn [bind]; [|done].
  destruct (Component.arch w c) as [[a0 c1]|e] eqn:Harch; cbn [bind]; [|done].
  destruct (arch_stable _ _ _ _ Harch) as [Harch1 Hpath].
  destruct (same_path c c1 Hpath) as (Hty1 & Hbuild1 & Hname1).
  rewrite Hname1.
  destruct (packages !! Component.normalized_name c) as [package|] eqn:Hlook.
  - rewrite Harch1. cbn [bind]. rewrite Hbuild1, Hname1.
    destruct (QtPackage.get_config package a0 (Component.build c)) as [j package0] eqn:Hget.
    destruct (QtPackage.update_config package0 j _) as [package1|e] eqn:Hput;
      cbn [bind]; [|done].
    intros Hres%Ok_inj. subst packages1.
    assert ((let '(i, package0) := QtPackage.get_config package a0 (Component.build c) in
             QtPackage.update_config package0 i
               (λ config, PackageConfig.add_component config c1)) = Ok package1) as Hboth
      by (by rewrite Hget).
    apply get_config_update in Hboth as (config & config' & i & Hadd & Hk & Hplaced & Heq).
    by exists k, a0, c1, package1, config, config', i.
  - unfold QtPackage.from_component. rewrite Harch1. cbn [bind]. rewrite Hbuild1, Hname1.
    set (fresh := QtPackage.init _ _).
    destruct (QtPackage.get_config fresh a0 (Component.build c)) as [j package0] eqn:Hget.
    destruct (QtPackage.update_config package0 j _) as [package1|e] eqn:Hput;
      cbn [bind]; [|done].
    intros Hres%Ok_inj. subst packages1.
    assert ((let '(i, package0) := QtPackage.get_config fresh a0 (Component.build c) in
             QtPackage.update_config package0 i
               (λ config, PackageConfig.add_component config c1)) = Ok package1) as Hboth
      by (by rewrite Hget).
    apply get_config_update in Hboth as (config & config' & i & Hadd & Hk & Hplaced & Heq).
    cbn [QtPackage.name QtPackage.set_version].
    assert (QtPackage.name package1 = Component.normalized_name c) as ->.
    { rewrite Heq. unfold fresh.
      cbn [QtPackage.name QtPackage.set_configurations QtPackage.set_version QtPackage.init].
      apply file_to_package_lower. }
    eexists k, a0, c1, _, config, config', i.
    split; [done|]. split; [done|]. split; [done|].
    split; [exact Hplaced|]. split; [done|]. split; [done|].
    cbn [QtPackage.configurations QtPackage.set_version]. by rewrite Heq at 1.
Qed.

Lemma add_component_sorted (config config' : PackageConfig.t) (c : Component.t) :
  sorted_bucket config →
  PackageConfig.add_component config c = Ok config' →
  sorted_bucket config'.
Proof.
  unfold sorted_bucket, PackageConfig.add_component. intros (Hb & Hs & Hl).
  destruct (Component.type c) as [k|e] eqn:Hty; cbn [bind]; [|done].
  destruct k; intros Hres%Ok_inj; subst config'; simpl; repeat split; try done;
    apply Forall_app; split; try done; by apply Forall_singleton.
Qed.

Lemma placed_elem (a : option string) (b : Component.flavor)
    (configs configs' : list PackageConfig.t) (config config' : PackageConfig.t) (i : nat)
    (x : PackageConfig.t) :
  placed a b configs config config' configs' i →
  x ∈ configs' → x = config' ∨ x ∈ configs.
Proof.
  intros [Hfind Hi ->|Hfind -> -> ->] Hx.
  - apply list_elem_of_lookup in Hx as [j Hj].
    destruct (decide (j = i)) as [->|Hne].
    + rewrite list_lookup_insert_eq in Hj by (by apply lookup_lt_Some in Hi).
      left. congruence.
    + rewrite list_lookup_insert_ne in Hj by done.
      right. by eapply list_elem_of_lookup_2.
  - apply elem_of_app in Hx as [?|Hx%list_elem_of_singleton]; [by right | by left].
Qed.

Lemma placed_old (a : option string) (b : Component.flavor)
    (configs configs' : list PackageConfig.t) (config config' : PackageConfig.t) (i : nat) :
  placed a b configs config config' configs' i →
  config ∈ configs ∨ config = PackageConfig.init a b.
Proof.
  intros [Hfind Hi ->|Hfind -> -> ->]; [left|by right].
  by eapply list_elem_of_lookup_2.
Qed.

Lemma registry_filed_empty : registry_filed ∅.
Proof. intros name package Hlook. by rewrite lookup_empty in Hlook. Qed.

Lemma ingest_filed (qt_version : string) (packages packages1 : gmap string QtPackage.t)
    (c : Component.t) :
  registry_filed packages →
  ingest w qt_version packages c = Ok packages1 →
  registry_filed packages1.
Proof.
  intros Hfiled Hrun.
  apply ingest_inv_full in Hrun
    as (k & a & c1 & package1 & config0 & config1 & i
        & Hty & Harch & -> & Hplaced & Hk & Hadd & Hpackage).
  destruct (add_component_inv _ _ _ Hadd) as (Hk1 & Hall1 & _).
  destruct (arch_stable _ _ _ _ Harch) as [_ Hpath].
  destruct (same_path c c1 Hpath) as (_ & Hbuild1 & Hname1).
  pose proof (arch_result_memo _ _ _ Harch) as Hmemo.
  remember (Component.normalized_name c) as n eqn:Hn.
  assert (Forall (bucket_filed n)
            (from_option QtPackage.configurations [] (packages !! n))) as Hold.
  { destruct (packages !! n) as [package0|] eqn:Hlook; simpl; [|constructor].
    by apply (Hfiled _ _ Hlook). }
  assert (bucket_filed n config1) as Hnew.
  { assert (sorted_bucket config0
            ∧ Forall (λ c, Component.normalized_name c = n
                           ∧ Component.build c = PackageConfig.build config0
                           ∧ Component._arch c = PackageConfig.arch config0)
                     (PackageConfig.all config0)) as [Hsorted Hall0].
    { destruct (placed_old _ _ _ _ _ _ _ Hplaced) as [Hin| ->].
      - apply (proj1 (Forall_forall _ _) Hold) in Hin as (_ & ? & ?). done.
      - split; [by repeat split | constructor]. }
    unfold key in Hk, Hk1. injection Hk as Ha Hb. injection Hk1 as Ha1 Hb1.
    split; [|split].
    - intros Hnil. rewrite Hnil in Hall1.
      apply Permutation_nil in Hall1. by destruct (PackageConfig.all config0).
    - by eapply add_component_sorted.
    - rewrite Hall1. apply Forall_app. split.
      + eapply Forall_impl; [exact Hall0|]. intros x (? & ? & ?).
        repeat split; congruence.
      + apply Forall_singleton. repeat split; congruence. }
  assert (Forall (bucket_filed n) (QtPackage.configurations package1)) as Hbuckets.
  { apply Forall_forall. intros x Hx.
    destruct (placed_elem _ _ _ _ _ _ _ _ Hplaced Hx) as [->|Hin]; [done|].
    by apply (proj1 (Forall_forall _ _) Hold). }
  assert (QtPackage.configurations package1 ≠ []) as Hne.
  { destruct (placed_length _ _ _ _ _ _ _ _ Hplaced Hk Hk1 Hall1) as [_ Hi].
    intros Hnil. by rewrite Hnil in Hi. }
  intros name package Hlook.
  destruct (decide (name = n)) as [->|Hneq].
  - rewrite lookup_insert_eq in Hlook. injection Hlook as <-.
    destruct (packages !! n) as [package0|] eqn:Hlook0.
    + destruct (Hfiled _ _ Hlook0) as (Hname0 & Hid0 & _).
      assert (QtPackage.name package1 = QtPackage.name package0
              ∧ QtPackage.id package1 = QtPackage.id package0) as [-> ->]
        by (by rewrite Hpackage).
      split; [done|]. split; [done|]. split; [exact Hne | exact Hbuckets].
    + assert (QtPackage.name package1 = Py.lower n
              ∧ QtPackage.id package1 = Py.lower (n +:+ "-" +:+ "msvc2013")) as [-> ->]
        by (by rewrite Hpackage).
      assert (Py.lower n = n) as Hlow by (rewrite Hn; apply file_to_package_lower).
      rewrite !lower_app, Hlow.
      split; [done|]. split; [reflexivity|]. split; [exact Hne | exact Hbuckets].
  - rewrite lookup_insert_ne in Hlook by done. by apply (Hfiled _ _ Hlook).
Qed.

Lemma ingest_path (qt_version : string) (packages packages1 : gmap string QtPackage.t)
    (c : Component.t) :
  ingest w qt_version packages c = Ok packages1 →
  Component._abspath <$> registry_artifacts packages1
  ≡ₚ (Component._abspath <$> registry_artifacts packages) ++ [Component._abspath c].
Proof.
  intros Hrun.
  apply ingest_inv in Hrun
    as (a & c1 & package1 & configs0 & config0 & config1 & i
        & Harch & -> & Hconfigs & Hplaced & Hk & Hadd).
  destruct (add_component_inv _ _ _ Hadd) as (Hk1 & Hall1 & _).
  destruct (arch_stable _ _ _ _ Harch) as [_ Hpath].
  pose proof (placed_artifacts _ _ _ _ _ _ _ _ Hplaced Hk Hk1 Hall1) as Hart.
  remember (Component.normalized_name c) as n eqn:Hn.
  rewrite <- Hpath, <- (fmap_app Component._abspath _ [c1]). apply fmap_Permutation.
  rewrite <- (insert_delete_eq packages).
  rewrite registry_artifacts_insert by apply lookup_delete_eq.
  unfold artifacts at 1. rewrite Hart, Hconfigs.
  destruct (packages !! n) as [package0|] eqn:Hlook; simpl.
  - rewrite (registry_artifacts_delete packages n package0 Hlook).
    unfold artifacts. rewrite <- !(assoc_L (++)). apply Permutation_app_head.
    apply Permutation_app_comm.
  - rewrite delete_id by done. apply Permutation_cons_append.
Qed.

End Filing.

Section IngestAll.
Context (w : World) (qt_version : string).

Lemma ingest_all_filed (components : list Component.t) :
  ∀ packages packages1,
    registry_filed packages →
    ingest_all w qt_version packages components = Ok packages1 →
    registry_filed packages1.
Proof.
  induction components as [|c components IH]; intros packages packages1 Hfiled;
    cbn [ingest_all].
  - by intros ->%Ok_inj.
  - destruct (ingest w qt_version packages c) as [packages0|e] eqn:Hone; cbn [bind]; [|done].
    apply IH. by eapply ingest_filed.
Qed.

Lemma ingest_all_paths (components : list Component.t) :
  ∀ packages packages1,
    ingest_all w qt_version packages components = Ok packages1 →
    Component._abspath <$> registry_artifacts packages1
    ≡ₚ (Component._abspath <$> registry_artifacts packages)
       ++ (Component._abspath <$> components).
Proof.
  induction components as [|c components IH]; intros packages packages1;
    cbn [ingest_all].
  - intros ->%Ok_inj. by rewrite app_nil_r.
  - destruct (ingest w qt_version packages c) as [packages0|e] eqn:Hone; cbn [bind]; [|done].
    intros Hrest%IH. rewrite Hrest, (ingest_path _ _ _ _ _ Hone), fmap_cons.
    by rewrite <- (assoc_L (++)).
Qed.

(** Ingestion fails only at classification. *)
Lemma ingest_result (packages : gmap string QtPackage.t) (c : Component.t) :
  match Component.type c with
  | Raise e => ingest w qt_version packages c = Raise e
  | Ok _ =>
      match Component.arch w c with
      | Raise e => ingest w qt_version packages c = Raise e
      | Ok _ => ∃ packages1, ingest w qt_version packages c = Ok packages1
      end
  end.
Proof.
  unfold ingest.
  destruct (Component.type c) as [k|e] eqn:Hty; cbn [bind]; [|done].
  destruct (Component.arch w c) as [[a c1]|e] eqn:Harch; cbn [bind]; [|done].
  destruct (arch_stable _ _ _ _ Harch) as [Harch1 Hpath].
  destruct (same_path c c1 Hpath) as (Hty1 & _ & _).
  assert (∀ config, ∃ config', PackageConfig.add_component config c1 = Ok config') as Hadd.
  { intros config. apply add_component_typed. exists k. congruence. }
  destruct (packages !! Component.normalized_name c1) as [package|].
  - rewrite Harch1. cbn [bind].
    destruct (get_config_update_ok package a (Component.build c1) _ Hadd) as [package1 Hput].
    destruct (QtPackage.get_config package a (Component.build c1)) as [j package0].
    rewrite Hput. cbn [bind]. eauto.
  - unfold QtPackage.from_component. rewrite Harch1. cbn [bind].
    set (fresh := QtPackage.init _ _).
    destruct (get_config_update_ok fresh a (Component.build c1) _ Hadd) as [package1 Hput].
    destruct (QtPackage.get_config fresh a (Component.build c1)) as [j package0].
    rewrite Hput. cbn [bind]. eauto.
Qed.

End IngestAll.

(** X14: how ingestion files the artifacts.  In the registry that the
    ingestion loop builds from nothing, every package is under its own
    name, its identity is that name with the tag [-msvc2013], it has at
    least one bucket and no bucket is empty; in every bucket the three
    lists hold artifacts of their kind, and every artifact has the logical
    name of the package, the build flavor of the bucket, and remembers the
    architecture of the bucket. *)
Theorem ingestion_files_artifacts (w : World) (qt_version : string)
    (components : list Component.t) (packages : gmap string QtPackage.t) :
  ingest_all w qt_version ∅ components = Ok packages →
  registry_filed packages.
Proof. apply ingest_all_filed, registry_filed_empty. Qed.

Lemma ingestion_files_artifacts_witness : registry_filed imports_registry.
Proof.
  apply (ingestion_files_artifacts imports_world "latest"
           (find_components imports_world "C:" "T")).
  vm_compute. reflexivity.
Defined.

(** X15: ingestion neither drops nor invents an artifact: when the loop
    returns, the paths of the artifacts in the registry are those that were
    there before together with the paths of the ingested components, each
    as often as it was ingested. *)
Theorem ingestion_keeps_paths (w : World) (qt_version : string)
    (components : list Component.t) (packages packages1 : gmap string QtPackage.t) :
  ingest_all w qt_version packages components = Ok packages1 →
  Component._abspath <$> registry_artifacts packages1
  ≡ₚ (Component._abspath <$> registry_artifacts packages)
     ++ (Component._abspath <$> components).
Proof. apply ingest_all_paths. Qed.

Lemma ingestion_keeps_paths_witness :
  Component._abspath <$> registry_artifacts imports_registry
  ≡ₚ (Component._abspath <$> registry_artifacts ∅)
     ++ (Component._abspath <$> find_components imports_world "C:" "T").
Proof.
  apply (ingestion_keeps_paths imports_world "latest"). vm_compute. reflexivity.
Defined.

(** X16: the ingestion of one artifact fails only at classification: it
    raises what [type] raises, else what [arch] raises, and when both
    return it returns; the registry itself rejects no artifact. *)
Theorem ingest_fails_only_at_classification (w : World) (qt_version : string)
    (packages : gmap string QtPackage.t) (c : Component.t) :
  (∀ e, Component.type c = Raise e → ingest w qt_version packages c = Raise e)
  ∧ (∀ k e, Component.type c = Ok k → Component.arch w c = Raise e →
       ingest w qt_version packages c = Raise e)
  ∧ (∀ k r, Component.type c = Ok k → Component.arch w c = Ok r →
       ∃ packages1, ingest w qt_version packages c = Ok packages1).
Proof.
  pose proof (ingest_result w qt_version packages c) as Hres.
  split; [|split].
  - intros e He. by rewrite He in Hres.
  - intros k e Hk He. by rewrite Hk, He in Hres.
  - intros k r Hk Hr. by rewrite Hk, Hr in Hres.
Qed.

Lemma ingest_fails_only_at_classification_witness :
  ingest pdb_world "latest" ∅ (Component.init (win ["C:"; "Qt"; "bin"; "Qt5Core.pdb"]) "T")
  = Raise (Exception "Cant find binary for symbol").
Proof.
  apply (proj1 (proj2 (ingest_fails_only_at_classification pdb_world "latest" ∅ _))
           Component.TYPE_SYMBOL); reflexivity.
Defined.

(** * More on the merge *)

Section MergeErrors.

(** The members before [m] are merged, then [m] is not found: it never was
    there, or it is one of those just merged and deleted. *)
Lemma merge_members_stops (targetname m : string) (post pre : list string) :
  ∀ (packages : gmap string QtPackage.t) (target : QtPackage.t),
    packages !! targetname = Some target →
    targetname ∉ pre → NoDup pre →
    (∀ x, x ∈ pre → member_typed packages x) →
    packages !! m = None ∨ m ∈ pre →
    merge_members packages targetname target (pre ++ m :: post) = Raise AssertionError.
Proof.
  induction pre as [|x pre IH]; intros packages target Ht Hnotin Hnd Htyped Hm.
  - destruct Hm as [Hm|Hm%elem_of_nil]; [|done]. simpl. by rewrite Hm.
  - apply not_elem_of_cons in Hnotin as [Hne Hnotin].
    apply NoDup_cons in Hnd as [Hx Hnd].
    destruct (Htyped x (list_elem_of_here _ _)) as (package & Hp & Hty).
    simpl. rewrite Hp, decide_False by done.
    destruct (transplant_ok (QtPackage.configurations package) target Hty) as [target1 ->].
    cbn [bind]. rewrite decide_True by (by rewrite Ht).
    apply IH; try done.
    + by rewrite lookup_delete_ne, lookup_insert_eq.
    + intros y Hy. unfold member_typed.
      rewrite lookup_delete_ne, lookup_insert_ne by (intros ->; done).
      apply Htyped. by apply list_elem_of_further.
    + destruct Hm as [Hm|[->|Hm]%elem_of_cons].
      * left. destruct (decide (x = m)) as [->|Hxm]; [apply lookup_delete_eq|].
        rewrite lookup_delete_ne, lookup_insert_ne; [done| |done].
        intros ->. congruence.
      * left. apply lookup_delete_eq.
      * by right.
Qed.

(** The first name of a list that is not a key. *)
Lemma first_missing (packages : gmap string QtPackage.t) (names : list string) :
  (∃ n, n ∈ names ∧ packages !! n = None) →
  ∃ pre m post,
    names = pre ++ m :: post
    ∧ packages !! m = None
    ∧ ∀ x, x ∈ pre → is_Some (packages !! x).
Proof.
  induction names as [|x names IH]; intros (n & Hn & Hnone).
  - by apply elem_of_nil in Hn.
  - destruct (packages !! x) as [p|] eqn:Hx.
    + apply elem_of_cons in Hn as [->|Hn]; [congruence|].
      destruct IH as (pre & m & post & -> & Hm & Hpre); [eauto|].
      exists (x :: pre), m, post. repeat split; [done|].
      intros y [->|Hy]%elem_of_cons; [by rewrite Hx | by apply Hpre].
    + exists [], x, names. repeat split; [done|]. by intros y Hy%elem_of_nil.
Qed.

Lemma merge_packages_missing (packages : gmap string QtPackage.t) (targetname : string)
    (members : list string) :
  NoDup (targetname :: members) →
  registry_wf packages →
  (∃ n, n ∈ targetname :: members ∧ packages !! n = None) →
  merge_packages packages targetname members = Raise AssertionError.
Proof.
  intros [Hnotin Hnd]%NoDup_cons Hwf (n & Hn & Hnone). unfold merge_packages.
  destruct (packages !! targetname) as [target|] eqn:Ht; [|done].
  apply elem_of_cons in Hn as [->|Hn]; [congruence|].
  destruct (first_missing packages members) as (pre & m & post & -> & Hm & Hpre); [eauto|].
  apply NoDup_app in Hnd as (Hnd & _ & _).
  apply merge_members_stops; try done.
  - intros Hin. apply Hnotin, elem_of_app. by left.
  - intros x Hx. by apply registry_wf_member, Hpre.
  - by left.
Qed.

End MergeErrors.

(** X17: the merge stops with an [AssertionError] when the target is no
    key of the registry, and when, the members before it being merged, a
    member is no key: because it never was one, or because it is listed a
    second time and was deleted at its first merge. *)
Theorem merge_asserts (packages : gmap string QtPackage.t) (targetname : string)
    (members : list string) :
  (packages !! targetname = None →
   merge_packages packages targetname members = Raise AssertionError)
  ∧ (∀ target pre m post,
       members = pre ++ m :: post →
       packages !! targetname = Some target →
       NoDup (targetname :: pre) →
       (∀ x, x ∈ pre → member_typed packages x) →
       packages !! m = None ∨ m ∈ pre →
       merge_packages packages targetname members = Raise AssertionError).
Proof.
  split.
  - intros Hnone. unfold merge_packages. by rewrite Hnone.
  - intros target pre m post -> Ht [Hnotin Hnd]%NoDup_cons Htyped Hm.
    unfold merge_packages. rewrite Ht. by apply merge_members_stops.
Qed.

Lemma merge_asserts_witness :
  merge_packages core_registry "qt5core" ["qtmain"; "qtmain"] = Raise AssertionError.
Proof.
  apply (proj2 (merge_asserts core_registry "qt5core" ["qtmain"; "qtmain"])
           (library_package "qt5core" "Qt5Core.lib") ["qtmain"] "qtmain" []).
  - reflexivity.
  - reflexivity.
  - apply (bool_decide_unpack _). by vm_compute.
  - intros x Hx. apply core_registry_typed. apply list_elem_of_singleton in Hx as ->.
    apply list_elem_of_here.
  - right. apply list_elem_of_here.
Defined.

Section MergeTable.

Lemma table_names_cons (target : string) (members : list string)
    (table : list (string * list string)) :
  table_names ((target, members) :: table) = target :: members ++ table_names table.
Proof. reflexivity. Qed.

Lemma table_members_names (table : list (string * list string)) (m : string) :
  m ∈ table_members table → m ∈ table_names table.
Proof.
  unfold table_members, table_names.
  intros ([t ms] & Hm & Hentry)%list_elem_of_bind. apply list_elem_of_bind.
  exists (t, ms). split; [|done]. by apply list_elem_of_further.
Qed.

Lemma table_entry_names (table : list (string * list string)) (t n : string)
    (ms : list string) :
  (t, ms) ∈ table → n ∈ t :: ms → n ∈ table_names table.
Proof. intros Hentry Hn. apply list_elem_of_bind. by exists (t, ms). Qed.

(** The merges of a table whose names are pairwise distinct, on a registry
    that holds them all. *)
Lemma merge_all_spec (table : list (string * list string)) :
  ∀ packages : gmap string QtPackage.t,
    NoDup (table_names table) →
    registry_wf packages →
    (∀ n, n ∈ table_names table → is_Some (packages !! n)) →
    ∃ packages',
      merge_all packages table = Ok packages'
      ∧ registry_wf packages'
      ∧ registry_artifacts packages' ≡ₚ registry_artifacts packages
      ∧ (∀ m, m ∈ table_members table → packages' !! m = None)
      ∧ (∀ k, k ∉ table_names table → packages' !! k = packages !! k)
      ∧ (∀ t ms, (t, ms) ∈ table →
           ∃ target target',
             packages !! t = Some target
             ∧ packages' !! t = Some target'
             ∧ target' = QtPackage.set_configurations target (QtPackage.configurations target')
             ∧ artifacts target' ≡ₚ artifacts target ++ (ms ≫= member_artifacts packages)).
Proof.
  induction table as [|[t ms] table IH]; intros packages Hnd Hwf Hall.
  - exists packages. split_and!; try done.
    + by intros m Hm%elem_of_nil.
    + by intros t ms Hentry%elem_of_nil.
  - rewrite table_names_cons in Hnd, Hall.
    change (t :: ms ++ table_names table) with ((t :: ms) ++ table_names table) in Hnd, Hall.
    apply NoDup_app in Hnd as (Hnd1 & Hdisj & Hnd2).
    destruct (Hall t) as [target Ht]; [apply elem_of_app; left; apply list_elem_of_here|].
    assert (∀ m, m ∈ ms → is_Some (packages !! m)) as Hms.
    { intros m Hm. apply Hall, elem_of_app. left. by apply list_elem_of_further. }
    destruct (merge_packages_spec packages t ms target Hnd1 Ht)
      as (packages1 & target1 & Hrun & Ht1 & Hset & Hgone & Hkeep & Hreg & Hart & _).
    { intros m Hm. by apply registry_wf_member, Hms. }
    assert (registry_wf packages1) as Hwf1 by by eapply merge_packages_wf.
    assert (∀ k, k ∈ table_names table → packages1 !! k = packages !! k) as Hsame.
    { intros k Hk. apply Hkeep.
      - intros ->. by apply (Hdisj t (list_elem_of_here _ _)).
      - intros Hm. by apply (Hdisj k (list_elem_of_further _ _ _ Hm)). }
    destruct (IH packages1 Hnd2 Hwf1)
      as (packages' & Hrest & Hwf' & Hreg' & Hgone' & Hkeep' & Htargets).
    { intros n Hn. rewrite (Hsame n Hn). apply Hall, elem_of_app. by right. }
    exists packages'. simpl. rewrite Hrun. cbn [bind]. split_and!; try done.
    + by rewrite Hreg'.
    + intros m [Hm|Hm]%elem_of_app.
      * rewrite Hkeep'; [by apply Hgone|].
        intros Hin. by apply (Hdisj m (list_elem_of_further _ _ _ Hm)).
      * by apply Hgone'.
    + intros k Hk. apply not_elem_of_cons in Hk as [Hkt Hk].
      apply not_elem_of_app in Hk as [Hkm Hk].
      rewrite (Hkeep' k Hk). by apply Hkeep.
    + intros t' ms' [[= -> ->]|Hentry]%elem_of_cons.
      * exists target, target1. split_and!; try done.
        rewrite Hkeep'; [done|]. by apply Hdisj, list_elem_of_here.
      * destruct (Htargets t' ms' Hentry) as (target0 & target' & H0 & H' & Hset' & Hart').
        exists target0, target'. split_and!; try done.
        -- rewrite <- Hsame; [done|]. eapply table_entry_names; [done|apply list_elem_of_here].
        -- rewrite Hart'. f_equiv.
           assert (ms' ≫= member_artifacts packages1 = ms' ≫= member_artifacts packages)
             as ->; [|done].
           apply bind_ext_in. intros m Hm.
           unfold member_artifacts. rewrite Hsame; [done|].
           eapply table_entry_names; [done|by apply list_elem_of_further].
Qed.

(** A table whose names are pairwise distinct cannot be merged into a
    registry that lacks one of them. *)
Lemma merge_all_missing (table : list (string * list string)) :
  ∀ packages : gmap string QtPackage.t,
    NoDup (table_names table) →
    registry_wf packages →
    (∃ n, n ∈ table_names table ∧ packages !! n = None) →
    merge_all packages table = Raise AssertionError.
Proof.
  induction table as [|[t ms] table IH]; intros packages Hnd Hwf (n & Hn & Hnone).
  - by apply elem_of_nil in Hn.
  - rewrite table_names_cons in Hnd, Hn.
    change (t :: ms ++ table_names table) with ((t :: ms) ++ table_names table) in Hnd, Hn.
    apply NoDup_app in Hnd as (Hnd1 & Hdisj & Hnd2). simpl.
    destruct (decide (Forall (λ k, is_Some (packages !! k)) (t :: ms))) as [Hall|Hhere].
    2: { apply not_Forall_Exists in Hhere; [|apply _].
         apply Exists_exists in Hhere as (k & Hk & Hlook).
         rewrite merge_packages_missing; [done..|].
         exists k. split; [done|]. by apply eq_None_not_Some. }
    + rewrite Forall_forall in Hall.
      destruct (Hall t (list_elem_of_here _ _)) as [target Ht].
      destruct (merge_packages_spec packages t ms target Hnd1 Ht)
        as (packages1 & target1 & Hrun & _ & _ & _ & Hkeep & _).
      { intros m Hm. by apply registry_wf_member, Hall, list_elem_of_further. }
      rewrite Hrun. cbn [bind]. apply IH; [done| |].
      * eapply merge_packages_wf; [done| |done|done].
        intros m Hm. by apply Hall, list_elem_of_further.
      * apply elem_of_app in Hn as [Hn|Hn].
        { destruct (Hall n Hn) as [p Hp]. congruence. }
        exists n. split; [done|]. rewrite Hkeep; [done| |].
        -- intros ->. by apply (Hdisj t (list_elem_of_here _ _)).
        -- intros Hm. by apply (Hdisj n (list_elem_of_further _ _ _ Hm)).
Qed.

Lemma merge_table_names_distinct (table : list (string * list string)) :
  table ≡ₚ MERGE_PACKAGES → NoDup (table_names table).
Proof.
  intros Hperm. unfold table_names. rewrite Hperm.
  apply (bool_decide_unpack _). by vm_compute.
Qed.

End MergeTable.

(** X18: the merge phase of [main] on an ingested registry that holds the
    sixteen names of the merge table, in whatever order the dict yields its
    six entries: every merge returns, the registry keeps its invariant and
    its artifacts as a multiset, its keys are the old keys without the ten
    member names, and every target holds its own artifacts and those of its
    members. *)
Theorem merge_table_applies (table : list (string * list string))
    (packages : gmap string QtPackage.t) :
  table ≡ₚ MERGE_PACKAGES →
  registry_wf packages →
  (∀ n, n ∈ table_names MERGE_PACKAGES → is_Some (packages !! n)) →
  ∃ packages',
    merge_all packages table = Ok packages'
    ∧ registry_wf packages'
    ∧ registry_artifacts packages' ≡ₚ registry_artifacts packages
    ∧ dom packages' = dom packages ∖ list_to_set (table_members MERGE_PACKAGES)
    ∧ (∀ t ms, (t, ms) ∈ MERGE_PACKAGES →
         ∃ target target',
           packages !! t = Some target
           ∧ packages' !! t = Some target'
           ∧ artifacts target' ≡ₚ artifacts target ++ (ms ≫= member_artifacts packages)).
Proof.
  intros Hperm Hwf Hall.
  assert (table_names table ≡ₚ table_names MERGE_PACKAGES) as Hnames.
  { unfold table_names. by rewrite Hperm. }
  assert (table_members table ≡ₚ table_members MERGE_PACKAGES) as Hmembers.
  { unfold table_members. by rewrite Hperm. }
  destruct (merge_all_spec table packages)
    as (packages' & Hrun & Hwf' & Hreg & Hgone & Hkeep & Htargets).
  { by apply merge_table_names_distinct. }
  { done. }
  { intros n Hn. apply Hall. by rewrite <- Hnames. }
  exists packages'. split_and!; try done.
  - apply set_eq. intros k. rewrite elem_of_difference, !elem_of_dom, elem_of_list_to_set.
    rewrite <- Hmembers.
    destruct (decide (k ∈ table_members table)) as [Hm|Hm].
    + rewrite (Hgone k Hm). split; [by intros [? ?]|by intros [_ []]].
    + destruct (decide (k ∈ table_names table)) as [Hn|Hn].
      * apply list_elem_of_bind in Hn as ([t ms] & Hk & Hentry). cbn [fst snd] in Hk.
        apply elem_of_cons in Hk as [->|Hk].
        -- destruct (Htargets t ms Hentry) as (target & target' & H0 & H' & _).
           rewrite H0, H'. split; [by intros _|by intros [? _]].
        -- destruct Hm. apply list_elem_of_bind. by exists (t, ms).
      * rewrite (Hkeep k Hn). naive_solver.
  - intros t ms Hentry. rewrite <- Hperm in Hentry.
    destruct (Htargets t ms Hentry) as (target & target' & H0 & H' & _ & Hart). eauto.
Qed.

Lemma merge_table_applies_witness :
  ∃ packages',
    merge_all static_registry (reverse MERGE_PACKAGES) = Ok packages'
    ∧ registry_wf packages'
    ∧ registry_artifacts packages' ≡ₚ registry_artifacts static_registry
    ∧ dom packages' = dom static_registry ∖ list_to_set (table_members MERGE_PACKAGES)
    ∧ (∀ t ms, (t, ms) ∈ MERGE_PACKAGES →
         ∃ target target',
           static_registry !! t = Some target
           ∧ packages' !! t = Some target'
           ∧ artifacts target' ≡ₚ artifacts target ++ (ms ≫= member_artifacts static_registry)).
Proof.
  apply (merge_table_applies (reverse MERGE_PACKAGES) static_registry).
  - apply reverse_Permutation.
  - apply (ingest_trees_wf static_world "latest" "T" ["C:"] ∅ static_registry).
    + apply registry_wf_empty.
    + vm_compute. reflexivity.
  - apply Forall_forall, (bool_decide_unpack _). vm_compute. reflexivity.
Defined.

(** X19: [main] needs the sixteen names of the merge table: when the
    ingestion of the trees returns a registry that lacks one of them, the
    merge phase raises an [AssertionError] and [main] returns nothing. *)
Theorem main_needs_merge_names (w : World) (qt_version tempdir : string)
    (qtpaths : list string) (packages : gmap string QtPackage.t) (n : string) :
  ingest_trees w qt_version ∅ qtpaths tempdir = Ok packages →
  n ∈ table_names MERGE_PACKAGES →
  packages !! n = None →
  main_packages w qt_version qtpaths tempdir = Raise AssertionError.
Proof.
  intros Hrun Hn Hnone. unfold main_packages. rewrite Hrun. cbn [bind].
  rewrite merge_all_missing; [done| | |by eauto].
  - by apply merge_table_names_distinct.
  - eapply ingest_trees_wf; [apply registry_wf_empty|done].
Qed.

Lemma main_needs_merge_names_witness :
  main_packages imports_world "latest" ["C:"] "T" = Raise AssertionError.
Proof.
  apply (main_needs_merge_names imports_world "latest" "T" ["C:"] imports_registry "qt5webkit").
  - vm_compute. reflexivity.
  - apply (bool_decide_unpack _). vm_compute. reflexivity.
  - vm_compute. reflexivity.
Defined.

(** * Logical names are plain names *)

Section PlainNames.
Import Py.
Local Open Scope Z_scope.

Lemma plain_name_intro (f : string) :
  ch_backslash ∉ chars f → ch_slash ∉ chars f → plain_name f = true.
Proof.
  intros Hbs Hsl. unfold plain_name. apply forallb_forall. intros c Hc%list_elem_of_In.
  rewrite andb_true_iff, !negb_true_iff, !eqc_false. split; by intros ->.
Qed.

(** Nothing after the last occurrence of a character is that character. *)
Lemma rfind_chars_after (c : ascii) (l : list ascii) :
  c ∉ drop (Z.to_nat (rfind_chars c l + 1)) l.
Proof.
  destruct (decide (c ∈ l)) as [Hin|Hout].
  - apply list_elem_of_split_r in Hin as (l1 & l2 & -> & Hlast).
    rewrite rfind_chars_app_last by done.
    rewrite cons_middle, (assoc_L (++)).
    rewrite drop_app_length'; [done|]. rewrite length_app. simpl. lia.
  - unfold rfind_chars. rewrite rfind_from_absent by done. simpl. by rewrite drop_0.
Qed.

Lemma drop_later_absent (c : ascii) (n m : nat) (l : list ascii) :
  (n ≤ m)%nat → c ∉ drop n l → c ∉ drop m l.
Proof.
  intros Hle Hout Hin. apply Hout.
  replace m with (n + (m - n))%nat in Hin by lia.
  rewrite <- drop_drop in Hin. by apply (subseteq_drop (m - n)).
Qed.

Lemma basename_plain (p : string) : plain_name (ospath.basename p) = true.
Proof.
  unfold ospath.basename, slice_from, slice_from_list, rfind.
  pose proof (rfind_chars_range ch_backslash (chars p)) as Hbs.
  pose proof (rfind_chars_range ch_slash (chars p)) as Hsl.
  rewrite slice_bound_in by lia.
  apply plain_name_intro; rewrite chars_text.
  - apply (drop_later_absent _ (Z.to_nat (rfind_chars ch_backslash (chars p) + 1)));
      [lia | apply rfind_chars_after].
  - apply (drop_later_absent _ (Z.to_nat (rfind_chars ch_slash (chars p) + 1)));
      [lia | apply rfind_chars_after].
Qed.

Lemma slice_list_subseteq (l : list ascii) (lo hi : Z) : slice_list l lo hi ⊆ l.
Proof.
  unfold slice_list. etransitivity; [apply subseteq_take | apply subseteq_drop].
Qed.

(** The characters of a logical name are lower-cased characters of the
    file name. *)
Lemma file_to_package_subseteq (filename : string) :
  ∃ l, chars (file_to_package filename) = lower_char <$> l ∧ l ⊆ chars filename.
Proof.
  assert (∃ l, chars (ospath.splitext filename).1 = l ∧ l ⊆ chars filename)
    as (root & Hroot & Hsub).
  { unfold ospath.splitext. destruct (_ && _); simpl.
    - eexists. split; [reflexivity|]. unfold slice. rewrite chars_text.
      apply slice_list_subseteq.
    - by eexists. }
  unfold file_to_package. destruct (endswith _ _).
  - exists (slice_list root 0 (-1)). split.
    + unfold slice. by rewrite chars_text, chars_lower, slice_list_fmap, Hroot.
    + etransitivity; [apply slice_list_subseteq | done].
  - exists root. split; [|done]. by rewrite chars_lower, Hroot.
Qed.

Lemma file_to_package_plain (filename : string) :
  plain_name filename = true → plain_name (file_to_package filename) = true.
Proof.
  intros [Hbs Hsl]%plain_name_absent.
  destruct (file_to_package_subseteq filename) as (l & Hl & Hsub).
  apply plain_name_intro; rewrite Hl; intros (y & Hy & Hin)%list_elem_of_fmap.
  - assert (eqc (lower_char y) ch_backslash = true) as Heq by (rewrite <- Hy; apply eqc_refl).
    rewrite eqc_lower_backslash in Heq. apply eqc_true in Heq as ->. by apply Hbs, Hsub.
  - assert (eqc (lower_char y) ch_slash = true) as Heq by (rewrite <- Hy; apply eqc_refl).
    rewrite eqc_lower_slash in Heq. apply eqc_true in Heq as ->. by apply Hsl, Hsub.
Qed.

Lemma normalized_name_plain (c : Component.t) :
  plain_name (Component.normalized_name c) = true.
Proof. apply file_to_package_plain, basename_plain. Qed.

End PlainNames.

(** * [main] from the trees to the registry *)

Section Main.
Context (w : World) (qt_version : string).

Lemma ingest_stamped (packages packages1 : gmap string QtPackage.t) (c : Component.t) :
  registry_stamped qt_version packages →
  ingest w qt_version packages c = Ok packages1 →
  registry_stamped qt_version packages1.
Proof.
  intros Hst Hrun.
  apply ingest_inv_full in Hrun
    as (k & a & c1 & package1 & config0 & config1 & i
        & _ & _ & -> & _ & _ & _ & Hpackage).
  remember (Component.normalized_name c) as n eqn:Hn.
  intros name package Hlook.
  destruct (decide (name = n)) as [->|Hneq].
  - rewrite lookup_insert_eq in Hlook. injection Hlook as <-.
    destruct (packages !! n) as [package0|] eqn:Hlook0.
    + destruct (Hst _ _ Hlook0) as (Hplain0 & Hname0 & Hid0 & Hv0).
      assert (QtPackage.name package1 = QtPackage.name package0
              ∧ QtPackage.id package1 = QtPackage.id package0
              ∧ QtPackage.version package1 = QtPackage.version package0) as (-> & -> & ->)
        by (by rewrite Hpackage).
      done.
    + assert (QtPackage.name package1 = Py.lower n
              ∧ QtPackage.id package1 = Py.lower (n +:+ "-" +:+ "msvc2013")
              ∧ QtPackage.version package1
                = if decide (qt_version = "latest") then QT_LATEST else qt_version)
        as (-> & -> & ->)
        by (by rewrite Hpackage).
      assert (Py.lower n = n) as Hlow by (rewrite Hn; apply file_to_package_lower).
      rewrite !lower_app, Hlow.
      split; [rewrite Hn; apply normalized_name_plain|].
      split; [done|]. split; reflexivity.
  - rewrite lookup_insert_ne in Hlook by done. by apply (Hst _ _ Hlook).
Qed.

Lemma ingest_all_stamped (components : list Component.t) :
  ∀ packages packages1,
    registry_stamped qt_version packages →
    ingest_all w qt_version packages components = Ok packages1 →
    registry_stamped qt_version packages1.
Proof.
  induction components as [|c components IH]; intros packages packages1 Hst;
    cbn [ingest_all].
  - by intros ->%Ok_inj.
  - destruct (ingest w qt_version packages c) as [packages0|e] eqn:Hone; cbn [bind]; [|done].
    apply IH. by eapply ingest_stamped.
Qed.

Lemma ingest_trees_stamped (tempdir : string) (qtpaths : list string) :
  ∀ packages packages1,
    registry_stamped qt_version packages →
    ingest_trees w qt_version packages qtpaths tempdir = Ok packages1 →
    registry_stamped qt_version packages1.
Proof.
  induction qtpaths as [|qtpath qtpaths IH]; intros packages packages1 Hst;
    cbn [ingest_trees].
  - by intros ->%Ok_inj.
  - destruct (ingest_all w qt_version packages _) as [packages0|e] eqn:Hone;
      cbn [bind]; [|done].
    apply IH. by eapply ingest_all_stamped.
Qed.

Lemma ingest_trees_paths (tempdir : string) (qtpaths : list string) :
  ∀ packages packages1,
    ingest_trees w qt_version packages qtpaths tempdir = Ok packages1 →
    registry_paths packages1
    ≡ₚ registry_paths packages
       ++ (Component._abspath <$> tree_components w qtpaths tempdir).
Proof.
  induction qtpaths as [|qtpath qtpaths IH]; intros packages packages1;
    cbn [ingest_trees].
  - intros ->%Ok_inj. unfold tree_components. simpl. by rewrite app_nil_r.
  - destruct (ingest_all w qt_version packages _) as [packages0|e] eqn:Hone;
      cbn [bind]; [|done].
    intros Hrest%IH. rewrite Hrest. unfold registry_paths.
    rewrite (ingest_all_paths _ _ _ _ _ Hone).
    unfold tree_components. rewrite bind_cons, fmap_app.
    by rewrite <- (assoc_L (++)).
Qed.

(** A table with pairwise distinct names is merged only into a registry
    that holds them all. *)
Lemma merge_all_inv (table : list (string * list string))
    (packages packages' : gmap string QtPackage.t) :
  NoDup (table_names table) →
  registry_wf packages →
  merge_all packages table = Ok packages' →
  (∀ n, n ∈ table_names table → is_Some (packages !! n))
  ∧ registry_artifacts packages' ≡ₚ registry_artifacts packages
  ∧ (∀ m, m ∈ table_members table → packages' !! m = None)
  ∧ (∀ k, k ∉ table_names table → packages' !! k = packages !! k)
  ∧ (∀ t ms, (t, ms) ∈ table →
       ∃ target target',
         packages !! t = Some target
         ∧ packages' !! t = Some target'
         ∧ target' = QtPackage.set_configurations target (QtPackage.configurations target')).
Proof.
  intros Hnd Hwf Hrun.
  destruct (decide (Forall (λ n, is_Some (packages !! n)) (table_names table)))
    as [Hall|Hmiss].
  - rewrite Forall_forall in Hall.
    destruct (merge_all_spec table packages Hnd Hwf Hall)
      as (packages2 & Hrun2 & _ & Hreg & Hgone & Hkeep & Htargets).
    rewrite Hrun in Hrun2. apply Ok_inj in Hrun2 as <-.
    split_and!; try done.
    intros t ms Hentry.
    destruct (Htargets t ms Hentry) as (target & target' & ? & ? & ? & _). eauto.
  - apply not_Forall_Exists in Hmiss; [|apply _].
    apply Exists_exists in Hmiss as (n & Hn & Hlook).
    rewrite merge_all_missing in Hrun; [done..|].
    exists n. split; [done|]. by apply eq_None_not_Some.
Qed.

Lemma merge_all_stamped (table : list (string * list string))
    (packages packages' : gmap string QtPackage.t) :
  NoDup (table_names table) →
  registry_wf packages →
  registry_stamped qt_version packages →
  merge_all packages table = Ok packages' →
  registry_stamped qt_version packages'.
Proof.
  intros Hnd Hwf Hst Hrun.
  destruct (merge_all_inv table packages packages' Hnd Hwf Hrun)
    as (_ & _ & Hgone & Hkeep & Htargets).
  intros name package Hlook.
  destruct (decide (name ∈ table_names table)) as [Hn|Hn].
  - apply list_elem_of_bind in Hn as ([t ms] & Hk & Hentry). cbn [fst snd] in Hk.
    apply elem_of_cons in Hk as [->|Hk].
    + destruct (Htargets t ms Hentry) as (target & target' & H0 & H' & Hset).
      rewrite H' in Hlook. injection Hlook as <-.
      destruct (Hst _ _ H0) as (Hplain0 & Hname0 & Hid0 & Hv0).
      assert (QtPackage.name target' = QtPackage.name target
              ∧ QtPackage.id target' = QtPackage.id target
              ∧ QtPackage.version target' = QtPackage.version target) as (-> & -> & ->)
        by (by rewrite Hset).
      done.
    + rewrite Hgone in Hlook; [done|]. apply list_elem_of_bind. by exists (t, ms).
  - rewrite (Hkeep name Hn) in Hlook. by apply (Hst _ _ Hlook).
Qed.

Lemma same_bucket_paths (config config' : PackageConfig.t) :
  same_bucket config config' →
  Component._abspath <$> PackageConfig.all config'
  = Component._abspath <$> PackageConfig.all config.
Proof.
  intros (_ & Hsym & Hlib & Hbin). unfold PackageConfig.all.
  rewrite !fmap_app, Hsym, Hlib. f_equal.
  induction Hbin as [|b b' bs bs' (_ & Hpath & _) _ IH]; [done|].
  rewrite !fmap_cons. by f_equal.
Qed.

Lemma same_buckets_paths (configs configs' : list PackageConfig.t) :
  Forall2 same_bucket configs configs' →
  Component._abspath <$> (configs' ≫= PackageConfig.all)
  = Component._abspath <$> (configs ≫= PackageConfig.all).
Proof.
  induction 1 as [|config config' configs configs' Hone _ IH]; [done|].
  rewrite !bind_cons, !fmap_app. f_equal; [by apply same_bucket_paths | done].
Qed.

(** Registries with the same keys and, under each key, packages with the
    same buckets but for the remembered import lists, hold the same paths. *)
Lemma registry_paths_pointwise (m : gmap string QtPackage.t) :
  ∀ m' : gmap string QtPackage.t,
    (∀ k,
       match m !! k with
       | Some p =>
           ∃ p', m' !! k = Some p'
                 ∧ Forall2 same_bucket (QtPackage.configurations p)
                     (QtPackage.configurations p')
       | None => m' !! k = None
       end) →
    registry_paths m' ≡ₚ registry_paths m.
Proof.
  induction m as [|i x m Hi IH] using map_ind; intros m' Hrel.
  - assert (m' = ∅) as ->; [|done].
    apply map_empty. intros k. specialize (Hrel k). by rewrite lookup_empty in Hrel.
  - pose proof (Hrel i) as Hrel_i. rewrite lookup_insert_eq in Hrel_i.
    destruct Hrel_i as (x' & Hx' & Hsame).
    unfold registry_paths.
    rewrite (registry_artifacts_delete m' i x' Hx'), (registry_artifacts_insert m i x Hi).
    rewrite !fmap_app. unfold artifacts.
    rewrite (same_buckets_paths _ _ Hsame). apply Permutation_app_head.
    apply IH. intros k. destruct (decide (k = i)) as [->|Hne].
    + rewrite Hi. apply lookup_delete_eq.
    + specialize (Hrel k). rewrite lookup_insert_ne in Hrel by done.
      by rewrite lookup_delete_ne.
Qed.

Lemma pass_inv (packages packages' : gmap string QtPackage.t) :
  compute_dependencies w packages = Ok packages' →
  ∀ k,
    match packages !! k with
    | Some p =>
        ∃ p', packages' !! k = Some p'
              ∧ QtPackage.id p' = QtPackage.id p
              ∧ QtPackage.name p' = QtPackage.name p
              ∧ QtPackage.version p' = QtPackage.version p
              ∧ Forall2 same_bucket (QtPackage.configurations p) (QtPackage.configurations p')
    | None => packages' !! k = None
    end.
Proof.
  intros Hrun k. pose proof (compute_dependencies_fold w packages) as Hfold.
  rewrite Hrun in Hfold. specialize (Hfold k).
  destruct (packages !! k) as [p|]; [|done].
  destruct Hfold as (p' & Hone & Hlook).
  apply package_dependencies_inv in Hone as (? & ? & ? & ? & _). eauto 10.
Qed.

Lemma registry_stamped_empty : registry_stamped qt_version ∅.
Proof. intros name package Hlook. by rewrite lookup_empty in Hlook. Qed.

(** The three phases of [main], when it returns. *)
Lemma main_packages_inv (qtpaths : list string) (tempdir : string)
    (packages : gmap string QtPackage.t) :
  main_packages w qt_version qtpaths tempdir = Ok packages →
  ∃ ingested merged,
    ingest_trees w qt_version ∅ qtpaths tempdir = Ok ingested
    ∧ merge_all ingested MERGE_PACKAGES = Ok merged
    ∧ compute_dependencies w merged = Ok packages.
Proof.
  unfold main_packages.
  destruct (ingest_trees w qt_version ∅ qtpaths tempdir) as [ingested|e]; cbn [bind]; [|done].
  destruct (merge_all ingested MERGE_PACKAGES) as [merged|e] eqn:Hmerge; cbn [bind]; [|done].
  intros Hrun. by exists ingested, merged.
Qed.

End Main.

Section MainResult.
Context (w : World) (qt_version : string).

Lemma main_packages_stamped (qtpaths : list string) (tempdir : string)
    (packages : gmap string QtPackage.t) :
  main_packages w qt_version qtpaths tempdir = Ok packages →
  registry_stamped qt_version packages.
Proof.
  intros (ingested & merged & Hingest & Hmerge & Hpass)%main_packages_inv.
  assert (registry_stamped qt_version merged) as Hst.
  { eapply merge_all_stamped; [|  | |exact Hmerge].
    - by apply merge_table_names_distinct.
    - eapply ingest_trees_wf; [apply registry_wf_empty|exact Hingest].
    - eapply ingest_trees_stamped; [apply registry_stamped_empty|exact Hingest]. }
  intros name package Hlook.
  pose proof (pass_inv w merged packages Hpass name) as Hinv.
  destruct (merged !! name) as [p|] eqn:Hp; [|congruence].
  destruct Hinv as (p' & Hp' & Hid & Hname & Hv & _).
  rewrite Hlook in Hp'. injection Hp' as <-.
  destruct (Hst _ _ Hp) as (? & ? & ? & ?). split_and!; congruence.
Qed.

End MainResult.

(** X20: what [main] returns. When the three phases return, every package
    of the registry is under its own name, a name without a path
    separator, its identity is the name with the tag [-msvc2013] and its version
    the one asked for ([QT_LATEST] for ['latest']); no member name of the
    merge table is a key, every target name is; and the paths of the
    artifacts in the registry are the paths of the components discovered in
    the trees, each as often as it was discovered. *)
Theorem main_result (w : World) (qt_version tempdir : string) (qtpaths : list string)
    (packages : gmap string QtPackage.t) :
  main_packages w qt_version qtpaths tempdir = Ok packages →
  registry_stamped qt_version packages
  ∧ (∀ m, m ∈ table_members MERGE_PACKAGES → packages !! m = None)
  ∧ (∀ t ms, (t, ms) ∈ MERGE_PACKAGES → is_Some (packages !! t))
  ∧ registry_paths packages ≡ₚ Component._abspath <$> tree_components w qtpaths tempdir.
Proof.
  intros Hrun. split; [by eapply main_packages_stamped|].
  apply main_packages_inv in Hrun as (ingested & merged & Hingest & Hmerge & Hpass).
  assert (registry_wf ingested) as Hwf
    by (eapply ingest_trees_wf; [apply registry_wf_empty|exact Hingest]).
  destruct (merge_all_inv MERGE_PACKAGES ingested merged
              (merge_table_names_distinct _ (reflexivity _)) Hwf Hmerge)
    as (_ & Hreg & Hgone & _ & Htargets).
  pose proof (pass_inv w merged packages Hpass) as Hinv.
  split_and!.
  - intros m Hm. specialize (Hinv m). by rewrite (Hgone m Hm) in Hinv.
  - intros t ms Hentry. destruct (Htargets t ms Hentry) as (target & target' & _ & H' & _).
    specialize (Hinv t). rewrite H' in Hinv. destruct Hinv as (p' & -> & _). done.
  - rewrite (registry_paths_pointwise merged packages).
    + unfold registry_paths at 1. rewrite Hreg.
      change (Component._abspath <$> registry_artifacts ingested)
        with (registry_paths ingested).
      by rewrite (ingest_trees_paths w qt_version tempdir qtpaths ∅ ingested Hingest).
    + intros k. specialize (Hinv k). destruct (merged !! k) as [p|]; [|done].
      destruct Hinv as (p' & ? & _ & _ & _ & ?). eauto.
Qed.

Lemma main_result_witness :
  registry_stamped "latest" static_result
  ∧ (∀ m, m ∈ table_members MERGE_PACKAGES → static_result !! m = None)
  ∧ (∀ t ms, (t, ms) ∈ MERGE_PACKAGES → is_Some (static_result !! t))
  ∧ registry_paths static_result
    ≡ₚ Component._abspath <$> tree_components static_world ["C:"] "T".
Proof.
  apply (main_result static_world "latest" "T" ["C:"] static_result).
  vm_compute. reflexivity.
Defined.

(** * The descriptors, their logs and the copies *)

Section Packaging.
Import Py.

Lemma flat_map_elem {A B} (f : A → list B) (l : list A) (y : B) :
  y ∈ flat_map f l ↔ ∃ x, x ∈ l ∧ y ∈ f x.
Proof.
  rewrite list_elem_of_In, in_flat_map. split; intros (x & Hx & Hy); exists x.
  - by rewrite !list_elem_of_In.
  - by rewrite <- !list_elem_of_In.
Qed.

Lemma write_nupkgs_elem (listing : list string) (command logfilename : string) :
  (command, logfilename) ∈ write_nupkgs listing
  ↔ ∃ filename,
      filename ∈ listing
      ∧ endswith filename ".autopkg" = true
      ∧ command = "powershell Write-NuGetPackage " +:+ filename
      ∧ logfilename = (ospath.splitext filename).1 +:+ ".log".
Proof.
  unfold write_nupkgs. rewrite flat_map_elem. split.
  - intros (filename & Hin & Hy). exists filename.
    destruct (endswith filename ".autopkg"); [|by apply elem_of_nil in Hy].
    apply list_elem_of_singleton in Hy. by injection Hy as -> ->.
  - intros (filename & Hin & Hends & -> & ->). exists filename. split; [done|].
    rewrite Hends. apply list_elem_of_here.
Qed.

Lemma copy_packages_elem (source destination : string) (listing : list string)
    (src dst : string) :
  (src, dst) ∈ copy_packages source destination listing
  ↔ ∃ filename,
      filename ∈ listing
      ∧ (ospath.splitext filename).2 ∈ [".autopkg"; ".log"; ".nupkg"]
      ∧ src = ospath.join source filename
      ∧ dst = ospath.join destination filename.
Proof.
  unfold copy_packages. rewrite flat_map_elem. split.
  - intros (filename & Hin & Hy). exists filename.
    case_bool_decide as Hext; [|by apply elem_of_nil in Hy].
    apply list_elem_of_singleton in Hy. by injection Hy as -> ->.
  - intros (filename & Hin & Hext & -> & ->). exists filename. split; [done|].
    rewrite bool_decide_eq_true_2 by done. apply list_elem_of_here.
Qed.

Lemma join_inj (dirpath f g : string) : ospath.join dirpath f = ospath.join dirpath g → f = g.
Proof.
  unfold ospath.join. intros H%(inj (String.app dirpath)). by apply (inj (String.app _)) in H.
Qed.

Lemma app_inj_tail (s1 s2 t : string) : s1 +:+ t = s2 +:+ t → s1 = s2.
Proof.
  intros H. apply chars_inj. apply (f_equal chars) in H. rewrite !chars_app in H.
  by apply app_inv_tail in H.
Qed.

(** The root of a name that ends in [.autopkg] has a character other than
    a dot, whether or not the suffix is taken as the extension. *)
Lemma autopkg_root (pre : string) :
  plain_name pre = true →
  ospath.splitext (pre +:+ ".autopkg")
  = (if has_stem pre then (pre, ".autopkg") else (pre +:+ ".autopkg", ""))
  ∧ has_stem (ospath.splitext (pre +:+ ".autopkg")).1 = true.
Proof.
  intros Hpre. change ".autopkg" with ("." +:+ "autopkg").
  destruct (has_stem pre) eqn:Hstem.
  - by rewrite splitext_ext.
  - rewrite splitext_no_stem by done. split; [done|]. simpl.
    change (pre +:+ "." +:+ "autopkg") with (pre +:+ ".autopk" +:+ String "g" "").
    rewrite <- append_assoc. by apply has_stem_app_char.
Qed.

End Packaging.

(** X21: [write_nupkgs] and [copy_packages] on a listed plain name
    [pre.autopkg]: the descriptor is given to the packager with the log
    file [root.log], [root] being what [splitext] leaves of the name; the
    extension of that log is [.log], so it is copied whenever it is listed;
    the descriptor itself is copied exactly when [pre] has a character other
    than a dot, so a file named [.autopkg] is packaged and left behind. *)
Theorem packaging_outputs (source destination pre : string) (listing : list string) :
  plain_name pre = true →
  pre +:+ ".autopkg" ∈ listing →
  ("powershell Write-NuGetPackage " +:+ (pre +:+ ".autopkg"),
   (ospath.splitext (pre +:+ ".autopkg")).1 +:+ ".log") ∈ write_nupkgs listing
  ∧ (ospath.splitext ((ospath.splitext (pre +:+ ".autopkg")).1 +:+ ".log")).2 = ".log"
  ∧ (∀ listing',
       (ospath.splitext (pre +:+ ".autopkg")).1 +:+ ".log" ∈ listing' →
       (ospath.join source ((ospath.splitext (pre +:+ ".autopkg")).1 +:+ ".log"),
        ospath.join destination ((ospath.splitext (pre +:+ ".autopkg")).1 +:+ ".log"))
       ∈ copy_packages source destination listing')
  ∧ ((ospath.join source (pre +:+ ".autopkg"), ospath.join destination (pre +:+ ".autopkg"))
     ∈ copy_packages source destination listing
     ↔ has_stem pre = true).
Proof.
  intros Hpre Hin. destruct (autopkg_root pre Hpre) as [Hsplit Hroot].
  set (root := (ospath.splitext (pre +:+ ".autopkg")).1) in *.
  assert (ospath.splitext (root +:+ ".log") = (root, ".log")) as Hlog.
  { change ".log" with ("." +:+ "log"). by apply splitext_ext. }
  split_and!.
  - apply write_nupkgs_elem. exists (pre +:+ ".autopkg").
    split_and!; [done|apply endswith_app|done|done].
  - by rewrite Hlog.
  - intros listing' Hin'. apply copy_packages_elem. exists (root +:+ ".log").
    split_and!; [done| |done|done]. rewrite Hlog. simpl. set_solver.
  - rewrite copy_packages_elem. split.
    + intros (filename & _ & Hext & Hsrc%join_inj & _). subst filename.
      rewrite Hsplit in Hext. destruct (has_stem pre); [done|].
      simpl in Hext. set_solver.
    + intros Hstem. exists (pre +:+ ".autopkg"). split_and!; [done| |done|done].
      rewrite Hsplit, Hstem. simpl. set_solver.
Qed.

Lemma packaging_outputs_witness :
  ("powershell Write-NuGetPackage " +:+ ("qt5gui-msvc2013" +:+ ".autopkg"),
   (ospath.splitext ("qt5gui-msvc2013" +:+ ".autopkg")).1 +:+ ".log")
  ∈ write_nupkgs ["qt5gui-msvc2013.autopkg"; "qt5gui-msvc2013.nupkg"]
  ∧ (ospath.splitext ((ospath.splitext ("qt5gui-msvc2013" +:+ ".autopkg")).1 +:+ ".log")).2
    = ".log"
  ∧ (∀ listing',
       (ospath.splitext ("qt5gui-msvc2013" +:+ ".autopkg")).1 +:+ ".log" ∈ listing' →
       (ospath.join "T" ((ospath.splitext ("qt5gui-msvc2013" +:+ ".autopkg")).1 +:+ ".log"),
        ospath.join "out" ((ospath.splitext ("qt5gui-msvc2013" +:+ ".autopkg")).1 +:+ ".log"))
       ∈ copy_packages "T" "out" listing')
  ∧ ((ospath.join "T" ("qt5gui-msvc2013" +:+ ".autopkg"),
      ospath.join "out" ("qt5gui-msvc2013" +:+ ".autopkg"))
     ∈ copy_packages "T" "out" ["qt5gui-msvc2013.autopkg"; "qt5gui-msvc2013.nupkg"]
     ↔ has_stem "qt5gui-msvc2013" = true).
Proof.
  apply (packaging_outputs "T" "out" "qt5gui-msvc2013"
           ["qt5gui-msvc2013.autopkg"; "qt5gui-msvc2013.nupkg"]).
  - reflexivity.
  - apply list_elem_of_here.
Defined.

(** X22: the descriptor of every package that [main] returns.  It is
    written as [name-msvc2013.autopkg] directly in the working directory,
    no two packages share it, and when the directory lists it
    [write_nupkgs] gives it to the packager with the log
    [name-msvc2013.log], and [copy_packages] copies the descriptor and,
    once listed, the log. *)
Theorem main_descriptors (w : World) (qt_version tempdir : string) (qtpaths : list string)
    (packages : gmap string QtPackage.t) (name : string) (package : QtPackage.t)
    (source destination : string) (listing : list string) :
  main_packages w qt_version qtpaths tempdir = Ok packages →
  packages !! name = Some package →
  autopkgfile tempdir package = ospath.join tempdir (name +:+ "-msvc2013.autopkg")
  ∧ ospath.basename (autopkgfile tempdir package) = name +:+ "-msvc2013.autopkg"
  ∧ (∀ name' package',
       packages !! name' = Some package' →
       autopkgfile tempdir package' = autopkgfile tempdir package → name' = name)
  ∧ (name +:+ "-msvc2013.autopkg" ∈ listing →
     ("powershell Write-NuGetPackage " +:+ (name +:+ "-msvc2013.autopkg"),
      name +:+ "-msvc2013.log") ∈ write_nupkgs listing
     ∧ (ospath.join source (name +:+ "-msvc2013.autopkg"),
        ospath.join destination (name +:+ "-msvc2013.autopkg"))
       ∈ copy_packages source destination listing)
  ∧ (name +:+ "-msvc2013.log" ∈ listing →
     (ospath.join source (name +:+ "-msvc2013.log"),
      ospath.join destination (name +:+ "-msvc2013.log"))
     ∈ copy_packages source destination listing).
Proof.
  intros Hst%main_packages_stamped Hlook.
  destruct (Hst _ _ Hlook) as (Hplain & _ & Hid & _).
  assert (∀ n p, packages !! n = Some p →
            autopkgfile tempdir p = ospath.join tempdir (n +:+ "-msvc2013.autopkg")) as Hfile.
  { intros n p Hp. destruct (Hst _ _ Hp) as (_ & _ & Hidp & _).
    unfold autopkgfile. by rewrite Hidp, append_assoc. }
  assert (has_stem (name +:+ "-msvc2013") = true) as Hstem.
  { change (name +:+ "-msvc2013") with (name +:+ "-msvc201" +:+ String "3" "").
    rewrite <- append_assoc. by apply has_stem_app_char. }
  assert (∀ x, plain_suffix x = true →
            ospath.splitext (name +:+ "-msvc2013" +:+ "." +:+ x)
            = (name +:+ "-msvc2013", "." +:+ x)) as Hsplit.
  { intros x Hx. rewrite <- append_assoc. by apply splitext_ext. }
  split_and!.
  - by apply Hfile.
  - rewrite (Hfile _ _ Hlook). apply basename_join. by rewrite plain_name_app, Hplain.
  - intros name' package' Hlook' Heq.
    rewrite (Hfile _ _ Hlook), (Hfile _ _ Hlook') in Heq.
    apply join_inj in Heq. by apply app_inj_tail in Heq.
  - intros Hin. split.
    + apply write_nupkgs_elem. exists (name +:+ "-msvc2013.autopkg").
      split_and!; [done| |done|].
      { change (name +:+ "-msvc2013.autopkg") with (name +:+ "-msvc2013" +:+ ".autopkg").
        rewrite <- append_assoc. apply endswith_app. }
      change (name +:+ "-msvc2013.autopkg") with (name +:+ "-msvc2013" +:+ "." +:+ "autopkg").
      rewrite Hsplit by done. simpl. by rewrite append_assoc.
    + apply copy_packages_elem. exists (name +:+ "-msvc2013.autopkg").
      split_and!; [done| |done|done].
      change (name +:+ "-msvc2013.autopkg") with (name +:+ "-msvc2013" +:+ "." +:+ "autopkg").
      rewrite Hsplit by done. simpl. set_solver.
  - intros Hin. apply copy_packages_elem. exists (name +:+ "-msvc2013.log").
    split_and!; [done| |done|done].
    change (name +:+ "-msvc2013.log") with (name +:+ "-msvc2013" +:+ "." +:+ "log").
    rewrite Hsplit by done. simpl. set_solver.
Qed.

Lemma main_descriptors_witness :
  autopkgfile "T" static_gui = ospath.join "T" ("qt5gui" +:+ "-msvc2013.autopkg")
  ∧ ospath.basename (autopkgfile "T" static_gui) = "qt5gui" +:+ "-msvc2013.autopkg"
  ∧ (∀ name' package',
       static_result !! name' = Some package' →
       autopkgfile "T" package' = autopkgfile "T" static_gui → name' = "qt5gui")
  ∧ ("qt5gui" +:+ "-msvc2013.autopkg" ∈ ["qt5gui-msvc2013.autopkg"] →
     ("powershell Write-NuGetPackage " +:+ ("qt5gui" +:+ "-msvc2013.autopkg"),
      "qt5gui" +:+ "-msvc2013.log") ∈ write_nupkgs ["qt5gui-msvc2013.autopkg"]
     ∧ (ospath.join "T" ("qt5gui" +:+ "-msvc2013.autopkg"),
        ospath.join "out" ("qt5gui" +:+ "-msvc2013.autopkg"))
       ∈ copy_packages "T" "out" ["qt5gui-msvc2013.autopkg"])
  ∧ ("qt5gui" +:+ "-msvc2013.log" ∈ ["qt5gui-msvc2013.autopkg"] →
     (ospath.join "T" ("qt5gui" +:+ "-msvc2013.log"),
      ospath.join "out" ("qt5gui" +:+ "-msvc2013.log"))
     ∈ copy_packages "T" "out" ["qt5gui-msvc2013.autopkg"]).
Proof.
  apply (main_descriptors static_world "latest" "T" ["C:"] static_result "qt5gui" static_gui
           "T" "out" ["qt5gui-msvc2013.autopkg"]).
  - vm_compute. reflexivity.
  - vm_compute. reflexivity.
Defined.

(** * The helpers of [main] before the ingestion *)

Section Helpers.
Import Py.

Lemma head_filter_first {A} (P : A → Prop) `{∀ x, Decision (P x)} (l : list A) :
  match head (filter P l) with
  | Some x => ∃ pre post, l = pre ++ x :: post ∧ P x ∧ ∀ y, y ∈ pre → ¬ P y
  | None => ∀ y, y ∈ l → ¬ P y
  end.
Proof.
  induction l as [|a l IH]; [by intros y Hy%elem_of_nil|].
  rewrite filter_cons. destruct (decide (P a)) as [Ha|Ha]; simpl.
  - exists [], l. split_and!; [done|done|]. by intros y Hy%elem_of_nil.
  - destruct (head (filter P l)) as [x|].
    + destruct IH as (pre & post & -> & Hx & Hpre). exists (a :: pre), post.
      split_and!; [done|done|]. intros y [->|Hy]%elem_of_cons; auto.
    + intros y [->|Hy]%elem_of_cons; auto.
Qed.

Lemma find_essentials_first (entries : list (string * list string * list string)) :
  match find_essentials entries with
  | Some found =>
      ∃ before dirpath dirnames pre filename post after,
        entries = before ++ (dirpath, dirnames, pre ++ filename :: post) :: after
        ∧ found = ospath.join dirpath filename
        ∧ essentials_name filename
        ∧ (∀ f, f ∈ pre → ¬ essentials_name f)
        ∧ (∀ entry f, entry ∈ before → f ∈ entry.2 → ¬ essentials_name f)
  | None => ∀ entry f, entry ∈ entries → f ∈ entry.2 → ¬ essentials_name f
  end.
Proof.
  induction entries as [|[[dirpath dirnames] filenames] entries IH]; simpl.
  - by intros entry f Hentry%elem_of_nil.
  - unfold essentials_in.
    pose proof (head_filter_first essentials_name filenames) as Hhead.
    unfold essentials_name in Hhead at 1.
    destruct (head (filter _ filenames)) as [filename|]; simpl.
    + destruct Hhead as (pre & post & -> & Hfits & Hpre).
      exists [], dirpath, dirnames, pre, filename, post, entries.
      split_and!; try done. by intros entry f Hentry%elem_of_nil.
    + destruct (find_essentials entries) as [found|].
      * destruct IH as (before & dp & dn & pre & filename & post & after
                        & -> & -> & Hfits & Hpre & Hbefore).
        exists ((dirpath, dirnames, filenames) :: before), dp, dn, pre, filename, post, after.
        split_and!; try done.
        intros entry f [->|Hentry]%elem_of_cons Hf; [by apply Hhead|by eapply Hbefore].
      * intros entry f [->|Hentry]%elem_of_cons Hf; [by apply Hhead|by eapply IH].
Qed.

End Helpers.

(** X23: [find_essentials_7z] returns the first file of the walk, in the
    order of the directories and of the files in each, whose name has
    [essentials] in it and ends in [.7z], joined to its directory; it
    returns [None] exactly when the walk has no such file. *)
Theorem find_essentials_7z_first (w : World) (inpath : string) :
  match find_essentials_7z w inpath with
  | Some found =>
      ∃ before dirpath dirnames pre filename post after,
        walk w inpath = before ++ (dirpath, dirnames, pre ++ filename :: post) :: after
        ∧ found = ospath.join dirpath filename
        ∧ essentials_name filename
        ∧ (∀ f, f ∈ pre → ¬ essentials_name f)
        ∧ (∀ entry f, entry ∈ before → f ∈ entry.2 → ¬ essentials_name f)
  | None => ∀ entry f, entry ∈ walk w inpath → f ∈ entry.2 → ¬ essentials_name f
  end.
Proof. apply find_essentials_first. Qed.

Section ExtractPath.
Import Py.

Lemma join_empty_chars (parts : list (list ascii)) :
  chars (Py.join "" (text <$> parts)) = concat parts.
Proof.
  induction parts as [|part parts IH]; [done|].
  rewrite fmap_cons. cbn [Py.join]. destruct parts as [|part' parts].
  - simpl. by rewrite chars_text, app_nil_r.
  - rewrite fmap_cons in *. rewrite chars_app, chars_text.
    change (chars ("" +:+ ?s)) with (chars s). simpl concat at 1.
    f_equal. exact IH.
Qed.

Lemma split_go_nonempty (sep : list ascii) (s : list ascii) :
  ∀ skip cur, split_go sep skip cur s ≠ [].
Proof.
  induction s as [|c s IH]; intros skip cur; [done|].
  cbn [split_go]. destruct skip; [|apply IH]. destruct (starts sep (c :: s)); [done|apply IH].
Qed.

Lemma split_go_dot_cons (cur : list ascii) (c : ascii) (s : list ascii) :
  split_go [ch_dot] 0 cur (c :: s)
  = if eqc ch_dot c then rev cur :: split_go [ch_dot] 0 [] s
    else split_go [ch_dot] 0 (c :: cur) s.
Proof. cbn [split_go starts]. by rewrite andb_true_r. Qed.

Lemma split_go_dot_free (cur s : list ascii) :
  ch_dot ∉ s → split_go [ch_dot] 0 cur s = [rev cur ++ s].
Proof.
  revert cur. induction s as [|c s IH]; intros cur Hs.
  - simpl. by rewrite app_nil_r.
  - apply not_elem_of_cons in Hs as [Hc Hs]. rewrite split_go_dot_cons.
    assert (eqc ch_dot c = false) as -> by (by apply eqc_false).
    rewrite IH by done. simpl. by rewrite <- (assoc_L (++)).
Qed.

Lemma split_go_dot_last (root x : list ascii) :
  ch_dot ∉ x →
  ∀ cur,
    concat (removelast (split_go [ch_dot] 0 cur (root ++ ch_dot :: x)))
    = rev cur ++ filter (λ c, c ≠ ch_dot) root.
Proof.
  intros Hx. induction root as [|c root IH]; intros cur.
  - simpl app. rewrite split_go_dot_cons, eqc_refl, split_go_dot_free by done.
    by rewrite filter_nil.
  - simpl app. rewrite split_go_dot_cons. destruct (eqc ch_dot c) eqn:Hc.
    + apply eqc_true in Hc as <-.
      rewrite filter_cons_False by (intros H; by apply H).
      specialize (IH []).
      destruct (split_go [ch_dot] 0 [] (root ++ ch_dot :: x)) as [|piece pieces] eqn:Hgo.
      { by apply split_go_nonempty in Hgo. }
      change (removelast (rev cur :: piece :: pieces))
        with (rev cur :: removelast (piece :: pieces)).
      cbn [concat]. by rewrite IH.
    + apply eqc_false in Hc. rewrite filter_cons_True by congruence.
      rewrite IH. simpl. by rewrite <- (assoc_L (++)).
Qed.

Lemma slice_list_removelast {A} (l : list A) : slice_list l 0 (-1) = removelast l.
Proof.
  unfold slice_list. rewrite slice_bound_minus_one, slice_bound_in by lia.
  change (Z.to_nat 0) with 0%nat. rewrite drop_0, Nat.sub_0_r.
  induction l as [|a l IH]; [done|]. destruct l as [|b l]; [done|].
  simpl in *. f_equal. rewrite Nat.sub_0_r in IH. exact IH.
Qed.

Lemma extract_qt_exe_chars (path file : string) :
  chars (extract_qt_exe path file)
  = concat (removelast (split_go [ch_dot] 0 [] (chars (ospath.join path file)))).
Proof.
  unfold extract_qt_exe, split. change (chars ".") with [ch_dot].
  by rewrite slice_list_fmap, join_empty_chars, slice_list_removelast.
Qed.

End ExtractPath.

(** X24: the directory that [extract_qt_exe] returns is the full path of
    the installer up to its last dot with every dot taken out: a dot in the
    working directory or in the version of the installer's name is dropped
    with the one of the extension.  For a full path without a dot it is the
    empty string. *)
Theorem extract_qt_exe_drops_dots (path file : string) :
  (∀ root x,
     ospath.join path file = root +:+ "." +:+ x →
     Py.ch_dot ∉ Py.chars x →
     Py.chars (extract_qt_exe path file) = filter (λ c, c ≠ Py.ch_dot) (Py.chars root))
  ∧ (Py.ch_dot ∉ Py.chars (ospath.join path file) → extract_qt_exe path file = "").
Proof.
  split.
  - intros root x Hfull Hx. rewrite extract_qt_exe_chars, Hfull, !chars_app.
    change (Py.chars ".") with [Py.ch_dot]. simpl app.
    by rewrite split_go_dot_last.
  - intros Hfree. apply chars_inj. rewrite extract_qt_exe_chars.
    by rewrite split_go_dot_free.
Qed.

Lemma extract_qt_exe_drops_dots_witness :
  Py.chars (extract_qt_exe "T.x1" "qt-5.4.1.exe")
  = filter (λ c, c ≠ Py.ch_dot) (Py.chars (ospath.join "T.x1" "qt-5.4.1")).
Proof.
  apply (proj1 (extract_qt_exe_drops_dots "T.x1" "qt-5.4.1.exe")
           (ospath.join "T.x1" "qt-5.4.1") "exe").
  - reflexivity.
  - apply (bool_decide_unpack _). by vm_compute.
Defined.

Section Url.
Import Py.

Lemma join_dot_items (cs : list ascii) :
  chars (Py.join "." ((λ c, String c "") <$> cs)) = dotted cs.
Proof.
  induction cs as [|c cs IH]; [done|].
  rewrite fmap_cons. cbn [Py.join dotted]. destruct cs as [|c' cs]; [done|].
  rewrite fmap_cons in *. rewrite !chars_app, IH. done.
Qed.

Lemma slice_list_take {A} (l : list A) (k : nat) : slice_list l 0 (Z.of_nat k) = take k l.
Proof.
  unfold slice_list. rewrite (slice_bound_in _ 0) by lia.
  change (Z.to_nat 0) with 0%nat. rewrite drop_0, Nat.sub_0_r.
  unfold slice_bound. destruct (Z.ltb_spec (Z.of_nat k) 0) as [?|_]; [lia|].
  destruct (decide (k ≤ length l)) as [Hle|Hgt].
  - f_equal. lia.
  - rewrite !take_ge by lia. done.
Qed.

Lemma dotted_length (cs : list ascii) : length (dotted cs) = (2 * length cs - 1)%nat.
Proof.
  induction cs as [|c cs IH]; [done|]. cbn [dotted]. destruct cs as [|c' cs]; [done|].
  cbn [length] in *. lia.
Qed.

Lemma version_path_explicit (qt_version : string) :
  qt_version ≠ "latest" →
  Py.join "." (version_sequence qt_version) = text (dotted (chars qt_version))
  ∧ Py.join "." (slice_list (version_sequence qt_version) 0 2)
    = text (dotted (take 2 (chars qt_version))).
Proof.
  intros Hne. unfold version_sequence. rewrite decide_False by done. unfold items.
  split; apply chars_inj; rewrite chars_text.
  - apply join_dot_items.
  - by rewrite slice_list_fmap, (slice_list_take _ 2), join_dot_items.
Qed.

End Url.

(** X25: an explicit version is taken as a sequence of characters: in the
    URL that [get_qt_download_url] builds for any version but ['latest'],
    the directory of the minor version is the first two characters with a
    dot between them, and the version, in the path and in the name of the
    installer, is all characters with a dot between each two; that is the
    version given only when it has at most one character. *)
Theorem explicit_version_is_respelled (qt_version vs_version arch : string) :
  qt_version ≠ "latest" →
  get_qt_download_url qt_version vs_version arch
  = QT_REPOSITORY_BASE
    +:+ (Py.text (dotted (take 2 (Py.chars qt_version))) +:+ "/"
         +:+ Py.text (dotted (Py.chars qt_version)) +:+ "/")
    +:+ ("qt-opensource-windows-x86-" +:+ vs_version +:+ arch +:+ "_opengl-"
         +:+ Py.text (dotted (Py.chars qt_version)) +:+ ".exe")
  ∧ (Py.text (dotted (Py.chars qt_version)) = qt_version
     ↔ length (Py.chars qt_version) ≤ 1).
Proof.
  intros Hne. destruct (version_path_explicit qt_version Hne) as [Hall Htwo]. split.
  - unfold get_qt_download_url. cbv zeta. by rewrite Hall, Htwo.
  - split.
    + intros Heq. apply (f_equal (λ s, length (Py.chars s))) in Heq.
      rewrite chars_text, dotted_length in Heq. lia.
    + intros Hlen. apply chars_inj. rewrite chars_text.
      destruct (Py.chars qt_version) as [|c [|c' cs]]; [done|done|simpl in Hlen; lia].
Qed.

Lemma explicit_version_is_respelled_witness :
  get_qt_download_url "5.3.2" "msvc2013" "_64"
  = QT_REPOSITORY_BASE
    +:+ (Py.text (dotted (take 2 (Py.chars "5.3.2"))) +:+ "/"
         +:+ Py.text (dotted (Py.chars "5.3.2")) +:+ "/")
    +:+ ("qt-opensource-windows-x86-" +:+ "msvc2013" +:+ "_64" +:+ "_opengl-"
         +:+ Py.text (dotted (Py.chars "5.3.2")) +:+ ".exe")
  ∧ (Py.text (dotted (Py.chars "5.3.2")) = "5.3.2" ↔ length (Py.chars "5.3.2") ≤ 1).
Proof.
  apply (explicit_version_is_respelled "5.3.2" "msvc2013" "_64"). done.
Defined.

(** X26: the two installers that [main] asks for, the one for [_64] and
    the one without a suffix, never have the same URL. *)
Theorem download_urls_differ (qt_version vs_version : string) :
  get_qt_download_url qt_version vs_version "_64"
  ≠ get_qt_download_url qt_version vs_version "".
Proof.
  unfold get_qt_download_url. cbv zeta. intros Heq.
  apply (inj (String.app _)) in Heq. apply (inj (String.app _)) in Heq.
  apply (inj (String.app _)) in Heq. apply (inj (String.app _)) in Heq.
  discriminate Heq.
Qed.

(** * The architecture in the listing *)

Section MachineLine.
Import Py.

Lemma split_go_char_cons (sep : ascii) (cur : list ascii) (c : ascii) (s : list ascii) :
  split_go [sep] 0 cur (c :: s)
  = if eqc sep c then rev cur :: split_go [sep] 0 [] s
    else split_go [sep] 0 (c :: cur) s.
Proof. cbn [split_go starts]. by rewrite andb_true_r. Qed.

Lemma split_go_char_free (sep : ascii) (cur s : list ascii) :
  sep ∉ s → split_go [sep] 0 cur s = [rev cur ++ s].
Proof.
  revert cur. induction s as [|c s IH]; intros cur Hs.
  - simpl. by rewrite app_nil_r.
  - apply not_elem_of_cons in Hs as [Hc Hs]. rewrite split_go_char_cons.
    assert (eqc sep c = false) as -> by (by apply eqc_false).
    rewrite IH by done. simpl. by rewrite <- (assoc_L (++)).
Qed.

Lemma split_go_char_word (sep : ascii) (word s : list ascii) :
  sep ∉ word →
  ∀ cur, split_go [sep] 0 cur (word ++ sep :: s) = (rev cur ++ word) :: split_go [sep] 0 [] s.
Proof.
  intros Hword. induction word as [|c word IH]; intros cur.
  - simpl app. by rewrite split_go_char_cons, eqc_refl, app_nil_r.
  - apply not_elem_of_cons in Hword as [Hc Hword]. simpl app.
    rewrite split_go_char_cons.
    assert (eqc sep c = false) as -> by (by apply eqc_false).
    rewrite IH by done. simpl. by rewrite <- (assoc_L (++)).
Qed.

Lemma lstrip_blank (indent body : list ascii) :
  Forall (λ c, isspace c = true) indent →
  lstrip_chars (indent ++ body) = lstrip_chars body.
Proof. induction 1 as [|c indent Hc _ IH]; [done|]. simpl. by rewrite Hc. Qed.

Lemma strip_chars_body (indent body : list ascii) (first last : ascii) (inner : list ascii) :
  Forall (λ c, isspace c = true) indent →
  body = first :: inner ++ [last] →
  isspace first = false → isspace last = false →
  strip_chars (indent ++ body) = body.
Proof.
  intros Hindent -> Hfirst Hlast. unfold strip_chars. rewrite lstrip_blank by done.
  cbn [lstrip_chars]. rewrite Hfirst.
  change (first :: inner ++ [last]) with ((first :: inner) ++ [last]).
  rewrite rev_unit. cbn [lstrip_chars]. rewrite Hlast.
  change (rev (last :: rev (first :: inner))) with (rev (rev (first :: inner)) ++ [last]).
  by rewrite rev_involutive.
Qed.

Lemma slice_list_inner {A} (x y : A) (l : list A) : slice_list (x :: l ++ [y]) 1 (-1) = l.
Proof.
  unfold slice_list. rewrite slice_bound_minus_one, slice_bound_in by (simpl; lia).
  cbn [length]. rewrite length_app. simpl.
  replace (length l + 1 - 0 - Z.to_nat 1)%nat with (length l) by lia.
  by rewrite drop_0, take_app_length.
Qed.

Lemma solid_no_space (a : string) : solid a → ch_space ∉ chars a.
Proof.
  intros Hsolid Hin. apply (proj1 (Forall_forall _ _) Hsolid) in Hin. discriminate Hin.
Qed.

(** The loop of [arch] on one line as the inspector prints it. *)
Lemma machine_of_line (indent code a : string) (rest : list string) :
  blank indent → solid a → code = "8664" ∨ code = "14C" →
  Component.machine_of (machine_line indent code a :: rest) = Some a.
Proof.
  intros Hindent Ha Hcode.
  assert (strip (machine_line indent code a) = code +:+ " machine (" +:+ a +:+ ")") as Hstrip.
  { unfold strip, machine_line. apply chars_inj. rewrite chars_text, chars_app.
    destruct Hcode as [-> | ->].
    - apply (strip_chars_body _ _ "8" ")" (chars ("664 machine (" +:+ a))); try done.
      rewrite !chars_app. done.
    - apply (strip_chars_body _ _ "1" ")" (chars ("4C machine (" +:+ a))); try done.
      rewrite !chars_app. done. }
  cbn [Component.machine_of]. rewrite Hstrip.
  assert ((startswith (code +:+ " machine (" +:+ a +:+ ")") "8664"
           || startswith (code +:+ " machine (" +:+ a +:+ ")") "14C") = true) as ->.
  { destruct Hcode as [-> | ->]; reflexivity. }
  assert (contains "machine" (code +:+ " machine (" +:+ a +:+ ")") = true) as ->.
  { apply contains_spec. exists (code +:+ " "), (" (" +:+ a +:+ ")").
    by rewrite !append_assoc. }
  cbn [andb]. f_equal.
  assert (split (code +:+ " machine (" +:+ a +:+ ")") " "
          = [code; "machine"; "(" +:+ a +:+ ")"]) as ->.
  { unfold split. rewrite !chars_app. change (chars " ") with [ch_space].
    change (chars " machine (") with ([ch_space] ++ chars "machine" ++ [ch_space] ++ chars "(").
    rewrite <- !(assoc_L (++)). cbn [app].
    rewrite split_go_char_word
      by (destruct Hcode as [-> | ->]; apply (bool_decide_unpack _); by vm_compute).
    rewrite split_go_char_word by (apply (bool_decide_unpack _); by vm_compute).
    rewrite split_go_char_free.
    - simpl. by rewrite text_chars, text_app, text_chars.
    - apply solid_no_space in Ha. change (chars "(") with ["("%char].
      change (chars ")") with [")"%char].
      rewrite !elem_of_app, !list_elem_of_singleton. by intros [?|[?|?]]. }
  cbn [last default]. unfold slice.
  change (text (slice_list (chars ("(" +:+ a +:+ ")")) 1 (-1)) = a).
  apply chars_inj. rewrite chars_text, !chars_app.
  change (chars "(" ++ chars a ++ chars ")") with ("("%char :: chars a ++ [")"%char]).
  apply slice_list_inner.
Qed.

End MachineLine.

Section ArchValue.

Lemma machine_of_app (before after : list string) :
  Component.machine_of (before ++ after)
  = match Component.machine_of before with
    | Some a => Some a
    | None => Component.machine_of after
    end.
Proof.
  induction before as [|line before IH]; [done|].
  simpl app. cbn [Component.machine_of]. by destruct (_ && _).
Qed.

End ArchValue.

(** X27: the architecture that [arch] reads.  When the inspector answers
    for the file that is inspected, and the first line of its listing that
    the loop takes for a machine line is printed as the inspector prints it
    (an indentation, the code [8664] or [14C], the word [machine], and a
    name without white space in parentheses), [arch] returns that name and
    remembers it; the code does not enter the result, so [8664 machine
    (x86)] gives [x86]. *)
Theorem arch_reads_machine_line (w : World) (c : Component.t)
    (name out indent code a : string) (before rest : list string) :
  Component._arch c = None →
  Component.check_name w c = Ok name →
  check_output w (Component.headers_command name) = Some out →
  Py.split out Py.CRLF = before ++ machine_line indent code a :: rest →
  Component.machine_of before = None →
  blank indent → solid a → code = "8664" ∨ code = "14C" →
  Component.arch w c = Ok (Some a, Component.set_arch c a).
Proof.
  intros Hmemo Hname Hout Hsplit Hbefore Hindent Ha Hcode.
  unfold Component.arch. rewrite Hmemo, Hname. cbn [bind].
  unfold Component.inspect_headers, run. rewrite Hout. cbn [bind].
  by rewrite Hsplit, machine_of_app, Hbefore, machine_of_line.
Qed.

Lemma arch_reads_machine_line_witness :
  Component.arch static_core_world core_lib = Ok (Some "x64", Component.set_arch core_lib "x64").
Proof.
  apply (arch_reads_machine_line static_core_world core_lib
           (Component._abspath core_lib)
           (headers_listing "            8664 machine (x64)")
           "            " "8664" "x64"
           ["Dump of file"; ""; "FILE HEADER VALUES"]
           ["               6 number of sections"; ""]).
  - reflexivity.
  - reflexivity.
  - reflexivity.
  - reflexivity.
  - reflexivity.
  - repeat constructor.
  - repeat constructor.
  - by left.
Defined.

(** * The frame of a merge *)

Section MergeFrame.

Lemma merge_members_frame (targetname : string) (members : list string) :
  ∀ (packages packages' : gmap string QtPackage.t) (target : QtPackage.t),
    merge_members packages targetname target members = Ok packages' →
    dom packages' = dom packages ∖ list_to_set members
    ∧ (∀ k, k ≠ targetname → k ∉ members → packages' !! k = packages !! k).
Proof.
  induction members as [|m members IH]; intros packages packages' target.
  - intros ->%Ok_inj. split; [set_solver|done].
  - cbn [merge_members].
    destruct (packages !! m) as [package|] eqn:Hm; [|done].
    destruct (if decide (m = targetname) then _ else _) as [target1|e]; cbn [bind]; [|done].
    intros [Hdom Hkeep]%IH. split.
    + rewrite Hdom, dom_delete_L. case_decide as Ht.
      * rewrite dom_insert_L.
        assert (targetname ∈ dom packages) as Hin by (by apply elem_of_dom).
        clear -Hin. set_solver.
      * clear. set_solver.
    + intros k Hkt Hk. apply not_elem_of_cons in Hk as [Hkm Hk].
      rewrite (Hkeep k Hkt Hk), lookup_delete_ne by done.
      case_decide; [by rewrite lookup_insert_ne|done].
Qed.

End MergeFrame.

(** X28: what a merge leaves alone.  Whenever [merge_packages] returns,
    for any registry, target and list of members, the keys of the registry
    are the old keys without the members, and every package other than the
    target and the members is as it was; a target that is listed among its
    own members is deleted with them. *)
Theorem merge_frame (packages packages' : gmap string QtPackage.t) (targetname : string)
    (members : list string) :
  merge_packages packages targetname members = Ok packages' →
  dom packages' = dom packages ∖ list_to_set members
  ∧ (∀ k, k ≠ targetname → k ∉ members → packages' !! k = packages !! k)
  ∧ (targetname ∈ members → packages' !! targetname = None).
Proof.
  unfold merge_packages. destruct (packages !! targetname) as [target|]; [|done].
  intros [Hdom Hkeep]%merge_members_frame. split_and!; [done|done|].
  intros Hin. apply not_elem_of_dom. rewrite Hdom. clear -Hin. set_solver.
Qed.

Lemma merge_frame_witness :
  dom self_merged = dom core_registry ∖ list_to_set ["qt5gui"]
  ∧ (∀ k, k ≠ "qt5gui" → k ∉ ["qt5gui"] → self_merged !! k = core_registry !! k)
  ∧ ("qt5gui" ∈ ["qt5gui"] → self_merged !! "qt5gui" = None).
Proof.
  apply (merge_frame core_registry self_merged "qt5gui" ["qt5gui"]).
  vm_compute. reflexivity.
Defined.
